(** * The backend-service manager of starbox-client (service-manager.ts)

    A shallow embedding of the [ServerManager] class: its three mutable
    fields, every method, the four listeners it installs on the child
    process, and the host facilities it calls (net, child_process, fs, http,
    electron-log).  Methods are programs of a small free monad whose nodes
    are reads and writes of the fields of [this] and calls to the host; a
    program is run against a world, an arbitrary deterministic description
    of how the host answers.  Asynchronous host calls are the places where
    an [await] suspends the method, which gives the interleavings of two
    calls on the single JavaScript thread. *)

From Stdlib Require Import ZArith String Ascii List Bool Lia DecimalString.
Import ListNotations.
Open Scope string_scope.
Open Scope Z_scope.

Set Implicit Arguments.

(** ** JavaScript strings

    Strings are byte strings.  The needles the manager searches for are
    ASCII, so a search on the UTF-8 bytes agrees with the search on the
    decoded text; white space is the ASCII part of the JavaScript class. *)

Module Js.

(** A non-empty string is truthy. *)
Definition truthy (s : string) : bool :=
  match s with EmptyString => false | String _ _ => true end.

(** [s.includes(sub)] *)
Fixpoint includes (s sub : string) : bool :=
  if String.prefix sub s then true
  else match s with
       | EmptyString => false
       | String _ s' => includes s' sub
       end.

Definition isSpace (c : ascii) : bool :=
  let n := nat_of_ascii c in
  ((9 <=? n) && (n <=? 13))%nat || (n =? 32)%nat.

Definition isDigit (c : ascii) : bool :=
  let n := nat_of_ascii c in ((48 <=? n) && (n <=? 57))%nat.

Fixpoint skipSpaces (s : string) : string :=
  match s with
  | String c s' => if isSpace c then skipSpaces s' else s
  | EmptyString => EmptyString
  end.

Fixpoint skipNonSpaces (s : string) : string :=
  match s with
  | String c s' => if isSpace c then s else skipNonSpaces s'
  | EmptyString => EmptyString
  end.

Fixpoint takeDigits (s : string) : string :=
  match s with
  | String c s' => if isDigit c then String c (takeDigits s') else EmptyString
  | EmptyString => EmptyString
  end.

Fixpoint allDigits (s : string) : bool :=
  match s with
  | String c s' => isDigit c && allDigits s'
  | EmptyString => true
  end.

Fixpoint trimEnd (s : string) : string :=
  match s with
  | EmptyString => EmptyString
  | String c s' =>
      let t := trimEnd s' in
      if isSpace c && negb (truthy t) then EmptyString else String c t
  end.

(** [s.trim()] *)
Definition trim (s : string) : string := trimEnd (skipSpaces s).

(** [/\s+(\d+)$/] tried at the head of [s]: the white-space run is taken
    whole (a shorter one leaves a space in front of the digits), and the
    digits must reach the end of the input. *)
Definition spacesDigitsEnd (s : string) : option string :=
  match s with
  | String c s' =>
      if isSpace c then
        let d := skipSpaces s' in
        if truthy d && allDigits d then Some d else None
      else None
  | EmptyString => None
  end.

(** [/\s+(\d+)$/.exec(s)], group 1 of the leftmost match. *)
Fixpoint execSpacesDigitsEnd (s : string) : option string :=
  match spacesDigitsEnd s with
  | Some d => Some d
  | None => match s with
            | String _ s' => execSpacesDigitsEnd s'
            | EmptyString => None
            end
  end.

(** [/^\S+\s+(\d+)/.exec(s)], group 1. *)
Definition execWordSpacesDigits (s : string) : option string :=
  match s with
  | String c _ =>
      if isSpace c then None
      else
        let r := skipNonSpaces s in
        if truthy r then
          let d := takeDigits (skipSpaces r) in
          if truthy d then Some d else None
        else None
  | EmptyString => None
  end.

(** [n.toString()] and a number inside a template literal. *)
Definition toString (n : Z) : string := NilZero.string_of_int (Z.to_int n).

(** The double quote, for the one shell command that contains it. *)
Definition dquote : string := String (ascii_of_nat 34) EmptyString.

End Js.

(** ** Data *)

(** [process.platform]; the manager tells apart win32, darwin and the rest. *)
Inductive Platform := Win32 | Darwin | OtherPlatform.

(** [interface CleanupResult] *)
Record CleanupResult := { success : bool; message : string }.

(** A [ChildProcess] as far as the manager looks at it: [pid] is undefined
    when the process could not be created. *)
Record ChildProcess := { pid : option Z }.

(** The mutable fields of [class ServerManager]. *)
Record ServerManager := {
  serverProcess : option ChildProcess;
  port : Z;
  serverReady : bool
}.

(** [private maxKillAttempts: number = 3], never assigned again. *)
Definition maxKillAttempts : nat := 3.

(** The state of [new ServerManager()]. *)
Definition initial : ServerManager :=
  {| serverProcess := None; port := 23450; serverReady := false |}.

(** An assignment to one field of [this]. *)
Inductive Assign :=
| Set_serverProcess (v : option ChildProcess)
| Set_port (v : Z)
| Set_serverReady (v : bool).

Definition assign (a : Assign) (s : ServerManager) : ServerManager :=
  match a with
  | Set_serverProcess v =>
      {| serverProcess := v; port := port s; serverReady := serverReady s |}
  | Set_port v =>
      {| serverProcess := serverProcess s; port := v; serverReady := serverReady s |}
  | Set_serverReady v =>
      {| serverProcess := serverProcess s; port := port s; serverReady := v |}
  end.

(** A thrown value, reduced to the text
    [error instanceof Error ? error.message : String(error)]. *)
Definition Thrown := string.

(** The result of a call that may throw, or of a promise that may reject. *)
Inductive Res (A : Type) :=
| Ok (a : A)
| Err (e : Thrown).
Arguments Ok {A} a.
Arguments Err {A} e.

(** ** The host *)

Inductive ListenEvent := OnError | OnListening.
Inductive HttpEvent := Response (statusCode : Z) | RequestError | RequestTimeout.
Inductive Signal := SIGTERM | SIGKILL.
Inductive ChildEvent := StdoutData | StderrData | Exit | ErrorEvent.
Inductive LogLevel := LInfo | LWarn | LError.
Inductive Stdio := Ignore | Pipe.

Record SpawnOptions := {
  stdio : list Stdio;
  windowsHide : bool;
  env : list (string * string)
}.

(** [{...env, key: value}] *)
Fixpoint spread (env : list (string * string)) (key value : string)
  : list (string * string) :=
  match env with
  | [] => [(key, value)]
  | (k, v) :: rest =>
      if String.eqb k key then (key, value) :: rest
      else (k, v) :: spread rest key value
  end.

(** What the manager asks of Node and Electron.  The index is the type of
    the answer. *)
Inductive Os : Type -> Type :=
| fs_existsSync (path : string) : Os bool
    (* a throwaway server on 127.0.0.1:port; the first of its two events *)
| net_listen (port : Z) : Os ListenEvent
    (* promisify(exec): the stdout of the command, or the rejection *)
| execPromise (command : string) : Os (Res string)
| spawn (command : string) (args : list string) (options : option SpawnOptions)
    : Os (Res ChildProcess)
    (* process.kill(pid, 0) *)
| process_kill0 (pid : Z) : Os (Res unit)
| child_kill (child : ChildProcess) (signal : Signal) : Os (Res bool)
| child_on (child : ChildProcess) (event : ChildEvent) : Os unit
| setTimeout (ms : Z) : Os unit
    (* http.get(url) with req.setTimeout(timeout): the first of response,
       error and timeout; on timeout the request is destroyed *)
| http_get (url : string) (timeout : Z) : Os HttpEvent
| getAllWindows : Os (list nat)
| webContents_send (window : nat) (channel : string) : Os unit
| electron_log (level : LogLevel) (text : string) : Os unit.

(** The calls the manager awaits: the method is suspended there. *)
Definition suspends {X} (c : Os X) : bool :=
  match c with
  | net_listen _ | execPromise _ | setTimeout _ | http_get _ _ => true
  | _ => false
  end.

(** What does not change while the application runs. *)
Record Host := {
  platform : Platform;
  isPackaged : bool;
  resourcesPath : string;
  appPath : string;
  processEnv : list (string * string);
  path_join : list string -> string
}.

(** ** Programs *)

Inductive Prog (A : Type) : Type :=
| Ret (a : A)
| Throw (e : Thrown)
| Get (k : ServerManager -> Prog A)
| Upd (a : Assign) (k : Prog A)
| Call {X : Type} (c : Os X) (k : X -> Prog A).
Arguments Ret {A} a.
Arguments Throw {A} e.
Arguments Get {A} k.
Arguments Upd {A} a k.
Arguments Call {A X} c k.

Fixpoint bind {A B} (p : Prog A) (f : A -> Prog B) : Prog B :=
  match p with
  | Ret a => f a
  | Throw e => Throw e
  | Get k => Get (fun s => bind (k s) f)
  | Upd a k => Upd a (bind k f)
  | Call c k => Call c (fun x => bind (k x) f)
  end.

(** [try { body } catch (error) { handler }] *)
Fixpoint try_catch {A} (body : Prog A) (handler : Thrown -> Prog A) : Prog A :=
  match body with
  | Ret a => Ret a
  | Throw e => handler e
  | Get k => Get (fun s => try_catch (k s) handler)
  | Upd a k => Upd a (try_catch k handler)
  | Call c k => Call c (fun x => try_catch (k x) handler)
  end.

Declare Scope prog_scope.
Delimit Scope prog_scope with prog.
Notation "x <- p ;; q" := (bind p (fun x => q))
  (at level 100, p at next level, right associativity) : prog_scope.
Notation "p ;; q" := (bind p (fun _ => q))
  (at level 100, right associativity) : prog_scope.
Open Scope prog_scope.

(** [this.field] *)
Definition this {A} (field : ServerManager -> A) : Prog A :=
  Get (fun s => Ret (field s)).

(** [this.field = v] *)
Definition set (a : Assign) : Prog unit := Upd a (Ret tt).

Definition call {X} (c : Os X) : Prog X := Call c Ret.

(** A call that throws, or an awaited promise that rejects. *)
Definition may_throw {X} (c : Os (Res X)) : Prog X :=
  Call c (fun r => match r with Ok x => Ret x | Err e => Throw e end).

Definition log_info (text : string) : Prog unit := call (electron_log LInfo text).
Definition log_warn (text : string) : Prog unit := call (electron_log LWarn text).
Definition log_error (text : string) : Prog unit := call (electron_log LError text).

(** ** The methods of [ServerManager] *)

(** The two kinds of cleanup, [type: 'name' | 'port']. *)
Inductive CleanupType := ByName | ByPort.

(** [value: string | number] *)
Inductive Value := VString (s : string) | VNumber (n : Z).

(** [`${value}`] *)
Definition template (v : Value) : string :=
  match v with
  | VString s => s
  | VNumber n => Js.toString n
  end.

(** The value of an optional number when it is truthy. *)
Definition truthy_number (v : option Z) : option Z :=
  match v with
  | Some n => if n =? 0 then None else Some n
  | None => None
  end.

(** The readiness phrase the listeners look for. *)
Definition marker : string := "Backend server is ready".

Section Methods.

Variable host : Host.

(** [decodeOutput]: the bytes are kept as they are. *)
Definition decodeOutput (data : string) : string := data.

Definition exeName : string :=
  match platform host with
  | Win32 => "starbox-server.exe"
  | _ => "starbox-server"
  end.

Definition getServerPath : Prog string :=
  let serverPath :=
    if isPackaged host
    then path_join host [resourcesPath host; "server"; exeName]
    else path_join host [appPath host; "resources"; "server"; exeName] in
  found <- call (fs_existsSync serverPath);;
  if negb found
  then Throw ("后端服务可执行文件不存在: " ++ serverPath)
  else Ret serverPath.

Definition isPortInUse (p : Z) : Prog bool :=
  ev <- call (net_listen p);;
  match ev with
  | OnError => Ret true
  | OnListening => Ret false
  end.

Definition no_pid : CleanupResult :=
  {| success := false; message := "找不到占用端口的PID" |}.
Definition no_listener : CleanupResult :=
  {| success := false; message := "没有进程占用该端口" |}.

(** The first half of [executeCleanupCommand]: either an early [return]
    (left) or the command to run (right). *)
Definition cleanupCommand (type : CleanupType) (value : Value)
  : Prog (CleanupResult + string) :=
  match platform host with
  | Win32 =>
      match type with
      | ByName =>
          Ret (inr ("tasklist | findstr " ++ Js.dquote ++ "starbox-server.exe"
                    ++ Js.dquote
                    ++ " > NUL && taskkill /F /IM starbox-server.exe /T || exit /b 0"))
      | ByPort =>
          stdout <- may_throw (execPromise
            ("netstat -ano | findstr :" ++ template value ++ " | findstr LISTENING"));;
          if Js.truthy (Js.trim stdout) then
            match Js.execSpacesDigitsEnd (Js.trim stdout) with
            | Some pidMatch => Ret (inr ("taskkill /F /PID " ++ pidMatch))
            | None => Ret (inl no_pid)
            end
          else Ret (inl no_listener)
      end
  | Darwin =>
      match type with
      | ByName => Ret (inr "pgrep -f starbox-server | xargs kill -9 || true")
      | ByPort =>
          stdout <- may_throw (execPromise
            ("lsof -i tcp:" ++ template value ++ " | grep LISTEN"));;
          if Js.truthy (Js.trim stdout) then
            match Js.execWordSpacesDigits (Js.trim stdout) with
            | Some pidMatch => Ret (inr ("kill -9 " ++ pidMatch))
            | None => Ret (inl no_pid)
            end
          else Ret (inl no_listener)
      end
  | OtherPlatform =>
      match type with
      | ByName => Ret (inr "pkill -f starbox-server || true")
      | ByPort =>
          stdout <- may_throw (execPromise
            ("netstat -tuln | grep :" ++ template value));;
          if Js.truthy (Js.trim stdout) then
            pidOut <- may_throw (execPromise ("fuser -n tcp " ++ template value));;
            if Js.truthy (Js.trim pidOut)
            then Ret (inr ("kill -9 " ++ Js.trim pidOut))
            else Ret (inl no_pid)
          else Ret (inl no_listener)
      end
  end.

Definition executeCleanupCommand (type : CleanupType) (value : Value)
  : Prog CleanupResult :=
  try_catch
    (c <- cleanupCommand type value;;
     match c with
     | inl result => Ret result
     | inr command =>
         if Js.truthy command then
           _ <- may_throw (execPromise command);;
           match type with
           | ByName => log_info "已通过进程名清理后端服务"
           | ByPort => log_info ("已终止占用端口 " ++ template value ++ " 的进程")
           end;;
           Ret {| success := true; message := "清理成功" |}
         else Ret {| success := false; message := "无需清理或没有找到目标进程" |}
     end)
    (fun error =>
       let errorMsg :=
         match type with ByName => "按名称" | ByPort => "按端口" end
         ++ " 清理进程失败: " ++ error in
       log_warn errorMsg;;
       Ret {| success := false; message := errorMsg |}).

Definition cleanupOldProcesses : Prog CleanupResult :=
  executeCleanupCommand ByName (VString "starbox-server").

Definition killProcessOnPort (p : Z) : Prog bool :=
  result <- executeCleanupCommand ByPort (VNumber p);;
  Ret (success result).

Definition isProcessRunning (pid : Z) : Prog bool :=
  if pid =? 0 then Ret false
  else try_catch (may_throw (process_kill0 pid);; Ret true) (fun _ => Ret false).

Definition resetServerState : Prog unit :=
  set (Set_serverProcess None);;
  set (Set_serverReady false).

Definition cleanupServicePort : Prog unit :=
  try_catch
    (p <- this port;;
     log_info ("检查端口 " ++ Js.toString p ++ " 是否被占用");;
     p <- this port;;
     portInUse <- isPortInUse p;;
     if portInUse then
       p <- this port;;
       log_warn ("端口 " ++ Js.toString p ++ " 被占用，尝试终止占用进程");;
       p <- this port;;
       killedByPort <- killProcessOnPort p;;
       (if killedByPort then
          p <- this port;;
          log_info ("已终止占用端口 " ++ Js.toString p ++ " 的进程")
        else
          log_warn "无法按端口终止进程，尝试按进程名清理";;
          _ <- cleanupOldProcesses;;
          Ret tt);;
       p <- this port;;
       stillInUse <- isPortInUse p;;
       p <- this port;;
       if stillInUse
       then log_warn ("清理后端口 " ++ Js.toString p ++ " 仍被占用")
       else log_info ("端口 " ++ Js.toString p ++ " 已释放")
     else
       p <- this port;;
       log_info ("端口 " ++ Js.toString p ++ " 未被占用"))
    (fun error => log_error ("清理服务端口时出错: " ++ error)).

Definition prepareForStart : Prog unit :=
  p <- this port;;
  portInUse <- isPortInUse p;;
  if portInUse then
    p <- this port;;
    log_warn ("端口 " ++ Js.toString p ++ " 被占用，尝试释放");;
    p <- this port;;
    killedByPort <- killProcessOnPort p;;
    (if negb killedByPort then _ <- cleanupOldProcesses;; Ret tt else Ret tt);;
    p <- this port;;
    stillInUse <- isPortInUse p;;
    if stillInUse then
      p <- this port;;
      set (Set_port (p + 1));;
      p <- this port;;
      log_warn ("端口仍被占用，切换到端口 " ++ Js.toString p)
    else
      p <- this port;;
      log_info ("已释放端口 " ++ Js.toString p)
  else Ret tt.

Definition spawnOptions : SpawnOptions :=
  let base :=
    {| stdio := [Ignore; Pipe; Pipe];
       windowsHide := true;
       env := spread (processEnv host) "ENV" "client" |} in
  match platform host with
  | Win32 =>
      {| stdio := stdio base;
         windowsHide := windowsHide base;
         env := spread (env base) "PYTHONIOENCODING" "utf-8" |}
  | _ => base
  end.

Definition setupProcessListeners : Prog unit :=
  sp <- this serverProcess;;
  match sp with
  | None => Ret tt
  | Some child =>
      call (child_on child StdoutData);;
      call (child_on child StderrData);;
      call (child_on child Exit);;
      call (child_on child ErrorEvent)
  end.

Definition spawnServerProcess : Prog unit :=
  serverPath <- getServerPath;;
  p <- this port;;
  log_info ("启动后端服务: " ++ serverPath ++ "，端口: " ++ Js.toString p);;
  p <- this port;;
  child <- may_throw (spawn serverPath ["--port"; Js.toString p; "--env"; "client"]
                      (Some spawnOptions));;
  set (Set_serverProcess (Some child));;
  setupProcessListeners;;
  p <- this port;;
  log_info ("后端服务已启动，端口: " ++ Js.toString p).

Definition start (p : option Z) : Prog unit :=
  sp <- this serverProcess;;
  match sp with
  | Some _ => log_info "后端服务已经在运行中"
  | None =>
      match truthy_number p with
      | Some v => set (Set_port v)
      | None => Ret tt
      end;;
      try_catch
        (prepareForStart;; spawnServerProcess)
        (fun error =>
           log_error ("启动后端服务时出错: " ++ error);;
           set (Set_serverReady false))
  end.

(** The listeners installed by [setupProcessListeners]. *)

Definition onStdoutData (data : string) : Prog unit :=
  let output := decodeOutput data in
  log_info ("后端服务输出: " ++ output);;
  if Js.includes output marker
  then set (Set_serverReady true)
  else Ret tt.

Definition onStderrData (data : string) : Prog unit :=
  let output := decodeOutput data in
  if Js.includes output " INFO " || Js.includes output "INFO:"
     || Js.includes output "DEBUG:"
  then
    log_info ("后端服务日志: " ++ output);;
    if Js.includes output marker then
      set (Set_serverReady true);;
      wins <- call getAllWindows;;
      match wins with
      | w :: _ => call (webContents_send w "backend-ready")
      | [] => Ret tt
      end
    else Ret tt
  else log_error ("后端服务错误: " ++ output).

(** [code] and [signal] are null when absent; they are only logged and
    compared, so they are kept as text. *)
Definition show_null (v : option string) : string :=
  match v with Some s => s | None => "null" end.

Definition is_signal (v : option string) (name : string) : bool :=
  match v with Some s => String.eqb s name | None => false end.

Definition onExit (code : option Z) (signal : option string) : Prog unit :=
  let code_text := show_null (option_map Js.toString code) in
  log_info ("后端服务已退出，退出码: " ++ code_text ++ "，信号: " ++ show_null signal);;
  resetServerState;;
  if negb (match code with Some 0 => true | _ => false end)
     && negb (is_signal signal "SIGTERM") && negb (is_signal signal "SIGKILL")
  then log_warn ("后端服务异常退出，可能需要进一步处理，退出码: " ++ code_text
                 ++ ", 信号: " ++ show_null signal)
  else Ret tt.

Definition onProcessError (error_message : string) : Prog unit :=
  log_error ("后端服务启动失败: " ++ error_message);;
  resetServerState.

(** [isReady(timeout = 1000)] *)
Definition isReady (timeout : option Z) : Prog bool :=
  let timeout := match timeout with Some t => t | None => 1000 end in
  ready <- this serverReady;;
  if ready then Ret true
  else
    sp <- this serverProcess;;
    match sp with
    | None => Ret false
    | Some _ =>
        try_catch
          (p <- this port;;
           res <- call (http_get ("http://localhost:" ++ Js.toString p ++ "/health")
                          timeout);;
           match res with
           | Response statusCode =>
               if statusCode =? 200
               then set (Set_serverReady true);; Ret true
               else Ret false
           | RequestError => Ret false
           | RequestTimeout => Ret false
           end)
          (fun _ => Ret false)
    end.

Definition finalCleanupAttempt : Prog bool :=
  log_warn "常规方法无法关闭后端服务，尝试清理所有相关进程";;
  try_catch
    (result <- cleanupOldProcesses;;
     resetServerState;;
     (if success result
      then log_info "已成功清理所有后端服务进程"
      else log_warn ("清理进程部分失败: " ++ message result));;
     Ret true)
    (fun error =>
       log_error ("无法强制清理后端服务进程: " ++ error);;
       resetServerState;;
       Ret false).

Definition attempts_text (attempt : Z) : string :=
  Js.toString attempt ++ "/" ++ Js.toString (Z.of_nat maxKillAttempts).

(** One turn of the loop of [attemptToStopProcess]: [Some b] is
    [return b], [None] goes to the next turn. *)
Definition stopAttempt (pid attempt : Z) : Prog (option bool) :=
  try_catch
    (log_info ("尝试关闭后端服务 (尝试 " ++ attempts_text attempt ++ ")");;
     match platform host with
     | Win32 =>
         _ <- may_throw (spawn "taskkill" ["/pid"; Js.toString pid; "/f"; "/t"] None);;
         Ret tt
     | _ =>
         sp <- this serverProcess;;
         match sp with
         | Some child =>
             if attempt =? 1
             then _ <- may_throw (child_kill child SIGTERM);; Ret tt
             else _ <- may_throw (child_kill child SIGKILL);; Ret tt
         | None => Ret tt
         end
     end;;
     call (setTimeout 500);;
     processExists <- isProcessRunning pid;;
     if negb processExists then
       resetServerState;;
       log_info "后端服务已成功关闭";;
       Ret (Some true)
     else Ret None)
    (fun error =>
       log_error ("关闭后端服务时出错 (尝试 " ++ attempts_text attempt ++ "): " ++ error);;
       Ret None).

(** [for (let attempt = ...; attempt <= this.maxKillAttempts; attempt++)]
    with [remaining] turns left, then [finalCleanupAttempt]. *)
Fixpoint stopLoop (remaining : nat) (pid attempt : Z) : Prog bool :=
  match remaining with
  | O => finalCleanupAttempt
  | S remaining' =>
      r <- stopAttempt pid attempt;;
      match r with
      | Some b => Ret b
      | None => stopLoop remaining' pid (attempt + 1)
      end
  end.

Definition attemptToStopProcess (pid : Z) : Prog bool :=
  stopLoop maxKillAttempts pid 1.

Definition stop : Prog bool :=
  sp <- this serverProcess;;
  match sp with
  | None => Ret true
  | Some child =>
      log_info "正在关闭后端服务...";;
      match truthy_number (pid child) with
      | None =>
          log_warn "后端服务进程ID不可用";;
          resetServerState;;
          Ret false
      | Some pid => attemptToStopProcess pid
      end
  end.

Definition getPort : Prog Z := this port.

Definition isRunning : Prog bool :=
  sp <- this serverProcess;;
  match sp with
  | None => Ret false
  | Some child =>
      match truthy_number (pid child) with
      | None => Ret false
      | Some pid =>
          match platform host with
          | Win32 => Ret true
          | _ =>
              try_catch
                (may_throw (process_kill0 pid);; Ret true)
                (fun _ => resetServerState;; Ret false)
          end
      end
  end.

End Methods.

(** ** Running a program *)

(** What a run leaves behind, in order: the calls to the host with their
    answers, and the assignments to the fields. *)
Inductive Event :=
| Called {X : Type} (c : Os X) (answer : X)
| Wrote (a : Assign).

Section Worlds.

(** A world: the state of everything outside the manager, and how each
    call is answered in it. *)
Variable W : Type.
Variable os : forall X, Os X -> W -> X * W.

Record Outcome (A : Type) := {
  result : Res A;
  final : ServerManager;
  world : W;
  trace : list Event
}.

Definition after {A} (e : Event) (o : Outcome A) : Outcome A :=
  {| result := result o; final := final o; world := world o;
     trace := e :: trace o |}.

(** A method run to its end with nothing else in between. *)
Fixpoint run {A} (p : Prog A) (s : ServerManager) (w : W) : Outcome A :=
  match p with
  | Ret a => {| result := Ok a; final := s; world := w; trace := [] |}
  | Throw e => {| result := Err e; final := s; world := w; trace := [] |}
  | Get k => run (k s) s w
  | Upd a k => after (Wrote a) (run k (assign a s) w)
  | Call c k =>
      let (x, w') := os c w in
      after (Called c x) (run (k x) s w')
  end.

(** *** Interleaved calls

    A call runs without interruption up to the next awaited host call and
    goes on when that call has been answered.  [Config] is what the calls
    share. *)
Record Config := { mgr : ServerManager; env_now : W; history : list Event }.

Definition record (e : Event) (c : Config) : Config :=
  {| mgr := mgr c; env_now := env_now c; history := history c ++ [e] |}.

(** Run up to the next awaited call, which stays at the head. *)
Fixpoint run_to_await {A} (p : Prog A) (c : Config) : Prog A * Config :=
  match p with
  | Get k => run_to_await (k (mgr c)) c
  | Upd a k =>
      run_to_await k
        (record (Wrote a)
           {| mgr := assign a (mgr c); env_now := env_now c; history := history c |})
  | Call o k =>
      if suspends o then (p, c)
      else
        let (x, w') := os o (env_now c) in
        run_to_await (k x)
          (record (Called o x)
             {| mgr := mgr c; env_now := w'; history := history c |})
  | _ => (p, c)
  end.

(** One turn of a call: the awaited call at its head, if any, is answered,
    and the call runs on to its next await. *)
Definition turn {A} (p : Prog A) (c : Config) : Prog A * Config :=
  match p with
  | Call o k =>
      if suspends o then
        let (x, w') := os o (env_now c) in
        run_to_await (k x)
          (record (Called o x)
             {| mgr := mgr c; env_now := w'; history := history c |})
      else run_to_await p c
  | _ => run_to_await p c
  end.

(** [n] turns of one call. *)
Fixpoint turns {A} (n : nat) (p : Prog A) (c : Config) : Prog A * Config :=
  match n with
  | O => (p, c)
  | S n' => let (p', c') := turn p c in turns n' p' c'
  end.

(** The run of [p] from [c] goes on as the run of [p'] from [c']. *)
Definition continues {A} (p : Prog A) (c : Config) (pc : Prog A * Config) : Prop :=
  let o := run p (mgr c) (env_now c) in
  let o' := run (fst pc) (mgr (snd pc)) (env_now (snd pc)) in
  result o = result o' /\ final o = final o' /\ world o = world o' /\
  (history c ++ trace o = history (snd pc) ++ trace o')%list.

Fixpoint update_nth {A} (n : nat) (x : A) (l : list A) : list A :=
  match l, n with
  | [], _ => []
  | _ :: l', O => x :: l'
  | y :: l', S n' => y :: update_nth n' x l'
  end.

(** The calls in flight take turns as the schedule says. *)
Fixpoint interleave {A} (schedule : list nat) (calls : list (Prog A)) (c : Config)
  : list (Prog A) * Config :=
  match schedule with
  | [] => (calls, c)
  | i :: rest =>
      match nth_error calls i with
      | Some p =>
          let (p', c') := turn p c in
          interleave rest (update_nth i p' calls) c'
      | None => interleave rest calls c
      end
  end.

Definition settled {A} (p : Prog A) : bool :=
  match p with
  | Ret _ | Throw _ => true
  | _ => false
  end.

End Worlds.

Arguments result {W A} o.
Arguments final {W A} o.
Arguments world {W A} o.
Arguments trace {W A} o.

(** ** What a trace shows *)

(** The ports probed, in order. *)
Definition probed (e : Event) : list Z :=
  match e with
  | Called c _ => match c with net_listen p => [p] | _ => [] end
  | Wrote _ => []
  end.
Definition probes (tr : list Event) : list Z := flat_map probed tr.

(** The argument vectors handed to the service executable. *)
Definition launched (e : Event) : list (list string) :=
  match e with
  | Called c _ => match c with spawn _ args (Some _) => [args] | _ => [] end
  | Wrote _ => []
  end.
Definition launches (tr : list Event) : list (list string) := flat_map launched tr.

(** The service processes that were created. *)
Definition created (e : Event) : list ChildProcess :=
  match e with
  | Called c x =>
      match c in Os X return X -> list ChildProcess with
      | spawn _ _ (Some _) =>
          fun r => match r with Ok child => [child] | Err _ => [] end
      | _ => fun _ => []
      end x
  | Wrote _ => []
  end.
Definition processes (tr : list Event) : list ChildProcess := flat_map created tr.

(** The health polls. *)
Definition polled (e : Event) : list string :=
  match e with
  | Called c _ => match c with http_get url _ => [url] | _ => [] end
  | Wrote _ => []
  end.
Definition polls (tr : list Event) : list string := flat_map polled tr.

(** The shell commands run. *)
Definition executed (e : Event) : list string :=
  match e with
  | Called c _ => match c with execPromise command => [command] | _ => [] end
  | Wrote _ => []
  end.
Definition commands (tr : list Event) : list string := flat_map executed tr.

(** The assignments, in order. *)
Definition written (e : Event) : list Assign :=
  match e with
  | Called _ _ => []
  | Wrote a => [a]
  end.
Definition writes (tr : list Event) : list Assign := flat_map written tr.

(** The error-level log lines. *)
Definition error_logged (e : Event) : list string :=
  match e with
  | Called c _ => match c with electron_log LError text => [text] | _ => [] end
  | Wrote _ => []
  end.
Definition error_log (tr : list Event) : list string := flat_map error_logged tr.

(** A kill sent to the child: a signal, or taskkill on its pid. *)
Definition is_kill (e : Event) : bool :=
  match e with
  | Called c _ =>
      match c with
      | child_kill _ _ => true
      | spawn command _ None => String.eqb command "taskkill"
      | _ => false
      end
  | Wrote _ => false
  end.

(** The kills sent, in order. *)
Inductive Kill := Signalled (signal : Signal) | Taskkill.

Definition killed (e : Event) : list Kill :=
  match e with
  | Called c _ =>
      match c with
      | child_kill _ signal => [Signalled signal]
      | spawn command _ None =>
          if String.eqb command "taskkill" then [Taskkill] else []
      | _ => []
      end
  | Wrote _ => []
  end.
Definition kills (tr : list Event) : list Kill := flat_map killed tr.

(** Any reap attempt: a kill, or a shell command of the by-port or by-name
    cleanup. *)
Definition is_reap (e : Event) : bool :=
  is_kill e ||
  match e with
  | Called c _ => match c with execPromise _ => true | _ => false end
  | Wrote _ => false
  end.

(** The handle is dropped. *)
Definition is_drop (e : Event) : bool :=
  match e with
  | Wrote (Set_serverProcess None) => true
  | _ => false
  end.

(** No drop comes before the first kill. *)
Fixpoint killed_before_drop (tr : list Event) : bool :=
  match tr with
  | [] => true
  | e :: tr' =>
      if is_kill e then true
      else if is_drop e then false
      else killed_before_drop tr'
  end.

(** Only shell commands and log lines below the error level. *)
Definition is_shell_or_log (e : Event) : bool :=
  match e with
  | Called c _ =>
      match c with
      | execPromise _ => true
      | electron_log LError _ => false
      | electron_log _ _ => true
      | _ => false
      end
  | Wrote _ => false
  end.

(** ** Ready only with a handle, and the system around the manager *)

(** Ready only with a handle. *)
Definition ready_has_handle (s : ServerManager) : Prop :=
  serverReady s = true -> serverProcess s <> None.

(** The listeners a run installs. *)
Definition installed (e : Event) : list (ChildProcess * ChildEvent) :=
  match e with
  | Called c _ => match c with child_on child ev => [(child, ev)] | _ => [] end
  | Wrote _ => []
  end.
Definition installs (tr : list Event) : list (ChildProcess * ChildEvent) :=
  flat_map installed tr.

(** ** A program logic

    [wp R p Q s]: started in state [s], whatever the host answers within
    [R], the program [p] ends with a result, a state and a trace that
    satisfy [Q]. *)

Definition Post (A : Type) := Res A -> ServerManager -> list Event -> Prop.

(** [R] is the set of answers the host may give. *)
Fixpoint wp (R : forall X, Os X -> X -> Prop) {A} (p : Prog A) (Q : Post A)
    (s : ServerManager) : Prop :=
  match p with
  | Ret a => Q (Ok a) s []
  | Throw e => Q (Err e) s []
  | Get k => wp R (k s) Q s
  | Upd a k => wp R k (fun r s' tr => Q r s' (Wrote a :: tr)) (assign a s)
  | Call c k =>
      forall x, R _ c x -> wp R (k x) (fun r s' tr => Q r s' (Called c x :: tr)) s
  end.

(** Sequencing: the second program starts where the first one ended, and
    a throw of the first one skips it. *)
Definition then_post R {A B} (f : A -> Prog B) (Q : Post B) : Post A :=
  fun r s1 tr1 =>
    match r with
    | Ok a => wp R (f a) (fun r' s2 tr2 => Q r' s2 (tr1 ++ tr2)%list) s1
    | Err e => Q (Err e) s1 tr1
    end.

(** [try]/[catch]: the handler starts where the body threw. *)
Definition catch_post R {A} (handler : Thrown -> Prog A) (Q : Post A) : Post A :=
  fun r s1 tr1 =>
    match r with
    | Ok a => Q (Ok a) s1 tr1
    | Err e => wp R (handler e) (fun r' s2 tr2 => Q r' s2 (tr1 ++ tr2)%list) s1
    end.

(** ** Calls that overlap

    [keeps Inv p Q s]: entered in state [s], the call [p] leaves the
    manager in a state of [Inv] whenever it is suspended, and ends with a
    result and a state that satisfy [Q], whatever the host answers and
    whatever happens to the manager while the call is suspended, as long
    as that leaves it in a state of [Inv]. *)
Fixpoint keeps (Inv : ServerManager -> Prop) {A} (p : Prog A)
    (Q : Res A -> ServerManager -> Prop) (s : ServerManager) : Prop :=
  match p with
  | Ret a => Q (Ok a) s
  | Throw e => Q (Err e) s
  | Get k => keeps Inv (k s) Q s
  | Upd a k => keeps Inv k Q (assign a s)
  | Call c k =>
      if suspends c
      then Inv s /\ forall x s', Inv s' -> keeps Inv (k x) Q s'
      else forall x, keeps Inv (k x) Q s
  end.



(** A world answers within [R]. *)
Definition answers_within (R : forall X, Os X -> X -> Prop)
    W (os : forall X, Os X -> W -> X * W) : Prop :=
  forall X (c : Os X) (w : W), R _ c (fst (os _ c w)).

(** No assumption on the host at all. *)
Definition any_answer : forall X, Os X -> X -> Prop := fun _ _ _ => True.

(** ** Concrete hosts and worlds *)

(** A world that answers each call the same way every time. *)
Record Answers := {
  on_existsSync : string -> bool;
  on_listen : Z -> ListenEvent;
  on_exec : string -> Res string;
  on_spawn : string -> list string -> Res ChildProcess;
  on_kill0 : Z -> Res unit;
  on_child_kill : ChildProcess -> Signal -> Res bool;
  on_http_get : string -> HttpEvent;
  windows : list nat
}.

Definition scripted (a : Answers) : forall X, Os X -> unit -> X * unit :=
  fun X c w =>
    (match c in Os X return X with
     | fs_existsSync path => on_existsSync a path
     | net_listen p => on_listen a p
     | execPromise command => on_exec a command
     | spawn command args _ => on_spawn a command args
     | process_kill0 p => on_kill0 a p
     | child_kill child signal => on_child_kill a child signal
     | child_on _ _ => tt
     | setTimeout _ => tt
     | http_get url _ => on_http_get a url
     | getAllWindows => windows a
     | webContents_send _ _ => tt
     | electron_log _ _ => tt
     end, w).

Definition join_with (sep : string) (parts : list string) : string :=
  String.concat sep parts.

Definition linux_host : Host :=
  {| platform := OtherPlatform; isPackaged := false;
     resourcesPath := "/opt/starbox/resources"; appPath := "/home/dev/starbox-client";
     processEnv := [("HOME", "/home/dev")]; path_join := join_with "/" |}.

Definition mac_host : Host :=
  {| platform := Darwin; isPackaged := true;
     resourcesPath := "/Applications/StarBox.app/Contents/Resources";
     appPath := "/Applications/StarBox.app/Contents/Resources/app.asar";
     processEnv := [("HOME", "/Users/dev")]; path_join := join_with "/" |}.

Definition windows_host : Host :=
  {| platform := Win32; isPackaged := true;
     resourcesPath := "C:/StarBox/resources"; appPath := "C:/StarBox/resources/app.asar";
     processEnv := [("USERNAME", "dev")]; path_join := join_with (String (ascii_of_nat 92) EmptyString) |}.

Definition the_child : ChildProcess := {| pid := Some 4242 |}.

(** The port is free, the executable is there and starts as process 4242,
    which answers its health endpoint and dies at the first signal. *)
Definition calm : Answers :=
  {| on_existsSync := fun _ => true;
     on_listen := fun _ => OnListening;
     on_exec := fun _ => Ok EmptyString;
     on_spawn := fun _ _ => Ok the_child;
     on_kill0 := fun _ => Err "kill ESRCH";
     on_child_kill := fun _ _ => Ok true;
     on_http_get := fun _ => Response 200;
     windows := [1%nat] |}.

(** Every port is held by a process that no lookup finds and no cleanup
    command ends: the lookups print nothing, the by-name commands succeed
    without effect. *)
Definition crowded : Answers :=
  {| on_existsSync := fun _ => true;
     on_listen := fun _ => OnError;
     on_exec := fun _ => Ok EmptyString;
     on_spawn := fun _ _ => Ok the_child;
     on_kill0 := fun _ => Ok tt;
     on_child_kill := fun _ _ => Ok true;
     on_http_get := fun _ => RequestError;
     windows := [] |}.



(** The service starts as process 4242 and outlives every signal; the
    by-name cleanup command fails too. *)
Definition stubborn : Answers :=
  {| on_existsSync := fun _ => true;
     on_listen := fun _ => OnListening;
     on_exec := fun _ => Err "Command failed";
     on_spawn := fun _ _ => Ok the_child;
     on_kill0 := fun _ => Ok tt;
     on_child_kill := fun _ _ => Ok false;
     on_http_get := fun _ => RequestTimeout;
     windows := [] |}.

(** A handle whose process could not be created. *)
Definition stillborn : ServerManager :=
  {| serverProcess := Some {| pid := None |}; port := 23450; serverReady := false |}.

(** A running, ready service. *)
Definition serving : ServerManager :=
  {| serverProcess := Some the_child; port := 23450; serverReady := true |}.

(** A running service not yet known to be ready. *)
Definition warming : ServerManager :=
  {| serverProcess := Some the_child; port := 23450; serverReady := false |}.

Definition start_config (s : ServerManager) : Config unit :=
  {| mgr := s; env_now := tt; history := [] |}.

(** ** Vocabulary of the statements *)

(** The shell command of the by-name cleanup on this host. *)
Definition by_name_command (host : Host) : string :=
  match platform host with
  | Win32 =>
      "tasklist | findstr " ++ Js.dquote ++ "starbox-server.exe" ++ Js.dquote
      ++ " > NUL && taskkill /F /IM starbox-server.exe /T || exit /b 0"
  | Darwin => "pgrep -f starbox-server | xargs kill -9 || true"
  | OtherPlatform => "pkill -f starbox-server || true"
  end.

(** The shell command with which the by-port cleanup looks for the
    listener on port [p]. *)
Definition port_lookup_command (host : Host) (p : Z) : string :=
  match platform host with
  | Win32 => "netstat -ano | findstr :" ++ Js.toString p ++ " | findstr LISTENING"
  | Darwin => "lsof -i tcp:" ++ Js.toString p ++ " | grep LISTEN"
  | OtherPlatform => "netstat -tuln | grep :" ++ Js.toString p
  end.

(** The lookup found no listener: it printed nothing, or (as grep and
    findstr do when no line matches) it exited with an error. *)
Definition found_nothing (answer : Res string) : bool :=
  match answer with
  | Ok stdout => negb (Js.truthy (Js.trim stdout))
  | Err _ => true
  end.

Definition resolved {A} (answer : Res A) : bool :=
  match answer with Ok _ => true | Err _ => false end.

(** The address polled by [isReady]. *)
Definition health_url (p : Z) : string :=
  "http://localhost:" ++ Js.toString p ++ "/health".

Definition timeout_or_default (timeout : option Z) : Z :=
  match timeout with Some t => t | None => 1000 end.

Definition is_200 (answer : HttpEvent) : bool :=
  match answer with
  | Response statusCode => statusCode =? 200
  | _ => false
  end.

Definition has_handle (s : ServerManager) : bool :=
  match serverProcess s with Some _ => true | None => false end.

(** A stderr chunk that the listener takes for an INFO or DEBUG line. *)
Definition informational (output : string) : bool :=
  Js.includes output " INFO " || Js.includes output "INFO:"
  || Js.includes output "DEBUG:".

(** The port [start(p)] begins with. *)
Definition requested (p : option Z) (s : ServerManager) : Z :=
  match truthy_number p with Some v => v | None => port s end.

(** The arguments the service is launched with for port [p]. *)
Definition service_args (p : Z) : list string :=
  ["--port"; Js.toString p; "--env"; "client"].






(** The answers of a host on which port [p] stays in use. *)
Definition busy (p : Z) : forall X, Os X -> X -> Prop :=
  fun X c =>
    match c in Os X return X -> Prop with
    | net_listen q => fun ev => q = p -> ev = OnError
    | _ => fun _ => True
    end.

(** The answers of a host on which process [n] stays alive. *)
Definition surviving (n : Z) : forall X, Os X -> X -> Prop :=
  fun X c =>
    match c in Os X return X -> Prop with
    | process_kill0 q => fun r => q = n -> r = Ok tt
    | _ => fun _ => True
    end.



(** What [executeCleanupCommand] returns after its command has run, and
    what it returns from its [catch]. *)
Definition cleaned : CleanupResult :=
  {| success := true; message := "清理成功" |}.

Definition cleanup_failed (type : CleanupType) (error : Thrown) : CleanupResult :=
  {| success := false;
     message := match type with ByName => "按名称" | ByPort => "按端口" end
                ++ " 清理进程失败: " ++ error |}.

(** [resetServerState] as a function on the fields. *)
Definition reset (s : ServerManager) : ServerManager :=
  assign (Set_serverReady false) (assign (Set_serverProcess None) s).

(** The kill that turn [attempt] of the stop loop sends while the handle
    is there. *)
Definition kill_of_attempt (host : Host) (attempt : Z) : Kill :=
  match platform host with
  | Win32 => Taskkill
  | _ => if attempt =? 1 then Signalled SIGTERM else Signalled SIGKILL
  end.

(** The kills of [remaining] turns from turn [attempt] on. *)
Fixpoint escalation (host : Host) (remaining : nat) (attempt : Z) : list Kill :=
  match remaining with
  | O => []
  | S remaining' =>
      kill_of_attempt host attempt :: escalation host remaining' (attempt + 1)
  end.

(** The trace has a kill, and no drop of the handle before it. *)
Definition kill_first (tr : list Event) : bool :=
  killed_before_drop tr && existsb is_kill tr.


(** * The rest of the manager: vocabulary *)

(** The waits, in milliseconds. *)
Definition slept (e : Event) : list Z :=
  match e with
  | Called c _ => match c with setTimeout ms => [ms] | _ => [] end
  | Wrote _ => []
  end.
Definition sleeps (tr : list Event) : list Z := flat_map slept tr.

(** The messages sent to windows: window and channel. *)
Definition sent (e : Event) : list (nat * string) :=
  match e with
  | Called c _ =>
      match c with webContents_send w channel => [(w, channel)] | _ => [] end
  | Wrote _ => []
  end.
Definition notified (tr : list Event) : list (nat * string) := flat_map sent tr.

(** The spawns of the service: executable, arguments and options. *)
Definition spawned_service (e : Event)
  : list (string * list string * SpawnOptions) :=
  match e with
  | Called c _ =>
      match c with
      | spawn command args (Some options) => [(command, args, options)]
      | _ => []
      end
  | Wrote _ => []
  end.
Definition spawned (tr : list Event) : list (string * list string * SpawnOptions) :=
  flat_map spawned_service tr.

(** The warn-level log lines. *)
Definition warn_logged (e : Event) : list string :=
  match e with
  | Called c _ => match c with electron_log LWarn text => [text] | _ => [] end
  | Wrote _ => []
  end.
Definition warn_log (tr : list Event) : list string := flat_map warn_logged tr.

(** The pids whose existence was tested with signal 0. *)
Definition tested (e : Event) : list Z :=
  match e with
  | Called c _ => match c with process_kill0 n => [n] | _ => [] end
  | Wrote _ => []
  end.
Definition tests (tr : list Event) : list Z := flat_map tested tr.

(** The files whose existence was asked. *)
Definition looked_up (e : Event) : list string :=
  match e with
  | Called c _ => match c with fs_existsSync path => [path] | _ => [] end
  | Wrote _ => []
  end.
Definition lookups (tr : list Event) : list string := flat_map looked_up tr.

(** [env[key]] *)
Fixpoint env_get (env : list (string * string)) (key : string) : option string :=
  match env with
  | [] => None
  | (k, v) :: rest => if String.eqb k key then Some v else env_get rest key
  end.

(** The path [getServerPath] looks at. *)
Definition server_path (host : Host) : string :=
  if isPackaged host
  then path_join host [resourcesPath host; "server"; exeName host]
  else path_join host [appPath host; "resources"; "server"; exeName host].

(** How the by-port cleanup begins the command that kills. *)
Definition kill_prefix (host : Host) : string :=
  match platform host with
  | Win32 => "taskkill /F /PID "
  | _ => "kill -9 "
  end.

(** The pid the by-port cleanup reads off what its lookup printed, on
    Windows and on macOS. *)
Definition pid_of_lookup (host : Host) (stdout : string) : option string :=
  match platform host with
  | Win32 => Js.execSpacesDigitsEnd (Js.trim stdout)
  | Darwin => Js.execWordSpacesDigits (Js.trim stdout)
  | OtherPlatform => None
  end.

(** The second lookup of the by-port cleanup where there is one. *)
Definition fuser_command (p : Z) : string := "fuser -n tcp " ++ Js.toString p.

(** A host on which port [p] is free, the executable is there and the
    service can be created. *)
Definition welcoming (p : Z) : forall X, Os X -> X -> Prop :=
  fun X c =>
    match c in Os X return X -> Prop with
    | net_listen q => fun ev => q = p -> ev = OnListening
    | fs_existsSync _ => fun found => found = true
    | spawn _ _ _ => fun r => resolved r = true
    | _ => fun _ => True
    end.

(** A host on which kills are delivered and process [n] is gone when its
    existence is tested. *)
Definition departed (n : Z) : forall X, Os X -> X -> Prop :=
  fun X c =>
    match c in Os X return X -> Prop with
    | process_kill0 q => fun r => q = n -> resolved r = false
    | child_kill _ _ => fun r => resolved r = true
    | spawn _ _ None => fun r => resolved r = true
    | _ => fun _ => True
    end.

(** The exit is one the manager has asked for, or a clean one. *)
Definition expected_exit (code : option Z) (signal : option string) : bool :=
  match code with Some 0 => true | _ => false end
  || is_signal signal "SIGTERM" || is_signal signal "SIGKILL".

(** * The main process (index.ts) and the file dialogs (file-system.ts)

    The handlers of index.ts that drive the manager, and the functions of
    file-system.ts they call.  A handler is a program over the module
    variables of index.ts; its nodes are reads and writes of those
    variables, calls to Electron, and calls of methods of the one
    [serverManager]. *)

(** ** JavaScript strings, continued *)

(** [s.startsWith(p)] *)
Definition startsWith (s p : string) : bool := String.prefix p s.

(** The replacement text of [String.prototype.replace] with a string
    pattern, which has no captures: [$$] is a dollar, [$&] the match,
    [$`] what precedes it, [$'] what follows it, and every other
    character, a dollar included, stands for itself. *)
Fixpoint getSubstitution (matched before following replacement : string) : string :=
  match replacement with
  | EmptyString => EmptyString
  | String c rest =>
      let literally := String c (getSubstitution matched before following rest) in
      if Ascii.eqb c "$"
      then
        match rest with
        | EmptyString => literally
        | String d rest' =>
            let after_two := getSubstitution matched before following rest' in
            if Ascii.eqb d "$" then String "$" after_two
            else if Ascii.eqb d "&" then matched ++ after_two
            else if Ascii.eqb d "`" then before ++ after_two
            else if Ascii.eqb d "'" then following ++ after_two
            else literally
        end
      else literally
  end.

(** [s.replace(pattern, replacement)] with strings: the first occurrence. *)
Definition String_replace (s pattern replacement : string) : string :=
  match String.index 0 pattern s with
  | None => s
  | Some i =>
      let before := String.substring 0 i s in
      let start := (i + String.length pattern)%nat in
      let following := String.substring start (String.length s - start) s in
      before ++ getSubstitution pattern before following replacement ++ following
  end.

(** ** Data *)

(** The module variables of index.ts that the handlers look at; windows
    are known by their ids. *)
Record MainState := {
  mainWindow : option nat;
  loadingWindow : option nat;
  isQuitting : bool;            (* appState.isQuitting *)
  isQuittingProcessed : bool    (* appState.isQuittingProcessed *)
}.

(** The module as loaded. *)
Definition main_loaded : MainState :=
  {| mainWindow := None; loadingWindow := None;
     isQuitting := false; isQuittingProcessed := false |}.

Inductive MainAssign :=
| Set_isQuitting (v : bool)
| Set_isQuittingProcessed (v : bool).

Definition main_assign (u : MainAssign) (m : MainState) : MainState :=
  match u with
  | Set_isQuitting v =>
      {| mainWindow := mainWindow m; loadingWindow := loadingWindow m;
         isQuitting := v; isQuittingProcessed := isQuittingProcessed m |}
  | Set_isQuittingProcessed v =>
      {| mainWindow := mainWindow m; loadingWindow := loadingWindow m;
         isQuitting := isQuitting m; isQuittingProcessed := v |}
  end.

(** The main process: the manager and the module variables. *)
Record App := { serverManager : ServerManager; vars : MainState }.

Definition with_manager (a : App) (s : ServerManager) : App :=
  {| serverManager := s; vars := vars a |}.

Definition with_vars (a : App) (m : MainState) : App :=
  {| serverManager := serverManager a; vars := m |}.

(** [Electron.FileFilter] *)
Record FileFilter := { name : string; extensions : list string }.

(** An optional property [key?: A] of an object: the key is absent, or
    present with a value that may be undefined. *)
Inductive Field (A : Type) :=
| Absent
| Present (v : option A).
Arguments Absent {A}.
Arguments Present {A} v.

(** The options object of the dialog functions. *)
Record Options := {
  title : Field string;
  defaultPath : Field string;
  filters : Field (list FileFilter);
  properties : Field (list string)
}.

(** [{}] *)
Definition no_options : Options :=
  {| title := Absent; defaultPath := Absent; filters := Absent; properties := Absent |}.

(** [object.key] *)
Definition read {A} (f : Field A) : option A :=
  match f with
  | Absent => None
  | Present v => v
  end.

(** One key of [{...defaults, ...options}]: a key of [options] wins, also
    when its value is undefined. *)
Definition spread_key {A} (default given : Field A) : Field A :=
  match given with
  | Absent => default
  | Present _ => given
  end.

Definition spread_options (defaults options : Options) : Options :=
  {| title := spread_key (title defaults) (title options);
     defaultPath := spread_key (defaultPath defaults) (defaultPath options);
     filters := spread_key (filters defaults) (filters options);
     properties := spread_key (properties defaults) (properties options) |}.

(** [{...o, properties: l}] *)
Definition with_properties (o : Options) (l : list string) : Options :=
  {| title := title o; defaultPath := defaultPath o; filters := filters o;
     properties := Present (Some l) |}.

(** [a || b] where [a] is an array or undefined. *)
Definition or_default {A} (a : option A) (b : A) : A :=
  match a with
  | Some v => v
  | None => b
  end.

(** The truth value of a string that may be undefined. *)
Definition truthy_string (v : option string) : bool :=
  match v with
  | Some s => Js.truthy s
  | None => false
  end.

(** [l.includes(x)] on an array of strings. *)
Definition array_includes (l : list string) (x : string) : bool :=
  existsb (String.eqb x) l.

(** What [selectFile] and [selectFiles] return for one path. *)
Record Selected := { filePath : string; fileName : string }.

(** What the show-item-in-folder handler returns: [{ success, error }]. *)
Record ShowReply := { show_success : bool; show_error : option string }.

(** What the restart-backend-server handler returns. *)
Inductive RestartReply :=
| Restarted (port : Z) (isRunning : bool)   (* { success: true, port, isRunning } *)
| NotRestarted (error : string).            (* { success: false, error } *)

(** ** The host of the main process *)

(** What index.ts and file-system.ts ask of Electron.  The methods of
    windows and the dialogs may throw or reject; the log, the timers and
    the calls on [app] and on the quit event do not. *)
Inductive MainOs : Type -> Type :=
    (* log.info(text), log.warn(text), log.error(text, error) *)
| log_write (level : LogLevel) (text : string) (detail : option Thrown) : MainOs unit
    (* the redirected console.log(text) and console.error(text, error) *)
| console_write (level : LogLevel) (text : string) (detail : option Thrown)
    : MainOs unit
    (* the truth value of window.webContents *)
| window_webContents (window : nat) : MainOs (Res bool)
    (* window.webContents.send('loading-progress', { current, total }) *)
| send_loading_progress (window : nat) (current total : Z) : MainOs (Res unit)
    (* window.webContents.on('did-finish-load', ...) *)
| on_did_finish_load (window : nat) : MainOs (Res unit)
    (* window.hide() *)
| window_hide (window : nat) : MainOs (Res unit)
    (* await new Promise((resolve) => setTimeout(resolve, ms)) *)
| sleep (ms : Z) : MainOs unit
    (* setTimeout(() => app.quit(), ms) *)
| quit_after (ms : Z) : MainOs unit
    (* event.preventDefault() *)
| event_preventDefault : MainOs unit
| app_relaunch : MainOs unit
| app_exit (code : Z) : MainOs unit
    (* app.getPath('home') *)
| app_getPath_home : MainOs (Res string)
| shell_showItemInFolder (fullPath : string) : MainOs (Res unit)
    (* dialog.showOpenDialog(window, options): canceled and filePaths *)
| dialog_showOpenDialog (window : nat) (options : Options)
    : MainOs (Res (bool * list string))
    (* dialog.showSaveDialog(window, options): canceled and filePath *)
| dialog_showSaveDialog (window : nat) (options : Options)
    : MainOs (Res (bool * option string)).

(** ** Programs of the main process *)

Inductive Main (A : Type) : Type :=
| MRet (a : A)
| MThrow (e : Thrown)
| MGet (k : MainState -> Main A)
| MUpd (u : MainAssign) (k : Main A)
| MCall {X : Type} (c : MainOs X) (k : X -> Main A)
    (* a method of serverManager, run to its end *)
| Manager {X : Type} (p : Prog X) (k : Res X -> Main A).
Arguments MRet {A} a.
Arguments MThrow {A} e.
Arguments MGet {A} k.
Arguments MUpd {A} u k.
Arguments MCall {A X} c k.
Arguments Manager {A X} p k.

Fixpoint mbind {A B} (p : Main A) (f : A -> Main B) : Main B :=
  match p with
  | MRet a => f a
  | MThrow e => MThrow e
  | MGet k => MGet (fun m => mbind (k m) f)
  | MUpd u k => MUpd u (mbind k f)
  | MCall c k => MCall c (fun x => mbind (k x) f)
  | Manager p k => Manager p (fun r => mbind (k r) f)
  end.

(** [try { body } catch (error) { handler }] *)
Fixpoint mtry {A} (body : Main A) (handler : Thrown -> Main A) : Main A :=
  match body with
  | MRet a => MRet a
  | MThrow e => handler e
  | MGet k => MGet (fun m => mtry (k m) handler)
  | MUpd u k => MUpd u (mtry k handler)
  | MCall c k => MCall c (fun x => mtry (k x) handler)
  | Manager p k => Manager p (fun r => mtry (k r) handler)
  end.

Declare Scope main_scope.
Delimit Scope main_scope with main.
Notation "x <-- p ;;; q" := (mbind p (fun x => q))
  (at level 100, p at next level, right associativity) : main_scope.
Notation "p ;;; q" := (mbind p (fun _ => q))
  (at level 100, right associativity) : main_scope.
Open Scope main_scope.

(** A module variable. *)
Definition var {A} (field : MainState -> A) : Main A :=
  MGet (fun m => MRet (field m)).

Definition mset (u : MainAssign) : Main unit := MUpd u (MRet tt).

Definition mcall {X} (c : MainOs X) : Main X := MCall c MRet.

(** A call that throws, or an awaited promise that rejects. *)
Definition mmay_throw {X} (c : MainOs (Res X)) : Main X :=
  MCall c (fun r => match r with Ok x => MRet x | Err e => MThrow e end).

(** [serverManager.method(...)], awaited where it is asynchronous. *)
Definition method {X} (p : Prog X) : Main X :=
  Manager p (fun r => match r with Ok x => MRet x | Err e => MThrow e end).

Definition skip : Main unit := MRet tt.

Section MainProcess.

Variable host : Host.

(** [path.basename] *)
Variable basename : string -> string.

(** *** file-system.ts *)

Definition all_files : list FileFilter :=
  [{| name := "所有文件"; extensions := ["*"] |}].

Definition selectFile (window : nat) (options : Options) : Main (option Selected) :=
  let defaultOptions :=
    {| title := Present (Some "选择文件"); defaultPath := Absent;
       filters := Present (Some all_files);
       properties := Present (Some ["openFile"]) |} in
  let dialogOptions :=
    with_properties (spread_options defaultOptions options)
      (or_default (read (properties options)) ["openFile"]) in
  mtry
    (answer <-- mmay_throw (dialog_showOpenDialog window dialogOptions);;;
     let (canceled, filePaths) := answer : bool * list string in
     if canceled || (length filePaths =? 0)%nat then MRet None
     else
       match hd_error filePaths with
       | Some filePath =>
           MRet (Some {| filePath := filePath; fileName := basename filePath |})
       | None => MThrow "TypeError"   (* path.basename(undefined) *)
       end)
    (fun error =>
       mcall (console_write LError "选择文件时出错:" (Some error));;;
       MRet None).

Definition selectFiles (window : nat) (options : Options)
  : Main (option (list Selected)) :=
  let defaultOptions :=
    {| title := Present (Some "选择文件"); defaultPath := Absent;
       filters := Present (Some all_files);
       properties := Present (Some ["openFile"; "multiSelections"]) |} in
  let given := or_default (read (properties options)) ["openFile"; "multiSelections"] in
  let dialogOptions :=
    with_properties (spread_options defaultOptions options)
      (if negb (array_includes given "multiSelections")
       then (given ++ ["multiSelections"])%list
       else given) in
  mtry
    (answer <-- mmay_throw (dialog_showOpenDialog window dialogOptions);;;
     let (canceled, filePaths) := answer : bool * list string in
     if canceled || (length filePaths =? 0)%nat then MRet None
     else MRet (Some (map (fun filePath =>
                             {| filePath := filePath; fileName := basename filePath |})
                          filePaths)))
    (fun error =>
       mcall (console_write LError "选择多个文件时出错:" (Some error));;;
       MRet None).

Definition selectFolder (window : nat) (options : Options) : Main (option string) :=
  let defaultOptions :=
    {| title := Present (Some "选择文件夹"); defaultPath := Absent;
       filters := Absent;
       properties := Present (Some ["openDirectory"]) |} in
  let dialogOptions :=
    with_properties (spread_options defaultOptions options)
      (or_default (read (properties options)) ["openDirectory"]) in
  mtry
    (answer <-- mmay_throw (dialog_showOpenDialog window dialogOptions);;;
     let (canceled, filePaths) := answer : bool * list string in
     if canceled || (length filePaths =? 0)%nat then MRet None
     else MRet (hd_error filePaths))
    (fun error =>
       mcall (console_write LError "选择文件夹时出错:" (Some error));;;
       MRet None).

Definition selectFolders (window : nat) (options : Options)
  : Main (option (list string)) :=
  let defaultOptions :=
    {| title := Present (Some "选择文件夹"); defaultPath := Absent;
       filters := Absent;
       properties := Present (Some ["openDirectory"; "multiSelections"]) |} in
  let given :=
    or_default (read (properties options)) ["openDirectory"; "multiSelections"] in
  let dialogOptions :=
    with_properties (spread_options defaultOptions options)
      (if negb (array_includes given "multiSelections")
       then (given ++ ["multiSelections"])%list
       else given) in
  mtry
    (answer <-- mmay_throw (dialog_showOpenDialog window dialogOptions);;;
     let (canceled, filePaths) := answer : bool * list string in
     if canceled || (length filePaths =? 0)%nat then MRet None
     else MRet (Some filePaths))
    (fun error =>
       mcall (console_write LError "选择多个文件夹时出错:" (Some error));;;
       MRet None).

Definition saveFile (window : nat) (options : Options) : Main (option string) :=
  let defaultOptions :=
    {| title := Present (Some "保存文件"); defaultPath := Absent;
       filters := Present (Some all_files); properties := Absent |} in
  let dialogOptions := spread_options defaultOptions options in
  mtry
    (answer <-- mmay_throw (dialog_showSaveDialog window dialogOptions);;;
     let (canceled, filePath) := answer : bool * option string in
     if canceled || negb (truthy_string filePath) then MRet None
     else MRet filePath)
    (fun error =>
       mcall (console_write LError "保存文件时出错:" (Some error));;;
       MRet None).

Definition showItemInFolder (filePath : string) : Main bool :=
  if negb (Js.truthy filePath)
  then
    mcall (console_write LError "showItemInFolder: 文件路径为空" None);;;
    MRet false
  else
    mtry
      (mcall (console_write LInfo
                ("主进程: 尝试在文件管理器中显示文件: " ++ filePath) None);;;
       processedPath <--
         match platform host with
         | Darwin =>
             if startsWith filePath "~"
             then
               homePath <-- mmay_throw app_getPath_home;;;
               MRet (String_replace filePath "~" homePath)
             else MRet filePath
         | _ => MRet filePath
         end;;;
       mmay_throw (shell_showItemInFolder processedPath);;;
       mcall (console_write LInfo
                ("主进程: 已调用showItemInFolder: " ++ processedPath) None);;;
       MRet true)
      (fun error =>
         mcall (console_write LError "主进程: 在文件管理器中显示文件失败:"
                  (Some error));;;
         MRet false).

(** *** index.ts *)

Definition log_text (level : LogLevel) (text : string) : Main unit :=
  mcall (log_write level text None).

(** One turn of the loop of [checkBackendReady], and the turns after it:
    [i] is the loop variable and [remaining] is [maxAttempts - i]. *)
Fixpoint checkLoop (remaining : nat) (i maxAttempts interval : Z) : Main bool :=
  match remaining with
  | O =>
      log_text LWarn "后端服务未在预期时间内准备就绪";;;
      MRet false
  | S remaining' =>
      returned <--
        mtry
          ((if Z.rem i 10 =? 0
            then log_text LInfo ("第" ++ Js.toString i ++ "次检查后端服务状态...")
            else skip);;;
           ready <-- method (isReady (Some 2000));;;
           if ready : bool
           then log_text LInfo "后端服务已准备就绪";;; MRet (Some true)
           else MRet None)
          (fun error =>
             mcall (log_write LError "检查服务就绪状态出错:" (Some error));;;
             MRet None);;;
      match returned with
      | Some answer => MRet answer
      | None =>
          lw <-- var loadingWindow;;;
          shown <--
            match lw with
            | None => MRet None
            | Some window =>
                there <-- mmay_throw (window_webContents window);;;
                MRet (if there : bool then Some window else None)
            end;;;
          match shown with
          | Some window =>
              mtry
                (mmay_throw (send_loading_progress window i maxAttempts);;;
                 if Z.rem i 10 =? 0
                 then log_text LInfo ("已发送进度更新: " ++ Js.toString i ++ "/"
                                      ++ Js.toString maxAttempts)
                 else skip)
                (fun error =>
                   mcall (log_write LError "发送进度更新失败:" (Some error)))
          | None =>
              log_text LInfo "无法发送进度更新，loadingWindow不存在或已关闭"
          end;;;
          mcall (sleep interval);;;
          checkLoop remaining' (i + 1) maxAttempts interval
      end
  end.

(** [maxAttempts] is a natural number, as at the one call, which passes
    nothing and so takes the defaults 120 and 1000. *)
Definition checkBackendReady (maxAttempts : nat) (interval : Z) : Main bool :=
  log_text LInfo "开始检查后端服务是否准备就绪...";;;
  running <-- method (isRunning host);;;
  if negb running
  then log_text LInfo "后端服务未运行";;; MRet false
  else checkLoop maxAttempts 0 (Z.of_nat maxAttempts) interval.


(** The handler of show-item-in-folder. *)
Definition handleShowItemInFolder (filePath : string) : Main ShowReply :=
  mcall (console_write LInfo ("主进程收到显示文件请求: " ++ filePath) None);;;
  if negb (Js.truthy filePath)
  then
    mcall (console_write LError "显示文件请求失败: 路径为空" None);;;
    MRet {| show_success := false; show_error := Some "文件路径为空" |}
  else
    mtry
      (ok <-- showItemInFolder filePath;;;
       MRet {| show_success := ok;
               show_error := if ok : bool then None else Some "操作失败" |})
      (fun error =>
         mcall (console_write LError "显示文件请求处理错误:" (Some error));;;
         MRet {| show_success := false; show_error := Some error |}).

(** The handlers of select-file, select-files, select-folder,
    select-folders and save-file: [options = {}] when nothing is passed. *)
Definition handleDialog {A} (dialog : nat -> Options -> Main (option A))
    (options : option Options) : Main (option A) :=
  mw <-- var mainWindow;;;
  match mw with
  | None => MRet None
  | Some window => dialog window (or_default options no_options)
  end.

(** The handler of restart-backend-server. *)
Definition restartBackendServer : Main RestartReply :=
  mtry
    (method (stop host);;;
     mcall (sleep 1000);;;
     method (start host None);;;
     p <-- method getPort;;;
     running <-- method (isRunning host);;;
     MRet (Restarted p running))
    (fun error => MRet (NotRestarted error)).

(** The handler of restart-app. *)
Definition restartApp : Main unit :=
  mtry
    (log_text LInfo "收到重启应用请求，正在关闭后端服务...";;;
     mset (Set_isQuitting true);;;
     running <-- method (isRunning host);;;
     (if running : bool
      then method (stop host);;; mcall (sleep 1000)
      else skip);;;
     log_text LInfo "后端服务已关闭，准备重启应用...";;;
     mcall app_relaunch;;;
     mcall (app_exit 0))
    (fun error =>
       mcall (log_write LError "重启应用时出错:" (Some error));;;
       mcall app_relaunch;;;
       mcall (app_exit 0)).

(** The click on the tray menu entry that quits. *)
Definition trayQuit : Main unit :=
  processed <-- var isQuittingProcessed;;;
  if processed : bool then skip
  else
    mset (Set_isQuitting true);;;
    mset (Set_isQuittingProcessed true);;;
    log_text LInfo "托盘菜单触发退出: 正在关闭应用...";;;
    running <-- method (isRunning host);;;
    (if running : bool
     then
       mtry
         (log_text LInfo "托盘菜单退出: 正在关闭后端服务...";;;
          method (stop host);;;
          skip)
         (fun err =>
            mcall (log_write LError "托盘菜单退出: 关闭服务出错:" (Some err));;;
            method (cleanupOldProcesses host);;;
            skip)
     else skip);;;
    mcall (quit_after 300).

(** The listener of before-quit. *)
Definition beforeQuit : Main unit :=
  processed <-- var isQuittingProcessed;;;
  if processed : bool then skip
  else
    log_text LInfo "应用退出，正在关闭后端服务...";;;
    mset (Set_isQuitting true);;;
    mset (Set_isQuittingProcessed true);;;
    running <-- method (isRunning host);;;
    if running : bool
    then
      mtry
        (mcall event_preventDefault;;;
         stopped <-- method (stop host);;;
         (if negb stopped
          then log_text LWarn "无法正常关闭后端服务，可能需要手动清理进程"
          else skip);;;
         mcall (quit_after 500))
        (fun err =>
           mcall (log_write LError "关闭后端服务时出错:" (Some err));;;
           mcall (quit_after 500))
    else skip.

(** The listener of close on the main window; the answer is what the
    listener returns. *)
Definition onMainWindowClose : Main bool :=
  quitting <-- var isQuitting;;;
  if negb quitting
  then
    mcall event_preventDefault;;;
    mw <-- var mainWindow;;;
    match mw with
    | Some window => mmay_throw (window_hide window)
    | None => skip
    end;;;
    MRet false
  else MRet true.

End MainProcess.

(** ** Running a program of the main process *)

Inductive MainEvent :=
| Did {X : Type} (c : MainOs X) (answer : X)
| Assigned (u : MainAssign)
| Of_manager (e : Event).

Section MainWorlds.

(** One world for the manager and the main process. *)
Variable W : Type.
Variable os : forall X, Os X -> W -> X * W.
Variable mos : forall X, MainOs X -> W -> X * W.

Record MainOutcome (A : Type) := {
  m_result : Res A;
  m_final : App;
  m_world : W;
  m_trace : list MainEvent
}.

Definition m_after {A} (tr : list MainEvent) (o : MainOutcome A) : MainOutcome A :=
  {| m_result := m_result o; m_final := m_final o; m_world := m_world o;
     m_trace := (tr ++ m_trace o)%list |}.

(** A handler run to its end with nothing else in between. *)
Fixpoint run_main {A} (p : Main A) (a : App) (w : W) : MainOutcome A :=
  match p with
  | MRet x => {| m_result := Ok x; m_final := a; m_world := w; m_trace := [] |}
  | MThrow e => {| m_result := Err e; m_final := a; m_world := w; m_trace := [] |}
  | MGet k => run_main (k (vars a)) a w
  | MUpd u k =>
      m_after [Assigned u] (run_main k (with_vars a (main_assign u (vars a))) w)
  | MCall c k =>
      let (x, w') := mos c w in
      m_after [Did c x] (run_main (k x) a w')
  | Manager p k =>
      let o := run os p (serverManager a) w in
      m_after (map Of_manager (trace o))
        (run_main (k (result o)) (with_manager a (final o)) (world o))
  end.

End MainWorlds.

Arguments m_result {W A} _.
Arguments m_final {W A} _.
Arguments m_world {W A} _.
Arguments m_trace {W A} _.

(** ** What a trace of the main process shows *)

(** The part of the manager. *)
Definition of_manager (e : MainEvent) : list Event :=
  match e with
  | Of_manager e => [e]
  | _ => []
  end.
Definition on_manager (tr : list MainEvent) : list Event := flat_map of_manager tr.

(** The waits of the main process, in milliseconds. *)
Definition waited (e : MainEvent) : list Z :=
  match e with
  | Did c _ => match c with sleep ms => [ms] | _ => [] end
  | _ => []
  end.
Definition waits (tr : list MainEvent) : list Z := flat_map waited tr.

(** The quits scheduled, with their delays. *)
Definition quit_scheduled (e : MainEvent) : list Z :=
  match e with
  | Did c _ => match c with quit_after ms => [ms] | _ => [] end
  | _ => []
  end.
Definition quits (tr : list MainEvent) : list Z := flat_map quit_scheduled tr.

(** The vetoes: the calls of [event.preventDefault()]. *)
Definition vetoed (e : MainEvent) : list unit :=
  match e with
  | Did c _ => match c with event_preventDefault => [tt] | _ => [] end
  | _ => []
  end.
Definition vetoes (tr : list MainEvent) : list unit := flat_map vetoed tr.

(** The progress messages: window, current and total. *)
Definition progressed (e : MainEvent) : list (nat * Z * Z) :=
  match e with
  | Did c _ =>
      match c with
      | send_loading_progress window current total => [(window, current, total)]
      | _ => []
      end
  | _ => []
  end.
Definition progress (tr : list MainEvent) : list (nat * Z * Z) := flat_map progressed tr.

(** The windows on which a did-finish-load listener was installed. *)
Definition registered_on (e : MainEvent) : list nat :=
  match e with
  | Did c _ => match c with on_did_finish_load window => [window] | _ => [] end
  | _ => []
  end.
Definition registered (tr : list MainEvent) : list nat := flat_map registered_on tr.

(** The calls that end the application. *)
Inductive Ending := Relaunch | ExitWith (code : Z).

Definition ended (e : MainEvent) : list Ending :=
  match e with
  | Did c _ =>
      match c with
      | app_relaunch => [Relaunch]
      | app_exit code => [ExitWith code]
      | _ => []
      end
  | _ => []
  end.
Definition endings (tr : list MainEvent) : list Ending := flat_map ended tr.

(** The lines the main process writes at warn or error level, to the log
    or to the console. *)
Definition complained (e : MainEvent) : list string :=
  match e with
  | Did c _ =>
      match c with
      | log_write LWarn text _ | log_write LError text _
      | console_write LWarn text _ | console_write LError text _ => [text]
      | _ => []
      end
  | _ => []
  end.
Definition complaints (tr : list MainEvent) : list string := flat_map complained tr.

(** The open dialogs shown: window and options. *)
Definition opened (e : MainEvent) : list (nat * Options) :=
  match e with
  | Did c _ =>
      match c with
      | dialog_showOpenDialog window options => [(window, options)]
      | _ => []
      end
  | _ => []
  end.
Definition open_dialogs (tr : list MainEvent) : list (nat * Options) :=
  flat_map opened tr.

(** The paths handed to the file manager. *)
Definition revealed_path (e : MainEvent) : list string :=
  match e with
  | Did c _ => match c with shell_showItemInFolder path => [path] | _ => [] end
  | _ => []
  end.
Definition revealed (tr : list MainEvent) : list string := flat_map revealed_path tr.

(** The timeouts of the health requests. *)
Definition polled_for (e : Event) : list Z :=
  match e with
  | Called c _ => match c with http_get _ timeout => [timeout] | _ => [] end
  | Wrote _ => []
  end.
Definition poll_timeouts (tr : list Event) : list Z := flat_map polled_for tr.

(** ** Concrete worlds of the main process *)

Record MainAnswers := {
  on_webContents : nat -> Res bool;
  on_progress : nat -> Res unit;
  on_listen_load : nat -> Res unit;
  on_hide : nat -> Res unit;
  on_home : Res string;
  on_reveal : string -> Res unit;
  on_open : Options -> Res (bool * list string);
  on_save : Options -> Res (bool * option string)
}.

Definition main_scripted (a : MainAnswers) : forall X, MainOs X -> unit -> X * unit :=
  fun X c w =>
    (match c in MainOs X return X with
     | log_write _ _ _ => tt
     | console_write _ _ _ => tt
     | window_webContents window => on_webContents a window
     | send_loading_progress window _ _ => on_progress a window
     | on_did_finish_load window => on_listen_load a window
     | window_hide window => on_hide a window
     | sleep _ => tt
     | quit_after _ => tt
     | event_preventDefault => tt
     | app_relaunch => tt
     | app_exit _ => tt
     | app_getPath_home => on_home a
     | shell_showItemInFolder path => on_reveal a path
     | dialog_showOpenDialog _ options => on_open a options
     | dialog_showSaveDialog _ options => on_save a options
     end, w).

(** Windows that are there and take every message; the user picks two
    files in every open dialog and a name in every save dialog. *)
Definition obliging : MainAnswers :=
  {| on_webContents := fun _ => Ok true;
     on_progress := fun _ => Ok tt;
     on_listen_load := fun _ => Ok tt;
     on_hide := fun _ => Ok tt;
     on_home := Ok "/Users/me";
     on_reveal := fun _ => Ok tt;
     on_open := fun _ => Ok (false, ["/data/a.txt"; "/data/b.txt"]);
     on_save := fun _ => Ok (false, Some "/data/out.txt") |}.

(** The main process with a manager in state [s] and the module as
    loaded. *)
Definition app_of (s : ServerManager) : App :=
  {| serverManager := s; vars := main_loaded |}.

(** The manager is left in peace: the event sends no signal, runs no
    command, creates no process and probes no port. *)
Definition is_passive (e : Event) : bool :=
  match e with
  | Called c _ =>
      match c with
      | process_kill0 _ | http_get _ _ | electron_log _ _ => true
      | _ => false
      end
  | Wrote _ => true
  end.

(** What the main process does while it waits for the service: it logs,
    looks at the loading window, sends it a progress message, sleeps, and
    calls the manager. *)
Definition is_wait (e : MainEvent) : bool :=
  match e with
  | Did c _ =>
      match c with
      | log_write _ _ _ | window_webContents _ | send_loading_progress _ _ _
      | sleep _ => true
      | _ => false
      end
  | Assigned _ => false
  | Of_manager _ => true
  end.

(** The two ways into the quit: the tray menu entry and the before-quit
    event. *)
Inductive QuitPath := FromTray | FromEvent.

Definition quit_handler (host : Host) (path : QuitPath) : Main unit :=
  match path with
  | FromTray => trayQuit host
  | FromEvent => beforeQuit host
  end.

(** * Theorems *)

(** ** Rules of the program logic *)

Section Rules.

Variable R : forall X, Os X -> X -> Prop.

Lemma wp_mono {A} (p : Prog A) : forall (Q Q' : Post A) s,
  (forall r s' tr, Q r s' tr -> Q' r s' tr) -> wp R p Q s -> wp R p Q' s.
Proof.
  induction p as [a | e | k IH | a k IH | X c k IH]; simpl; intros Q Q' s HQ Hp.
  - auto.
  - auto.
  - eapply IH; eauto.
  - eapply IH; [| exact Hp]. simpl. auto.
  - intros x Hx. eapply IH; [| exact (Hp x Hx)]. simpl. auto.
Qed.

Lemma wp_bind {A B} (p : Prog A) (f : A -> Prog B) : forall (Q : Post B) s,
  wp R p (then_post R f Q) s -> wp R (bind p f) Q s.
Proof.
  induction p as [a | e | k IH | a k IH | X c k IH]; simpl; intros Q s Hp.
  - exact Hp.
  - exact Hp.
  - apply IH, Hp.
  - apply IH. eapply wp_mono; [| exact Hp].
    intros [b | e] s' tr; simpl; auto.
  - intros x Hx. apply IH. eapply wp_mono; [| exact (Hp x Hx)].
    intros [b | e] s' tr; simpl; auto.
Qed.

Lemma wp_try_catch {A} (body : Prog A) handler : forall (Q : Post A) s,
  wp R body (catch_post R handler Q) s -> wp R (try_catch body handler) Q s.
Proof.
  induction body as [a | e | k IH | a k IH | X c k IH]; simpl; intros Q s Hp.
  - exact Hp.
  - exact Hp.
  - apply IH, Hp.
  - apply IH. eapply wp_mono; [| exact Hp].
    intros [b | e] s' tr; simpl; auto.
  - intros x Hx. apply IH. eapply wp_mono; [| exact (Hp x Hx)].
    intros [b | e] s' tr; simpl; auto.
Qed.

(** The logic speaks about runs: in a world that answers within [R], the
    run of [p] satisfies what [wp] promises. *)
Lemma wp_run W (os : forall X, Os X -> W -> X * W) (within : answers_within R os)
    {A} (p : Prog A) : forall (Q : Post A) s w,
  wp R p Q s ->
  Q (result (run os p s w)) (final (run os p s w)) (trace (run os p s w)).
Proof.
  induction p as [a | e | k IH | a k IH | X c k IH]; simpl; intros Q s w Hp.
  - exact Hp.
  - exact Hp.
  - apply IH, Hp.
  - apply (IH _ _ w Hp).
  - pose proof (within X c w) as Hc. destruct (os X c w) as [x w']. simpl in *.
    apply (IH x _ _ w' (Hp x Hc)).
Qed.

End Rules.

Lemma any_world W (os : forall X, Os X -> W -> X * W) :
  answers_within any_answer os.
Proof. intros X c w. exact I. Qed.

(** ** Traces of the cleanup commands *)

Section Quiet.

Variable tr : list Event.
Hypothesis quiet : forallb is_shell_or_log tr = true.

Lemma quiet_flat_map {A} (f : Event -> list A) :
  (forall e, is_shell_or_log e = true -> f e = []) -> flat_map f tr = [].
Proof.
  intros Hf. induction tr as [| e rest IH]; [reflexivity |].
  cbn [forallb] in quiet. apply andb_prop in quiet as [He Hrest].
  cbn [flat_map]. rewrite (Hf e He), (IH Hrest). reflexivity.
Qed.

Lemma quiet_probes : probes tr = [].
Proof. apply quiet_flat_map. intros [X c x | a]; [destruct c |]; cbn; congruence. Qed.

Lemma quiet_launches : launches tr = [].
Proof. apply quiet_flat_map. intros [X c x | a]; [destruct c |]; cbn; congruence. Qed.

Lemma quiet_processes : processes tr = [].
Proof. apply quiet_flat_map. intros [X c x | a]; [destruct c |]; cbn; congruence. Qed.

Lemma quiet_writes : writes tr = [].
Proof. apply quiet_flat_map. intros [X c x | a]; [destruct c |]; cbn; congruence. Qed.

Lemma quiet_polls : polls tr = [].
Proof. apply quiet_flat_map. intros [X c x | a]; [destruct c |]; cbn; congruence. Qed.

Lemma quiet_installs : installs tr = [].
Proof. apply quiet_flat_map. intros [X c x | a]; [destruct c |]; cbn; congruence. Qed.

Lemma quiet_kills : kills tr = [].
Proof. apply quiet_flat_map. intros [X c x | a]; [destruct c |]; cbn; congruence. Qed.

Lemma quiet_error_log : error_log tr = [].
Proof.
  apply quiet_flat_map.
  intros [X c x | a]; [destruct c; try destruct level |]; cbn; congruence.
Qed.

End Quiet.

(** ** Proof automation *)

(** Case analysis on whatever blocks the program. *)
Ltac wp_case :=
  match goal with
  | |- context [match ?x with _ => _ end] => destruct x eqn:?
  end.

Ltac wp_open :=
  cbn [wp bind try_catch call may_throw this set log_info log_warn log_error
       then_post catch_post assign serverProcess port serverReady].

Ltac units := repeat match goal with x : unit |- _ => destruct x end.

(** From a statement about a run to a statement of the logic. *)
Ltac by_wp Hw :=
  cbv zeta;
  match goal with
  | |- context [run ?os ?p ?s ?w] =>
      pattern (result (run os p s w)), (final (run os p s w)), (trace (run os p s w));
      apply (wp_run Hw)
  end.

Ltac quiet_facts :=
  repeat match goal with
  | H : forallb is_shell_or_log ?tr = true |- _ =>
      pose proof (@quiet_probes _ H); pose proof (@quiet_launches _ H);
      pose proof (@quiet_processes _ H); pose proof (@quiet_writes _ H);
      pose proof (@quiet_polls _ H); pose proof (@quiet_installs _ H);
      pose proof (@quiet_error_log _ H); pose proof (@quiet_kills _ H);
      clear H
  end.

(** Compute what a trace shows, through appends and the parts known only
    to be quiet. *)
Ltac trace_norm :=
  quiet_facts;
  unfold probes, launches, processes, writes, polls, commands, error_log, installs,
    kills in *;
  repeat (progress cbn [flat_map app probed launched created written polled
                         executed error_logged installed killed String.eqb Ascii.eqb
                         Bool.eqb]
          || rewrite flat_map_app
          || match goal with H : flat_map _ ?tr = [] |- _ => rewrite H end).

(** The same for runs in a given world. *)
Ltac run_case :=
  match goal with
  | |- context [let (_, _) := ?os ?X ?c ?w in _] =>
      let a := fresh "answer" in
      let w' := fresh "w" in
      destruct (os X c w) as [a w'] eqn:?
  end.

Ltac run_open :=
  cbn [run bind try_catch call may_throw this set log_info log_warn log_error
       after result final trace world fst snd template].

(** ** The cleanup commands *)

(** [executeCleanupCommand] never throws, leaves the fields alone and only
    runs shell commands and logs. *)
Lemma executeCleanupCommand_wp R host type value (Q : Post CleanupResult) s :
  (forall res tr, forallb is_shell_or_log tr = true -> Q (Ok res) s tr) ->
  wp R (executeCleanupCommand host type value) Q s.
Proof.
  intros HQ. unfold executeCleanupCommand, cleanupCommand.
  destruct (platform host), type; repeat (wp_open; intros; try wp_case).
  all: apply HQ; reflexivity.
Qed.

Ltac wp_sub :=
  match goal with
  | |- wp _ (bind (executeCleanupCommand _ _ _) _) _ _ =>
      apply wp_bind, executeCleanupCommand_wp; intros ? ? ?
  | |- wp _ (try_catch _ _) _ _ => apply wp_try_catch
  | |- wp _ (bind _ _) _ _ => apply wp_bind
  end.

Ltac wp_go := repeat (wp_open; intros; try wp_sub; try wp_case).

Lemma by_name_command_truthy host : Js.truthy (by_name_command host) = true.
Proof. unfold by_name_command. destruct (platform host); reflexivity. Qed.

Lemma cleanupCommand_by_name host value :
  cleanupCommand host ByName value = Ret (inr (by_name_command host)).
Proof. unfold cleanupCommand, by_name_command. destruct (platform host); reflexivity. Qed.

(** The by-name cleanup runs its one command and reports whether the
    command resolved. *)
Lemma cleanupOldProcesses_run host W (os : forall X, Os X -> W -> X * W) s w :
  let o := run os (cleanupOldProcesses host) s w in
  exists res,
    result o = Ok res /\
    success res = resolved (fst (os _ (execPromise (by_name_command host)) w)) /\
    commands (trace o) = [by_name_command host] /\
    final o = s.
Proof.
  unfold cleanupOldProcesses, executeCleanupCommand.
  rewrite cleanupCommand_by_name. run_open. rewrite by_name_command_truthy.
  run_open. destruct (os _ _ w) as [[stdout | e] w1]; repeat (run_open; try run_case).
  all: eexists; repeat split; reflexivity.
Qed.

(** ** Stopping the service *)

Lemma truthy_number_nonzero v n : truthy_number v = Some n -> n <> 0.
Proof.
  destruct v as [m |]; cbn; [| discriminate].
  destruct (m =? 0) eqn:Hm; [discriminate |].
  intros [= <-]. apply Z.eqb_neq, Hm.
Qed.

Lemma kill_first_app a b : kill_first a = true -> kill_first (a ++ b) = true.
Proof.
  unfold kill_first. induction a as [| e a IH]; cbn; [discriminate |].
  destruct (is_kill e); cbn; [reflexivity |].
  destruct (is_drop e); cbn; [discriminate |]. exact IH.
Qed.

Lemma kill_first_log level text x tr :
  kill_first (Called (electron_log level text) x :: tr) = kill_first tr.
Proof. reflexivity. Qed.

Lemma cleanupOldProcesses_wp R host (Q : Post CleanupResult) s :
  (forall res tr, forallb is_shell_or_log tr = true ->
                  commands tr = [by_name_command host] -> Q (Ok res) s tr) ->
  wp R (cleanupOldProcesses host) Q s.
Proof.
  intros HQ. unfold cleanupOldProcesses, executeCleanupCommand.
  rewrite cleanupCommand_by_name. wp_open. rewrite by_name_command_truthy.
  repeat (wp_open; intros; try wp_case).
  all: apply HQ; reflexivity.
Qed.

(** One turn of the stop loop sends its kill first and runs no shell
    command; it returns true only when the liveness test failed, and
    otherwise changes nothing. *)
Lemma stopAttempt_wp (R : forall X, Os X -> X -> Prop) host n attempt child
    (Q : Post (option bool)) s :
  serverProcess s = Some child -> n <> 0 ->
  (forall tr, kill_first tr = true -> commands tr = [] ->
              (exists e, R _ (process_kill0 n) (Err e)) ->
              Q (Ok (Some true)) (reset s) tr) ->
  (forall tr, kill_first tr = true -> commands tr = [] ->
              kills tr = [kill_of_attempt host attempt] ->
              Q (Ok None) s tr) ->
  wp R (stopAttempt host n attempt) Q s.
Proof.
  intros Hchild Hn Hgone Hnext.
  unfold stopAttempt, isProcessRunning, resetServerState, kill_of_attempt in *.
  destruct s as [sp p0 ready]. cbn in Hchild. subst sp.
  rewrite (proj2 (Z.eqb_neq n 0) Hn).
  destruct (platform host); repeat (wp_open; intros; try wp_case).
  all: units.
  all: try discriminate.
  all: first [ apply Hnext; reflexivity
             | apply Hgone; [reflexivity | reflexivity | eauto] ].
Qed.

(** The stop loop always ends with the fields reset and answers true:
    either a liveness test found the process gone, or every turn sent its
    kill and the by-name cleanup was run. *)
Lemma stopLoop_wp (R : forall X, Os X -> X -> Prop) host n child remaining :
  forall attempt (Q : Post bool) s,
  serverProcess s = Some child -> n <> 0 ->
  (forall tr,
     (remaining <> O -> kill_first tr = true) ->
     ((exists e, R _ (process_kill0 n) (Err e)) \/
      (commands tr = [by_name_command host] /\
       kills tr = escalation host remaining attempt)) ->
     Q (Ok true) (reset s) tr) ->
  wp R (stopLoop host remaining n attempt) Q s.
Proof.
  induction remaining as [| remaining IH]; intros attempt Q s Hchild Hn HQ.
  - cbn [stopLoop]. unfold finalCleanupAttempt, resetServerState.
    wp_open. intros [] _. apply wp_try_catch, wp_bind, cleanupOldProcesses_wp.
    intros res tr Hquiet Hcmd.
    repeat (wp_open; intros; try wp_case).
    all: units.
    all: apply HQ; [congruence |].
    all: right; split; trace_norm; [| reflexivity].
    all: unfold commands in Hcmd; rewrite Hcmd; reflexivity.
  - cbn [stopLoop]. apply wp_bind, stopAttempt_wp with (child := child); auto.
    + intros tr Hkill Hcmd He. wp_open. rewrite app_nil_r. apply HQ; auto.
    + intros tr Hkill Hcmd Hsent. wp_open. apply IH; auto.
      intros tr' _ Hend. apply HQ.
      * intros _. apply kill_first_app, Hkill.
      * destruct Hend as [He | [Hend Hsent']]; [left; exact He | right].
        unfold commands, kills in *.
        rewrite !flat_map_app, Hcmd, Hend, Hsent, Hsent'. split; reflexivity.
Qed.

Lemma stop_wp (R : forall X, Os X -> X -> Prop) host child n (Q : Post bool) s :
  serverProcess s = Some child ->
  truthy_number (pid child) = Some n ->
  (forall tr,
     kill_first tr = true ->
     ((exists e, R _ (process_kill0 n) (Err e)) \/
      (commands tr = [by_name_command host] /\
       kills tr = escalation host maxKillAttempts 1)) ->
     Q (Ok true) (reset s) tr) ->
  wp R (stop host) Q s.
Proof.
  intros Hchild Hpid HQ. unfold stop, attemptToStopProcess.
  wp_open. rewrite Hchild. wp_open. intros [] _. rewrite Hpid.
  apply stopLoop_wp with (child := child); eauto using truthy_number_nonzero.
  intros tr Hkill Hend. apply HQ.
  - rewrite kill_first_log. apply Hkill. discriminate.
  - destruct Hend as [He | Hend]; [left; exact He | right].
    unfold commands, kills in *. cbn [flat_map executed killed app]. exact Hend.
Qed.

(** ** Starting the service *)

(** [start] always resolves.  With a handle present it only logs; without
    one it either ends without a handle and not ready, having created no
    process, or ends holding the one process it created. *)
Lemma start_wp (R : forall X, Os X -> X -> Prop) host p (Q : Post unit) s :
  (forall child tr,
     serverProcess s = Some child -> processes tr = [] -> writes tr = [] ->
     Q (Ok tt) s tr) ->
  (forall tr p',
     serverProcess s = None -> processes tr = [] ->
     Q (Ok tt) {| serverProcess := None; port := p'; serverReady := false |} tr) ->
  (forall tr p' child,
     serverProcess s = None -> processes tr = [child] ->
     Q (Ok tt)
       {| serverProcess := Some child; port := p'; serverReady := serverReady s |}
       tr) ->
  wp R (start host p) Q s.
Proof.
  intros Hguard Hfail Hdone.
  unfold start, prepareForStart, spawnServerProcess, getServerPath,
    setupProcessListeners, isPortInUse, killProcessOnPort, cleanupOldProcesses.
  destruct s as [sp p0 ready]. destruct sp as [child |].
  - wp_open. intros [] _. eapply Hguard; reflexivity.
  - specialize (Hfail) with (1 := eq_refl). specialize (Hdone) with (1 := eq_refl).
    cbn [serverReady] in Hdone. clear Hguard.
    wp_go.
    all: units.
    all: first [ apply Hfail | apply Hdone ]; trace_norm; reflexivity.
Qed.

(** ** Readiness *)

(** What [isReady] does, in every world. *)
Lemma isReady_run W (os : forall X, Os X -> W -> X * W) timeout s w :
  let o := run os (isReady timeout) s w in
  let poll := http_get (health_url (port s)) (timeout_or_default timeout) in
  let answer := fst (os _ poll w) in
  result o = Ok (serverReady s || has_handle s && is_200 answer) /\
  trace o =
    (if serverReady s || negb (has_handle s) then []
     else Called poll answer
          :: (if is_200 answer then [Wrote (Set_serverReady true)] else [])) /\
  final o = (if negb (serverReady s) && has_handle s && is_200 answer
             then assign (Set_serverReady true) s else s).
Proof.
  unfold isReady, has_handle, health_url, timeout_or_default.
  cbn [bind this run].
  destruct (serverReady s) eqn:Hready; cbn [bind this run orb andb negb].
  { cbn. auto. }
  destruct (serverProcess s) as [child |] eqn:Hproc;
    cbn [bind this run try_catch call set orb andb negb].
  2: { cbn. auto. }
  destruct (os _ _ w) as [answer w']. cbn [fst].
  destruct answer as [code | |];
    cbn [bind run try_catch is_200 after result final trace].
  - destruct (code =? 200);
      cbn [bind run try_catch set after result final trace]; auto.
  - auto.
  - auto.
Qed.

Lemma onStdoutData_run W (os : forall X, Os X -> W -> X * W) data s w :
  final (run os (onStdoutData data) s w)
  = (if Js.includes data marker then assign (Set_serverReady true) s else s).
Proof.
  unfold onStdoutData, decodeOutput. run_open.
  destruct (os _ _ w) as [[] w1].
  destruct (Js.includes data marker); reflexivity.
Qed.

Lemma onStderrData_run W (os : forall X, Os X -> W -> X * W) data s w :
  final (run os (onStderrData data) s w)
  = (if informational data && Js.includes data marker
     then assign (Set_serverReady true) s else s).
Proof.
  unfold onStderrData, decodeOutput, informational.
  destruct (Js.includes data " INFO " || Js.includes data "INFO:"
            || Js.includes data "DEBUG:"); cbn [andb].
  - run_open. destruct (os _ _ w) as [[] w1].
    destruct (Js.includes data marker); [| reflexivity].
    run_open. destruct (os _ _ w1) as [wins w2].
    destruct wins as [| win rest]; [reflexivity |].
    run_open. destruct (os _ _ w2) as [[] w3]. reflexivity.
  - run_open. destruct (os _ _ w) as [[] w1]. reflexivity.
Qed.

(** ** The invariant, method by method *)

Lemma reset_ready_has_handle s : ready_has_handle (reset s).
Proof. intros Hready. discriminate Hready. Qed.



Section Preservation.

Variable host : Host.
Variable W : Type.
Variable os : forall X, Os X -> W -> X * W.
Variable s : ServerManager.
Variable w : W.
Hypothesis inv : ready_has_handle s.

Lemma start_preserves p : ready_has_handle (final (run os (start host p) s w)).
Proof.
  by_wp (any_world os). apply start_wp.
  - intros. exact inv.
  - intros tr p' _ _ Hready. discriminate Hready.
  - intros tr p' child _ _ _. discriminate.
Qed.

Lemma stop_preserves : ready_has_handle (final (run os (stop host) s w)).
Proof.
  destruct (serverProcess s) as [child |] eqn:Hchild.
  - destruct (truthy_number (pid child)) as [n |] eqn:Hpid.
    + by_wp (any_world os). apply stop_wp with (child := child) (n := n); auto.
      intros. apply reset_ready_has_handle.
    + by_wp (any_world os). unfold stop, resetServerState.
      wp_open. rewrite Hchild. wp_open. intros [] _. rewrite Hpid.
      wp_open. intros [] _ Hready. discriminate Hready.
  - unfold stop. cbn [bind this run]. rewrite Hchild. exact inv.
Qed.


Lemma isRunning_preserves : ready_has_handle (final (run os (isRunning host) s w)).
Proof.
  by_wp (any_world os). unfold isRunning, resetServerState.
  repeat (wp_open; intros; try wp_case).
  all: first [ exact inv | intros Hready; discriminate Hready ].
Qed.

Lemma getPort_preserves : ready_has_handle (final (run os getPort s w)).
Proof. exact inv. Qed.

Lemma cleanupOldProcesses_preserves :
  ready_has_handle (final (run os (cleanupOldProcesses host) s w)).
Proof.
  by_wp (any_world os). apply executeCleanupCommand_wp. intros. exact inv.
Qed.

Lemma cleanupServicePort_preserves :
  ready_has_handle (final (run os (cleanupServicePort host) s w)).
Proof.
  by_wp (any_world os).
  unfold cleanupServicePort, isPortInUse, killProcessOnPort, cleanupOldProcesses.
  wp_go.
  all: exact inv.
Qed.

Lemma onExit_preserves code signal :
  ready_has_handle (final (run os (onExit code signal) s w)).
Proof.
  by_wp (any_world os). unfold onExit, resetServerState.
  repeat (wp_open; intros; try wp_case).
  all: intros Hready; discriminate Hready.
Qed.

Lemma onProcessError_preserves msg :
  ready_has_handle (final (run os (onProcessError msg) s w)).
Proof.
  by_wp (any_world os). unfold onProcessError, resetServerState.
  repeat (wp_open; intros; try wp_case).
  intros Hready; discriminate Hready.
Qed.



End Preservation.

(** ** A lone call, turn by turn, is a run *)

Section Turns.

Variable W : Type.
Variable os : forall X, Os X -> W -> X * W.

Lemma continues_refl {A} (p : Prog A) c : continues os p c (p, c).
Proof. repeat split. Qed.

Lemma run_to_await_continues {A} (p : Prog A) :
  forall c, continues os p c (run_to_await os p c).
Proof.
  induction p as [a | e | k IH | a k IH | X o k IH]; intros c;
    cbn [run_to_await]; try apply continues_refl.
  - apply IH.
  - destruct (IH (record (Wrote a)
                    {| mgr := assign a (mgr c); env_now := env_now c;
                       history := history c |})) as (Hr & Hf & Hw & Ht).
    unfold continues in *. cbn [run after result final world trace] in *.
    cbn [record mgr env_now history] in *.
    rewrite <- app_assoc in Ht. repeat split; assumption.
  - destruct (suspends o); [apply continues_refl |].
    unfold continues. cbn [run]. destruct (os o (env_now c)) as [x w'].
    destruct (IH x (record (Called o x)
                      {| mgr := mgr c; env_now := w'; history := history c |}))
      as (Hr & Hf & Hw & Ht).
    cbn [run after result final world trace record mgr env_now history] in *.
    rewrite <- app_assoc in Ht. repeat split; assumption.
Qed.

Lemma turn_continues {A} (p : Prog A) c : continues os p c (turn os p c).
Proof.
  destruct p as [a | e | k | a k | X o k]; cbn [turn];
    try apply run_to_await_continues.
  destruct (suspends o); [| apply run_to_await_continues].
  unfold continues. cbn [run]. destruct (os o (env_now c)) as [x w'].
  destruct (run_to_await_continues (k x)
              (record (Called o x)
                 {| mgr := mgr c; env_now := w'; history := history c |}))
    as (Hr & Hf & Hw & Ht).
  cbn [run after result final world trace record mgr env_now history] in *.
  rewrite <- app_assoc in Ht. repeat split; assumption.
Qed.

Lemma turns_continues {A} n : forall (p : Prog A) c, continues os p c (turns os n p c).
Proof.
  induction n as [| n IH]; intros p c; cbn [turns]; [apply continues_refl |].
  pose proof (turn_continues p c) as H1.
  destruct (turn os p c) as [p' c']. specialize (IH p' c').
  unfold continues in *. cbn [fst snd] in *.
  destruct H1 as (-> & -> & -> & ->). exact IH.
Qed.

(** Every call settles after finitely many turns. *)
Lemma paused_settles {A} (p : Prog A) :
  forall c, exists n,
    settled (fst (turns os n (fst (run_to_await os p c)) (snd (run_to_await os p c))))
    = true.
Proof.
  induction p as [a | e | k IH | a k IH | X o k IH]; intros c; cbn [run_to_await].
  - exists O. reflexivity.
  - exists O. reflexivity.
  - apply IH.
  - apply IH.
  - destruct (suspends o) eqn:Hs.
    + cbn [fst snd].
      destruct (os o (env_now c)) as [x w'] eqn:Hx.
      destruct (IH x (record (Called o x)
                        {| mgr := mgr c; env_now := w'; history := history c |}))
        as [n Hn].
      exists (S n). cbn [turns turn]. rewrite Hs, Hx.
      destruct (run_to_await os (k x) _) as [p' c']. exact Hn.
    + destruct (os o (env_now c)) as [x w']. apply IH.
Qed.

Lemma call_settles {A} (p : Prog A) c :
  exists n, settled (fst (turns os n p c)) = true.
Proof.
  destruct (paused_settles p c) as [n Hn].
  destruct p as [a | e | k | a k | X o k].
  - exists O. reflexivity.
  - exists O. reflexivity.
  - exists (S n). cbn [turns turn]. destruct (run_to_await os (Get k) c). exact Hn.
  - exists (S n). cbn [turns turn]. destruct (run_to_await os (Upd a k) c). exact Hn.
  - destruct (suspends o) eqn:Hs.
    + exists n. cbn [run_to_await] in Hn. rewrite Hs in Hn. exact Hn.
    + exists (S n). cbn [turns turn]. rewrite Hs.
      destruct (run_to_await os (Call o k) c). exact Hn.
Qed.

(** A call that no other call interleaves with ends as [run] says. *)
Lemma lone_call_is_run {A} (p : Prog A) c :
  exists n,
    let pc := turns os n p c in
    let o := run os p (mgr c) (env_now c) in
    fst pc = match result o with Ok a => Ret a | Err e => Throw e end /\
    mgr (snd pc) = final o /\
    env_now (snd pc) = world o /\
    history (snd pc) = (history c ++ trace o)%list.
Proof.
  destruct (call_settles p c) as [n Hn]. exists n. cbv zeta.
  destruct (turns_continues n p c) as (Hr & Hf & Hw & Ht).
  destruct (turns os n p c) as [p' c']. cbn [fst snd] in *.
  destruct p' as [a | e | k | a k | X o k]; try discriminate Hn.
  - cbn [run result final world trace] in *.
    rewrite Hr, Hf, Hw, Ht, app_nil_r. repeat split; reflexivity.
  - cbn [run result final world trace] in *.
    rewrite Hr, Hf, Hw, Ht, app_nil_r. repeat split; reflexivity.
Qed.

End Turns.

(** ** Methods one after the other *)

Lemma run_bind W (os : forall X, Os X -> W -> X * W) {A B}
    (p : Prog A) (f : A -> Prog B) : forall s w,
  run os (bind p f) s w
  = match result (run os p s w) with
    | Ok a =>
        let o := run os p s w in
        let o' := run os (f a) (final o) (world o) in
        {| result := result o'; final := final o'; world := world o';
           trace := trace o ++ trace o' |}
    | Err e =>
        let o := run os p s w in
        {| result := Err e; final := final o; world := world o; trace := trace o |}
    end.
Proof.
  induction p as [a | e | k IH | a k IH | X c k IH]; intros s w; cbn [bind run].
  - cbn [result final world trace app]. destruct (run os (f a) s w); reflexivity.
  - reflexivity.
  - apply IH.
  - rewrite IH. cbn [after result final world trace].
    destruct (result (run os k (assign a s) w)); reflexivity.
  - destruct (os X c w) as [x w']. rewrite IH.
    cbn [after result final world trace].
    destruct (result (run os (k x) s w')); reflexivity.
Qed.

(** [stop] never throws and always ends without a handle. *)
Lemma stop_ends_without_handle host W (os : forall X, Os X -> W -> X * W) s w :
  (exists b, result (run os (stop host) s w) = Ok b) /\
  serverProcess (final (run os (stop host) s w)) = None.
Proof.
  destruct (serverProcess s) as [child |] eqn:Hchild.
  - destruct (truthy_number (pid child)) as [n |] eqn:Hpid.
    + by_wp (any_world os). apply stop_wp with (child := child) (n := n); eauto.
    + by_wp (any_world os). unfold stop, resetServerState.
      wp_open. rewrite Hchild. wp_open. intros [] _. rewrite Hpid.
      wp_open. intros [] _. eauto.
  - unfold stop. cbn [bind this run]. rewrite Hchild. cbn. eauto.
Qed.

(** ** Calls that overlap *)

Section Keeps.

Variable Inv : ServerManager -> Prop.

Lemma keeps_mono {A} (p : Prog A) :
  forall (Q Q' : Res A -> ServerManager -> Prop) s,
    (forall r s', Q r s' -> Q' r s') -> keeps Inv p Q s -> keeps Inv p Q' s.
Proof.
  induction p as [a | e | k IH | a k IH | X c k IH]; intros Q Q' s HQ; cbn [keeps].
  - apply HQ.
  - apply HQ.
  - apply IH, HQ.
  - apply IH, HQ.
  - destruct (suspends c).
    + intros [Hs Hk]. split; [exact Hs |].
      intros x s' Hs'. eapply IH; [exact HQ | apply Hk, Hs'].
    + intros Hk x. eapply IH; [exact HQ | apply Hk].
Qed.














(** A call that can be entered in any state of [Inv] keeps [Inv] at each of
    its awaits, however the calls take turns. *)

Variable W : Type.
Variable os : forall X, Os X -> W -> X * W.





End Keeps.

(** ** What the methods keep *)















(** ** C1: the port conflict *)

(** C1 (as stated, fails).  The claim has [start] probe upward from the
    default port and end bound to a port it found free.  Here every port
    is in use and no cleanup frees one: the only port ever probed is the
    default one, twice; 23451 is never probed although it is in use as
    well, and the service is launched on it. *)
Lemma start_never_probes_next_port :
  let o := run (scripted crowded) (start linux_host None) initial tt in
  probes (trace o) = [23450; 23450] /\
  launches (trace o) = [service_args 23451] /\
  fst (scripted crowded (net_listen 23451) tt) = OnError.
Proof. repeat split. Qed.

Ltac absurd_answer :=
  match goal with
  | H : busy ?p (net_listen ?p) OnListening |- _ =>
      specialize (H eq_refl); discriminate H
  end.

(** C1 (amended).  When the port [start] begins with is in use and stays
    in use through the cleanup, [start] moves to the next port exactly
    once: it probes the first port twice and no other port, [getPort]
    then reports the first port plus one, and if the service is launched
    at all it is launched with that port, which nobody has looked at. *)
Theorem start_on_busy_port host W (os : forall X, Os X -> W -> X * W) p s w :
  serverProcess s = None ->
  (forall w', fst (os _ (net_listen (requested p s)) w') = OnError) ->
  let o := run os (bind (start host p) (fun _ => getPort)) s w in
  result o = Ok (requested p s + 1) /\
  port (final o) = requested p s + 1 /\
  probes (trace o) = [requested p s; requested p s] /\
  incl (launches (trace o)) [service_args (requested p s + 1)].
Proof.
  intros Hnone Hbusy.
  assert (Hw : answers_within (busy (requested p s)) os).
  { intros X c w'. destruct c; cbn; auto. intros ->. apply Hbusy. }
  by_wp Hw. clear Hw Hbusy w.
  unfold start, requested, prepareForStart, spawnServerProcess, getServerPath,
    setupProcessListeners, isPortInUse, killProcessOnPort, cleanupOldProcesses,
    getPort.
  destruct s as [sp p0 ready]. cbn in Hnone. subst sp.
  wp_go.
  all: units; try absurd_answer.
  all: repeat split; trace_norm; try reflexivity.
  all: unfold service_args; auto using incl_nil_l, incl_refl.
Qed.

Lemma start_on_busy_port_witness :
  let o := run (scripted crowded) (bind (start linux_host None) (fun _ => getPort))
               initial tt in
  result o = Ok (requested None initial + 1) /\
  port (final o) = requested None initial + 1 /\
  probes (trace o) = [requested None initial; requested None initial] /\
  incl (launches (trace o)) [service_args (requested None initial + 1)].
Proof.
  exact (@start_on_busy_port linux_host unit (scripted crowded) None initial tt
           eq_refl (fun _ => eq_refl)).
Defined.

(** ** C2: the outcome of a cleanup with nothing to clean *)

(** C2 (as stated, fails).  Nothing listens on port 23450 and the lookup
    prints nothing: on each of the three platforms the by-port cleanup
    reports failure. *)
Lemma idle_port_cleanup_reports_failure :
  result (run (scripted calm)
            (executeCleanupCommand linux_host ByPort (VNumber 23450)) initial tt)
    = Ok no_listener /\
  result (run (scripted calm)
            (executeCleanupCommand mac_host ByPort (VNumber 23450)) initial tt)
    = Ok no_listener /\
  result (run (scripted calm)
            (executeCleanupCommand windows_host ByPort (VNumber 23450)) initial tt)
    = Ok no_listener /\
  success no_listener = false.
Proof. repeat split. Qed.

(** C2 (amended).  When the lookup finds no listener on the port, the
    by-port cleanup runs nothing else and reports failure: it returns
    [no_listener] when the lookup command resolved and printed nothing
    but white space, and, when the lookup command was rejected, the
    result of its [catch], whose message is the one it logs as a warning
    and ends with the text of the rejection.  The by-name cleanup runs
    its one command, which is written to end well when nothing matches:
    it returns [cleaned] when that command resolved and the result of
    its [catch] when it was rejected. *)
Theorem cleanup_outcomes host W (os : forall X, Os X -> W -> X * W) p s w :
  found_nothing (fst (os _ (execPromise (port_lookup_command host p)) w)) = true ->
  let by_port := run os (executeCleanupCommand host ByPort (VNumber p)) s w in
  let by_name := run os (cleanupOldProcesses host) s w in
  let looked := fst (os _ (execPromise (port_lookup_command host p)) w) in
  let named := fst (os _ (execPromise (by_name_command host)) w) in
  result by_port
  = Ok (match looked with
        | Ok _ => no_listener
        | Err e => cleanup_failed ByPort e
        end) /\
  commands (trace by_port) = [port_lookup_command host p] /\
  warn_log (trace by_port)
  = match looked with
    | Ok _ => []
    | Err e => [message (cleanup_failed ByPort e)]
    end /\
  result by_name
  = Ok (match named with
        | Ok _ => cleaned
        | Err e => cleanup_failed ByName e
        end) /\
  commands (trace by_name) = [by_name_command host] /\
  success no_listener = false /\
  (forall type e, success (cleanup_failed type e) = false).
Proof.
  intros Hnothing. cbv zeta.
  assert (Hname :
    result (run os (cleanupOldProcesses host) s w)
    = Ok (match fst (os _ (execPromise (by_name_command host)) w) with
          | Ok _ => cleaned
          | Err e => cleanup_failed ByName e
          end) /\
    commands (trace (run os (cleanupOldProcesses host) s w)) = [by_name_command host]).
  { unfold cleanupOldProcesses, executeCleanupCommand.
    rewrite cleanupCommand_by_name. run_open. rewrite by_name_command_truthy.
    run_open.
    destruct (os _ (execPromise (by_name_command host)) w) as [[stdout | e] w1];
      repeat (run_open; try run_case).
    all: split; reflexivity. }
  destruct Hname as [Hname1 Hname2].
  assert (Hport :
    result (run os (executeCleanupCommand host ByPort (VNumber p)) s w)
    = Ok (match fst (os _ (execPromise (port_lookup_command host p)) w) with
          | Ok _ => no_listener
          | Err e => cleanup_failed ByPort e
          end) /\
    commands (trace (run os (executeCleanupCommand host ByPort (VNumber p)) s w))
    = [port_lookup_command host p] /\
    warn_log (trace (run os (executeCleanupCommand host ByPort (VNumber p)) s w))
    = match fst (os _ (execPromise (port_lookup_command host p)) w) with
      | Ok _ => []
      | Err e => [message (cleanup_failed ByPort e)]
      end).
  { revert Hnothing.
    unfold executeCleanupCommand, cleanupCommand, port_lookup_command, found_nothing.
    destruct (platform host); run_open.
    all: match goal with
         | |- context [fst ?answer] => destruct answer as [[stdout | e] w1]
         end; cbn [fst]; intros Hnothing.
    all: try apply negb_true_iff in Hnothing.
    all: repeat (run_open; try rewrite Hnothing; try run_case).
    all: repeat split; reflexivity. }
  destruct Hport as (Hport1 & Hport2 & Hport3).
  repeat apply conj; auto.
Qed.

Lemma cleanup_outcomes_witness :
  let by_port :=
    run (scripted stubborn) (executeCleanupCommand mac_host ByPort (VNumber 23450))
        initial tt in
  let by_name := run (scripted stubborn) (cleanupOldProcesses mac_host) initial tt in
  let looked :=
    fst (scripted stubborn (execPromise (port_lookup_command mac_host 23450)) tt) in
  let named := fst (scripted stubborn (execPromise (by_name_command mac_host)) tt) in
  result by_port
  = Ok (match looked with
        | Ok _ => no_listener
        | Err e => cleanup_failed ByPort e
        end) /\
  commands (trace by_port) = [port_lookup_command mac_host 23450] /\
  warn_log (trace by_port)
  = match looked with
    | Ok _ => []
    | Err e => [message (cleanup_failed ByPort e)]
    end /\
  result by_name
  = Ok (match named with
        | Ok _ => cleaned
        | Err e => cleanup_failed ByName e
        end) /\
  commands (trace by_name) = [by_name_command mac_host] /\
  success no_listener = false /\
  (forall type e, success (cleanup_failed type e) = false).
Proof.
  exact (@cleanup_outcomes mac_host unit (scripted stubborn) 23450 initial tt eq_refl).
Defined.

(** ** C3: overlapping calls *)

(** C3 (as stated, fails).  Two calls of [start] on a fresh manager, the
    second one made while the first one waits for its port probe: both
    pass the test of [serverProcess], and two processes are created.  Two
    calls of [stop] that overlap in the same way both pass the test as
    well, and their kills alternate. *)
Lemma overlapping_calls_are_not_serialized :
  let starts := interleave (scripted calm) [0; 1; 0; 1]%nat
                  [start linux_host None; start linux_host None]
                  (start_config initial) in
  let stops := interleave (scripted stubborn) [0; 1; 0; 1; 0; 1; 0; 1; 0; 1]%nat
                 [stop linux_host; stop linux_host]
                 (start_config warming) in
  (forallb (@settled unit) (fst starts) = true /\
   processes (history (snd starts)) = [the_child; the_child]) /\
  (forallb (@settled bool) (fst stops) = true /\
   kills (history (snd stops))
   = [Signalled SIGTERM; Signalled SIGTERM; Signalled SIGKILL;
      Signalled SIGKILL; Signalled SIGKILL; Signalled SIGKILL]).
Proof. repeat split. Qed.

(** C3 (amended).  The only guard of [start] and of [stop] is the test of
    [serverProcess] at the entry.  A [start] entered with a handle
    present changes nothing and creates no process, so two calls of
    [start] with nothing in between create at most one process; a
    [stop] made right after a [stop] has ended, with nothing in between,
    finds no handle and does nothing.  The exit and error listeners drop
    the handle, so a [start] made after one of them has run is not held
    back: [start], the exit of that process, [start] creates two
    processes where the host is willing.  Nothing is promised for calls
    that overlap. *)
Theorem guards_are_the_entry_tests host W (os : forall X, Os X -> W -> X * W)
    p q s w child n ready :
  let held := {| serverProcess := Some child; port := n; serverReady := ready |} in
  let again := run os (start host p) held w in
  let twice := run os (bind (start host p) (fun _ => start host q)) s w in
  let stopped := run os (stop host) s w in
  let stopped_twice := run os (bind (stop host) (fun _ => stop host)) s w in
  let restarted :=
    run (scripted calm)
      (start linux_host None;; onExit (Some 0) None;; start linux_host None)
      initial tt in
  (result again = Ok tt /\ final again = held /\
   processes (trace again) = [] /\ writes (trace again) = []) /\
  (result twice = Ok tt /\ (length (processes (trace twice)) <= 1)%nat) /\
  (result stopped_twice = Ok true /\ final stopped_twice = final stopped /\
   trace stopped_twice = trace stopped) /\
  (forall code signal message,
     serverProcess (final (run os (onExit code signal) held w)) = None /\
     serverProcess (final (run os (onProcessError message) held w)) = None) /\
  (result restarted = Ok tt /\ processes (trace restarted) = [the_child; the_child]).
Proof.
  cbv zeta. split; [| split; [| split; [| split]]].
  - by_wp (any_world os). apply start_wp; cbn [serverProcess]; try discriminate.
    intros ? tr _ Hp Hw. auto.
  - by_wp (any_world os). apply wp_bind, start_wp.
    + intros c tr1 Hc Hp1 _. cbn [then_post]. apply start_wp; try congruence.
      intros c' tr2 _ Hp2 _. split; [reflexivity |].
      unfold processes in *. rewrite flat_map_app, Hp1, Hp2. cbn. lia.
    + intros tr1 p' Hnone Hp1. cbn [then_post].
      apply start_wp; cbn [serverProcess]; try discriminate.
      * intros tr2 p'' _ Hp2. split; [reflexivity |].
        unfold processes in *. rewrite flat_map_app, Hp1, Hp2. cbn. lia.
      * intros tr2 p'' c _ Hp2. split; [reflexivity |].
        unfold processes in *. rewrite flat_map_app, Hp1, Hp2. cbn. lia.
    + intros tr1 p' c Hnone Hp1. cbn [then_post].
      apply start_wp; cbn [serverProcess]; try discriminate.
      intros c' tr2 _ Hp2 _. split; [reflexivity |].
      unfold processes in *. rewrite flat_map_app, Hp1, Hp2. cbn. lia.
  - rewrite run_bind.
    destruct (stop_ends_without_handle host os s w) as [[b Hb] Hnone].
    rewrite Hb. cbv zeta.
    assert (Hidle : forall w',
              run os (stop host) (final (run os (stop host) s w)) w'
              = {| result := Ok true; final := final (run os (stop host) s w);
                   world := w'; trace := [] |}).
    { intros w'. unfold stop at 1. cbn [bind this run]. rewrite Hnone. reflexivity. }
    rewrite Hidle. cbn [result final trace]. rewrite app_nil_r. auto.
  - intros code signal message. split.
    + by_wp (any_world os). unfold onExit, resetServerState.
      repeat (wp_open; intros; try wp_case); reflexivity.
    + by_wp (any_world os). unfold onProcessError, resetServerState.
      repeat (wp_open; intros; try wp_case); reflexivity.
  - split; vm_compute; reflexivity.
Qed.

(** ** C4: a launch that fails *)





(** ** C5: the last cleanup is taken on trust *)

Ltac absurd_survivor :=
  match goal with
  | H : exists e, surviving ?n (process_kill0 ?n) (Err e) |- _ =>
      destruct H as [? H]; specialize (H eq_refl); discriminate H
  end.

(** C5.  A process that is still alive at every liveness test of the stop
    loop: [stop] has sent its three kills (SIGTERM and twice SIGKILL, or
    three times taskkill on Windows), then runs the by-name cleanup
    command and nothing else from the shell, resets the fields and
    answers true whatever that command did.  The cleanup itself never
    throws, so on this path [stop] never answers false. *)
Theorem stop_survivor_reports_success host W (os : forall X, Os X -> W -> X * W)
    s w child n :
  serverProcess s = Some child ->
  truthy_number (pid child) = Some n ->
  (forall w', fst (os _ (process_kill0 n) w') = Ok tt) ->
  let o := run os (stop host) s w in
  result o = Ok true /\
  kills (trace o)
  = match platform host with
    | Win32 => [Taskkill; Taskkill; Taskkill]
    | _ => [Signalled SIGTERM; Signalled SIGKILL; Signalled SIGKILL]
    end /\
  commands (trace o) = [by_name_command host] /\
  final o = reset s /\
  (forall s' w', exists res,
     result (run os (cleanupOldProcesses host) s' w') = Ok res).
Proof.
  intros Hchild Hpid Halive.
  assert (Hw : answers_within (surviving n) os).
  { intros X c w'. destruct c; cbn; auto. intros ->. apply Halive. }
  cbv zeta. repeat apply conj.
  5: { intros s' w'.
       destruct (cleanupOldProcesses_run host os s' w') as (res & Hres & _).
       exists res. exact Hres. }
  all: by_wp Hw; apply stop_wp with (child := child) (n := n); auto.
  all: intros tr Hkill [Hgone | [Hcmd Hsent]]; try absurd_survivor; auto.
  rewrite Hsent. unfold maxKillAttempts, escalation, kill_of_attempt.
  destruct (platform host); reflexivity.
Qed.

Lemma stop_survivor_reports_success_witness :
  let o := run (scripted stubborn) (stop linux_host) warming tt in
  result o = Ok true /\
  kills (trace o)
  = match platform linux_host with
    | Win32 => [Taskkill; Taskkill; Taskkill]
    | _ => [Signalled SIGTERM; Signalled SIGKILL; Signalled SIGKILL]
    end /\
  commands (trace o) = [by_name_command linux_host] /\
  final o = reset warming /\
  (forall s' w', exists res,
     result (run (scripted stubborn) (cleanupOldProcesses linux_host) s' w') = Ok res).
Proof.
  exact (@stop_survivor_reports_success linux_host unit (scripted stubborn)
           warming tt the_child 4242 eq_refl eq_refl (fun _ => eq_refl)).
Defined.

(** ** C6: the readiness marker *)

(** C6 (as stated, fails).  A stderr chunk that carries the readiness
    phrase but none of the INFO and DEBUG marks leaves the flag false. *)
Lemma stderr_marker_on_error_line_is_ignored :
  let data := "ERROR: Backend server is ready" in
  Js.includes data marker = true /\
  serverReady (final (run (scripted calm) (onStderrData data) warming tt)) = false.
Proof. repeat split. Qed.

(** C6 (amended).  A stdout chunk sets the flag when it contains the
    readiness phrase; a stderr chunk sets it when it contains the phrase
    and is taken for an INFO or DEBUG line; neither ever clears it.
    [isReady] answers true when the flag is set or, with a handle, when
    the health poll answers 200: either path is enough. *)
Theorem readiness_paths W (os : forall X, Os X -> W -> X * W) data timeout s w :
  let poll := http_get (health_url (port s)) (timeout_or_default timeout) in
  serverReady (final (run os (onStdoutData data) s w))
  = serverReady s || Js.includes data marker /\
  serverReady (final (run os (onStderrData data) s w))
  = serverReady s || informational data && Js.includes data marker /\
  result (run os (isReady timeout) s w)
  = Ok (serverReady s || has_handle s && is_200 (fst (os _ poll w))).
Proof.
  cbv zeta. rewrite onStdoutData_run, onStderrData_run. repeat split.
  - destruct (Js.includes data marker); cbn; [| rewrite orb_false_r];
      auto using orb_true_r.
  - destruct (informational data && Js.includes data marker); cbn;
      [| rewrite orb_false_r]; auto using orb_true_r.
  - apply isReady_run.
Qed.

(** ** C7: dropping the handle *)

(** C7 (as stated, fails).  A handle whose process has no pid: [stop]
    drops it and answers false without a signal, a taskkill or a cleanup
    command. *)
Lemma stop_without_pid_drops_unreaped :
  let o := run (scripted calm) (stop linux_host) stillborn tt in
  has_handle stillborn = true /\
  result o = Ok false /\
  existsb is_reap (trace o) = false /\
  existsb is_drop (trace o) = true /\
  has_handle (final o) = false.
Proof. repeat split. Qed.

Lemma no_writes_no_drop tr : writes tr = [] -> existsb is_drop tr = false.
Proof.
  unfold writes. induction tr as [| e tr IH]; [reflexivity |].
  destruct e as [X c x | a]; cbn; [exact IH | discriminate].
Qed.

(** C7 (amended).  Of the public methods only [stop] and [isRunning] ever
    drop the handle.  [stop] sends a kill before it drops the handle when
    the pid of the process is available, and answers true; when the pid
    is not available it drops the handle without any reap attempt and
    answers false.  [isRunning] never reaps, and drops the handle only
    when its existence test on the pid has failed. *)
Theorem handle_dropped_after_kill_or_without_process host W
    (os : forall X, Os X -> W -> X * W) s w child p timeout :
  serverProcess s = Some child ->
  let stopped := run os (stop host) s w in
  let checked := run os (isRunning host) s w in
  (final stopped = reset s /\
   match truthy_number (pid child) with
   | Some _ => result stopped = Ok true /\ kill_first (trace stopped) = true
   | None => result stopped = Ok false /\ existsb is_reap (trace stopped) = false
   end) /\
  (existsb is_reap (trace checked) = false /\
   (existsb is_drop (trace checked) = true ->
    exists n e, truthy_number (pid child) = Some n /\
                fst (os _ (process_kill0 n) w) = Err e)) /\
  existsb is_drop (trace (run os (start host p) s w)) = false /\
  existsb is_drop (trace (run os (isReady timeout) s w)) = false /\
  existsb is_drop (trace (run os getPort s w)) = false /\
  existsb is_drop (trace (run os (cleanupOldProcesses host) s w)) = false /\
  existsb is_drop (trace (run os (cleanupServicePort host) s w)) = false.
Proof.
  intros Hchild. cbv zeta. repeat apply conj.
  - destruct (truthy_number (pid child)) as [n |] eqn:Hpid.
    + by_wp (any_world os). apply stop_wp with (child := child) (n := n); auto.
    + by_wp (any_world os). unfold stop, resetServerState.
      wp_open. rewrite Hchild. wp_open. intros [] _. rewrite Hpid.
      wp_open. intros [] _. reflexivity.
  - destruct (truthy_number (pid child)) as [n |] eqn:Hpid.
    + split; by_wp (any_world os);
        apply stop_wp with (child := child) (n := n); auto.
    + by_wp (any_world os). unfold stop, resetServerState.
      wp_open. rewrite Hchild. wp_open. intros [] _. rewrite Hpid.
      wp_open. intros [] _. auto.
  - unfold isRunning, resetServerState. cbn [bind this run]. rewrite Hchild.
    destruct (truthy_number (pid child)) as [n |]; [| reflexivity].
    destruct (platform host); try reflexivity; run_open.
    all: destruct (os _ _ w) as [[[] | e] w1]; reflexivity.
  - unfold isRunning, resetServerState. cbn [bind this run]. rewrite Hchild.
    destruct (truthy_number (pid child)) as [n |]; [| discriminate].
    destruct (platform host); try discriminate; run_open.
    all: destruct (os _ _ w) as [[[] | e] w1] eqn:Hanswer; try discriminate.
    all: intros _; exists n, e; rewrite Hanswer; auto.
  - by_wp (any_world os). apply start_wp; try congruence.
    intros c tr _ _ Hw. apply no_writes_no_drop, Hw.
  - destruct (isReady_run os timeout s w) as (_ & -> & _).
    destruct (serverReady s || negb (has_handle s)); [reflexivity |].
    destruct (is_200 _); reflexivity.
  - reflexivity.
  - by_wp (any_world os). apply executeCleanupCommand_wp.
    intros res tr Hquiet. apply no_writes_no_drop, quiet_writes, Hquiet.
  - by_wp (any_world os).
    unfold cleanupServicePort, isPortInUse, killProcessOnPort, cleanupOldProcesses.
    wp_go.
    all: apply no_writes_no_drop; trace_norm; reflexivity.
Qed.

Lemma handle_dropped_after_kill_or_without_process_witness :
  let stopped := run (scripted calm) (stop mac_host) serving tt in
  let checked := run (scripted calm) (isRunning mac_host) serving tt in
  (final stopped = reset serving /\
   match truthy_number (pid the_child) with
   | Some _ => result stopped = Ok true /\ kill_first (trace stopped) = true
   | None => result stopped = Ok false /\ existsb is_reap (trace stopped) = false
   end) /\
  (existsb is_reap (trace checked) = false /\
   (existsb is_drop (trace checked) = true ->
    exists n e, truthy_number (pid the_child) = Some n /\
                fst (scripted calm (process_kill0 n) tt) = Err e)) /\
  existsb is_drop (trace (run (scripted calm) (start mac_host None) serving tt)) = false /\
  existsb is_drop (trace (run (scripted calm) (isReady None) serving tt)) = false /\
  existsb is_drop (trace (run (scripted calm) getPort serving tt)) = false /\
  existsb is_drop (trace (run (scripted calm) (cleanupOldProcesses mac_host) serving tt))
  = false /\
  existsb is_drop (trace (run (scripted calm) (cleanupServicePort mac_host) serving tt))
  = false.
Proof.
  exact (@handle_dropped_after_kill_or_without_process mac_host unit (scripted calm)
           serving tt the_child None None eq_refl).
Defined.

(** ** C8: the contract of isReady *)

(** C8 (as stated, fails).  The flag is not set and there is no handle:
    [isReady] answers false without a poll, in a world where the poll
    would have been answered with 200. *)
Lemma isReady_without_handle_does_not_poll :
  let o := run (scripted calm) (isReady None) initial tt in
  serverReady initial = false /\
  polls (trace o) = [] /\
  result o = Ok false /\
  is_200 (on_http_get calm (health_url (port initial))) = true.
Proof. repeat split. Qed.

(** C8 (amended).  With the flag set, [isReady] answers true and does
    nothing.  With the flag not set and no handle it answers false and
    does nothing.  With the flag not set and a handle it polls the health
    address of the current port once, with the given timeout or 1000; it
    answers true and sets the flag exactly when the poll is answered with
    status 200, and answers false on another status, an error or a
    timeout.  It never throws and touches no other field. *)
Theorem isReady_contract W (os : forall X, Os X -> W -> X * W) timeout s w :
  let o := run os (isReady timeout) s w in
  let poll := http_get (health_url (port s)) (timeout_or_default timeout) in
  let answer := fst (os _ poll w) in
  result o = Ok (serverReady s || has_handle s && is_200 answer) /\
  polls (trace o)
  = (if serverReady s || negb (has_handle s) then [] else [health_url (port s)]) /\
  trace o =
    (if serverReady s || negb (has_handle s) then []
     else Called poll answer
          :: (if is_200 answer then [Wrote (Set_serverReady true)] else [])) /\
  final o = (if negb (serverReady s) && has_handle s && is_200 answer
             then assign (Set_serverReady true) s else s).
Proof.
  cbv zeta.
  destruct (isReady_run os timeout s w) as (Hresult & Htrace & Hfinal).
  repeat split; try assumption.
  rewrite Htrace.
  destruct (serverReady s || negb (has_handle s)); [reflexivity |].
  destruct (is_200 _); reflexivity.
Qed.

(** ** C9: stop without a handle *)

(** C9.  Without a handle [stop] answers true, calls nothing and writes
    nothing: fields and world are as before. *)
Theorem stop_idle_is_noop host W (os : forall X, Os X -> W -> X * W) s w :
  serverProcess s = None ->
  run os (stop host) s w
  = {| result := Ok true; final := s; world := w; trace := [] |}.
Proof.
  intros Hnone. unfold stop. cbn [bind this run]. rewrite Hnone. reflexivity.
Qed.

Lemma stop_idle_is_noop_witness :
  run (scripted calm) (stop linux_host) initial tt
  = {| result := Ok true; final := initial; world := tt; trace := [] |}.
Proof.
  exact (@stop_idle_is_noop linux_host unit (scripted calm) initial tt eq_refl).
Defined.

(** ** C10: ready only with a handle *)




(** * The rest of the manager *)

Section MoreQuiet.

Variable tr : list Event.
Hypothesis quiet : forallb is_shell_or_log tr = true.

Lemma quiet_sleeps : sleeps tr = [].
Proof. apply quiet_flat_map; [exact quiet |]. intros [X c x | a]; [destruct c |]; cbn; congruence. Qed.

Lemma quiet_notified : notified tr = [].
Proof. apply quiet_flat_map; [exact quiet |]. intros [X c x | a]; [destruct c |]; cbn; congruence. Qed.

Lemma quiet_spawned : spawned tr = [].
Proof. apply quiet_flat_map; [exact quiet |]. intros [X c x | a]; [destruct c |]; cbn; congruence. Qed.

Lemma quiet_tests : tests tr = [].
Proof. apply quiet_flat_map; [exact quiet |]. intros [X c x | a]; [destruct c |]; cbn; congruence. Qed.

Lemma quiet_lookups : lookups tr = [].
Proof. apply quiet_flat_map; [exact quiet |]. intros [X c x | a]; [destruct c |]; cbn; congruence. Qed.

End MoreQuiet.

Ltac more_quiet_facts :=
  repeat match goal with
  | H : forallb is_shell_or_log ?tr = true |- _ =>
      pose proof (@quiet_sleeps _ H); pose proof (@quiet_notified _ H);
      pose proof (@quiet_spawned _ H); pose proof (@quiet_tests _ H);
      pose proof (@quiet_lookups _ H);
      pose proof (@quiet_probes _ H); pose proof (@quiet_launches _ H);
      pose proof (@quiet_processes _ H); pose proof (@quiet_writes _ H);
      pose proof (@quiet_polls _ H); pose proof (@quiet_installs _ H);
      pose proof (@quiet_error_log _ H); pose proof (@quiet_kills _ H);
      clear H
  end.

(** [trace_norm] with the further observations. *)
Ltac trace_more :=
  more_quiet_facts;
  unfold sleeps, notified, spawned, tests, lookups, warn_log,
    probes, launches, processes, writes, polls, commands, error_log, installs,
    kills in *;
  repeat (progress cbn [flat_map app probed launched created written polled
                         executed error_logged installed killed String.eqb
                         Ascii.eqb Bool.eqb slept sent spawned_service tested
                         looked_up warn_logged]
          || rewrite flat_map_app
          || match goal with H : flat_map _ ?tr = [] |- _ => rewrite H end).

(** ** Starting, once more *)

Ltac absurd_welcome :=
  match goal with
  | H : welcoming ?p (net_listen ?p) OnError |- _ =>
      specialize (H eq_refl); discriminate H
  | H : welcoming _ (fs_existsSync _) ?found, H' : negb ?found = true |- _ =>
      cbn in H; rewrite H in H'; discriminate H'
  | H : welcoming _ (spawn _ _ _) (Err _) |- _ => discriminate H
  end.

(** X1.  A handle-free manager, a free port, the executable in place and
    a host that creates the process: [start] probes the port once, runs
    no cleanup command, keeps the port, launches the executable it has
    looked up with the port on its command line, keeps the process it got
    as its handle and installs the four listeners on it. *)
Theorem start_on_free_port host W (os : forall X, Os X -> W -> X * W) p s w :
  serverProcess s = None ->
  answers_within (welcoming (requested p s)) os ->
  let o := run os (start host p) s w in
  result o = Ok tt /\
  port (final o) = requested p s /\
  serverReady (final o) = serverReady s /\
  probes (trace o) = [requested p s] /\
  commands (trace o) = [] /\
  lookups (trace o) = [server_path host] /\
  exists child,
    spawned (trace o)
    = [(server_path host, service_args (requested p s), spawnOptions host)] /\
    processes (trace o) = [child] /\
    serverProcess (final o) = Some child /\
    installs (trace o)
    = [(child, StdoutData); (child, StderrData); (child, Exit); (child, ErrorEvent)].
Proof.
  intros Hnone Hw. by_wp Hw. clear Hw w.
  unfold start, requested, prepareForStart, spawnServerProcess, getServerPath,
    setupProcessListeners, isPortInUse, killProcessOnPort, cleanupOldProcesses,
    server_path.
  destruct s as [sp p0 ready]. cbn in Hnone. subst sp.
  wp_go.
  all: units; try absurd_welcome.
  all: repeat apply conj; try reflexivity.
  all: eexists; repeat apply conj; reflexivity.
Qed.

Lemma start_on_free_port_witness :
  let o := run (scripted calm) (start linux_host (Some 8000)) initial tt in
  result o = Ok tt /\
  port (final o) = requested (Some 8000) initial /\
  serverReady (final o) = serverReady initial /\
  probes (trace o) = [requested (Some 8000) initial] /\
  commands (trace o) = [] /\
  lookups (trace o) = [server_path linux_host] /\
  exists child,
    spawned (trace o)
    = [(server_path linux_host, service_args (requested (Some 8000) initial),
        spawnOptions linux_host)] /\
    processes (trace o) = [child] /\
    serverProcess (final o) = Some child /\
    installs (trace o)
    = [(child, StdoutData); (child, StderrData); (child, Exit); (child, ErrorEvent)].
Proof.
  apply (@start_on_free_port linux_host unit (scripted calm) (Some 8000) initial tt).
  - reflexivity.
  - intros X c w. destruct c; cbn; auto.
Defined.

(** Without a handle [start] probes the port it begins with, once or
    twice, and ends on it or, after two probes, on the next one. *)
Lemma start_probe_shape host W (os : forall X, Os X -> W -> X * W) p s w :
  serverProcess s = None ->
  let o := run os (start host p) s w in
  let r := requested p s in
  (probes (trace o) = [r] /\ port (final o) = r) \/
  (probes (trace o) = [r; r] /\ (port (final o) = r \/ port (final o) = r + 1)).
Proof.
  intros Hnone. by_wp (any_world os).
  unfold start, requested, prepareForStart, spawnServerProcess, getServerPath,
    setupProcessListeners, isPortInUse, killProcessOnPort, cleanupOldProcesses.
  destruct s as [sp p0 ready]. cbn in Hnone. subst sp.
  wp_go.
  all: units.
  all: trace_more.
  all: cbn [port]; auto.
Qed.

(** X2.  Whatever the host answers, [start] probes no port but the one it
    begins with, at most twice, and ends on that port or on the next one;
    it moves to the next one only after two probes.  With a handle
    present it probes nothing and keeps the port, also when a port was
    passed. *)
Theorem start_moves_port_by_at_most_one host W (os : forall X, Os X -> W -> X * W)
    p s w :
  let o := run os (start host p) s w in
  let r := requested p s in
  if has_handle s
  then probes (trace o) = [] /\ port (final o) = port s
  else (probes (trace o) = [r] /\ port (final o) = r) \/
       (probes (trace o) = [r; r] /\ (port (final o) = r \/ port (final o) = r + 1)).
Proof.
  cbv zeta. unfold has_handle.
  destruct (serverProcess s) as [child |] eqn:Hchild.
  - by_wp (any_world os). unfold start.
    destruct s as [sp p0 ready]. cbn in Hchild. subst sp.
    wp_open. intros [] _. split; reflexivity.
  - apply start_probe_shape, Hchild.
Qed.

(** ** The pid found by the lookup *)

Lemma takeDigits_allDigits s : Js.allDigits (Js.takeDigits s) = true.
Proof.
  induction s as [| c s IH]; [reflexivity |]. cbn [Js.takeDigits].
  destruct (Js.isDigit c) eqn:Hc; [| reflexivity].
  cbn [Js.allDigits]. rewrite Hc, IH. reflexivity.
Qed.

Lemma execSpacesDigitsEnd_digits s d :
  Js.execSpacesDigitsEnd s = Some d -> Js.truthy d = true /\ Js.allDigits d = true.
Proof.
  induction s as [| c s IH]; cbn [Js.execSpacesDigitsEnd Js.spacesDigitsEnd].
  - discriminate.
  - destruct (Js.isSpace c); [| exact IH].
    destruct (Js.truthy (Js.skipSpaces s) && Js.allDigits (Js.skipSpaces s)) eqn:Hd;
      [| exact IH].
    intros [= <-]. apply andb_prop in Hd. exact Hd.
Qed.

Lemma execWordSpacesDigits_digits s d :
  Js.execWordSpacesDigits s = Some d -> Js.truthy d = true /\ Js.allDigits d = true.
Proof.
  unfold Js.execWordSpacesDigits. destruct s as [| c s]; [discriminate |].
  destruct (Js.isSpace c); [discriminate |].
  destruct (Js.truthy (Js.skipNonSpaces (String c s))); [| discriminate].
  destruct (Js.truthy (Js.takeDigits _)) eqn:Ht; [| discriminate].
  intros [= <-]. split; [exact Ht | apply takeDigits_allDigits].
Qed.

(** A string is its white space, then the rest. *)
Lemma skipSpaces_split s :
  exists spaces, s = spaces ++ Js.skipSpaces s /\ Js.skipSpaces spaces = EmptyString.
Proof.
  induction s as [| c s (spaces & Hs & Hall)].
  - exists EmptyString. split; reflexivity.
  - cbn [Js.skipSpaces]. destruct (Js.isSpace c) eqn:Hc.
    + exists (String c spaces). cbn [String.append Js.skipSpaces].
      rewrite Hc, <- Hs. split; [reflexivity | exact Hall].
    + exists EmptyString. split; reflexivity.
Qed.

(** After a white-space character, what is skipped ends with one. *)
Lemma skipSpaces_after s : forall c,
  Js.isSpace c = true ->
  exists before sp,
    String c s = before ++ String sp (Js.skipSpaces s) /\ Js.isSpace sp = true.
Proof.
  induction s as [| c' s IH]; intros c Hc.
  - exists EmptyString, c. split; [reflexivity | exact Hc].
  - cbn [Js.skipSpaces]. destruct (Js.isSpace c') eqn:Hc'.
    + destruct (IH c' Hc') as (before & sp & Hs & Hsp).
      exists (String c before), sp. cbn [String.append]. rewrite <- Hs.
      split; [reflexivity | exact Hsp].
    + exists EmptyString, c. split; [reflexivity | exact Hc].
Qed.

Lemma skipNonSpaces_split s :
  exists word, s = word ++ Js.skipNonSpaces s /\ Js.skipNonSpaces word = EmptyString.
Proof.
  induction s as [| c s (word & Hs & Hall)].
  - exists EmptyString. split; reflexivity.
  - cbn [Js.skipNonSpaces]. destruct (Js.isSpace c) eqn:Hc.
    + exists EmptyString. split; reflexivity.
    + exists (String c word). cbn [String.append Js.skipNonSpaces].
      rewrite Hc, <- Hs. split; [reflexivity | exact Hall].
Qed.

Lemma skipNonSpaces_head s c r :
  Js.skipNonSpaces s = String c r -> Js.isSpace c = true.
Proof.
  induction s as [| c' s IH]; cbn [Js.skipNonSpaces]; [discriminate |].
  destruct (Js.isSpace c') eqn:Hc'; [| exact IH].
  intros [= <- _]. exact Hc'.
Qed.

Lemma takeDigits_split s :
  exists rest, s = Js.takeDigits s ++ rest /\ Js.takeDigits rest = EmptyString.
Proof.
  induction s as [| c s (rest & Hs & Hnone)].
  - exists EmptyString. split; reflexivity.
  - cbn [Js.takeDigits]. destruct (Js.isDigit c) eqn:Hc.
    + exists rest. cbn [String.append]. rewrite <- Hs. split; [reflexivity | exact Hnone].
    + exists (String c s). split; [reflexivity |]. cbn [Js.takeDigits]. rewrite Hc.
      reflexivity.
Qed.

(** What [/\s+(\d+)$/] captures: the digits at the end, after white
    space. *)
Lemma execSpacesDigitsEnd_spec s d :
  Js.execSpacesDigitsEnd s = Some d ->
  exists before sp, s = before ++ String sp d /\ Js.isSpace sp = true.
Proof.
  induction s as [| c s IH]; cbn [Js.execSpacesDigitsEnd Js.spacesDigitsEnd].
  - discriminate.
  - assert (Hrest : Js.execSpacesDigitsEnd s = Some d ->
                    exists before sp,
                      String c s = before ++ String sp d /\ Js.isSpace sp = true).
    { intros Hd. destruct (IH Hd) as (before & sp & -> & Hsp).
      exists (String c before), sp. split; [reflexivity | exact Hsp]. }
    destruct (Js.isSpace c) eqn:Hc; [| exact Hrest].
    destruct (Js.truthy (Js.skipSpaces s) && Js.allDigits (Js.skipSpaces s));
      [| exact Hrest].
    intros [= <-]. apply skipSpaces_after, Hc.
Qed.

(** What [/^\S+\s+(\d+)/] captures: the digits that follow the first
    word and the white space after it, as many as there are. *)
Lemma execWordSpacesDigits_spec s d :
  Js.execWordSpacesDigits s = Some d ->
  exists word spaces rest,
    s = word ++ spaces ++ d ++ rest /\
    Js.truthy word = true /\ Js.skipNonSpaces word = EmptyString /\
    Js.truthy spaces = true /\ Js.skipSpaces spaces = EmptyString /\
    Js.takeDigits rest = EmptyString.
Proof.
  unfold Js.execWordSpacesDigits. destruct s as [| c s]; [discriminate |].
  destruct (Js.isSpace c) eqn:Hc; [discriminate |].
  cbn [Js.skipNonSpaces]. rewrite Hc.
  destruct (skipNonSpaces_split s) as (word & Hs & Hword).
  destruct (Js.skipNonSpaces s) as [| c2 r] eqn:Hr; [discriminate |].
  cbn [Js.truthy].
  pose proof (skipNonSpaces_head _ Hr) as Hc2.
  cbn [Js.skipSpaces]. rewrite Hc2.
  destruct (skipSpaces_split r) as (spaces & Hsp & Hspaces).
  destruct (takeDigits_split (Js.skipSpaces r)) as (rest & Hd & Hrest).
  destruct (Js.truthy (Js.takeDigits (Js.skipSpaces r))); [| discriminate].
  intros [= <-].
  exists (String c word), (String c2 spaces), rest.
  repeat apply conj; auto.
  - cbn [String.append]. rewrite <- Hd, <- Hsp. rewrite Hs at 1. reflexivity.
  - cbn [Js.skipNonSpaces]. rewrite Hc. exact Hword.
  - cbn [Js.skipSpaces]. rewrite Hc2. exact Hspaces.
Qed.

(** ** The by-port cleanup *)

(** X3.  The by-port cleanup, whatever the host answers: it never throws
    and leaves the fields alone.  It runs the lookup for the port.  When
    the lookup is rejected it returns the result of its [catch] and runs
    nothing else; when the lookup prints nothing but white space it
    returns [no_listener] and runs nothing else.  Otherwise, on Windows
    and macOS, it reads a pid off what the lookup printed and returns
    [no_pid] when there is none; elsewhere it runs the second lookup,
    returns the result of its [catch] when that is rejected and [no_pid]
    when it prints nothing but white space, and takes as pid what it
    printed, trimmed.  With a pid it runs the kill of that pid as its last
    command and returns [cleaned] exactly when the kill resolved, and the
    result of its [catch] otherwise.  The pid read off on Windows is the
    run of decimal digits at the end of the trimmed output, after white
    space; on macOS it is the run of decimal digits after the first word
    of the trimmed output and the white space that follows it. *)
Theorem by_port_cleanup_commands host W (os : forall X, Os X -> W -> X * W) p s w :
  let o := run os (executeCleanupCommand host ByPort (VNumber p)) s w in
  let lookup := port_lookup_command host p in
  let looked := os _ (execPromise lookup) w in
  let killing (pid : string) (w' : W) (before : list string) :=
    let kill := kill_prefix host ++ pid in
    commands (trace o) = (before ++ [kill])%list /\
    result o = Ok (match fst (os _ (execPromise kill) w') with
                   | Ok _ => cleaned
                   | Err e => cleanup_failed ByPort e
                   end) in
  final o = s /\
  match fst looked with
  | Err e => result o = Ok (cleanup_failed ByPort e) /\ commands (trace o) = [lookup]
  | Ok stdout =>
      if Js.truthy (Js.trim stdout) then
        match platform host with
        | OtherPlatform =>
            let fused := os _ (execPromise (fuser_command p)) (snd looked) in
            match fst fused with
            | Err e =>
                result o = Ok (cleanup_failed ByPort e) /\
                commands (trace o) = [lookup; fuser_command p]
            | Ok pidOut =>
                if Js.truthy (Js.trim pidOut)
                then killing (Js.trim pidOut) (snd fused) [lookup; fuser_command p]
                else result o = Ok no_pid /\
                     commands (trace o) = [lookup; fuser_command p]
            end
        | _ =>
            match pid_of_lookup host stdout with
            | Some pid => killing pid (snd looked) [lookup]
            | None => result o = Ok no_pid /\ commands (trace o) = [lookup]
            end
        end
      else result o = Ok no_listener /\ commands (trace o) = [lookup]
  end /\
  (forall stdout pid,
     pid_of_lookup host stdout = Some pid ->
     Js.truthy pid = true /\ Js.allDigits pid = true /\
     match platform host with
     | Win32 =>
         exists before sp,
           Js.trim stdout = before ++ String sp pid /\ Js.isSpace sp = true
     | _ =>
         exists word spaces rest,
           Js.trim stdout = word ++ spaces ++ pid ++ rest /\
           Js.truthy word = true /\ Js.skipNonSpaces word = EmptyString /\
           Js.truthy spaces = true /\ Js.skipSpaces spaces = EmptyString /\
           Js.takeDigits rest = EmptyString
     end).
Proof.
  cbv zeta. split; [| split].
  - by_wp (any_world os). apply executeCleanupCommand_wp. reflexivity.
  - unfold executeCleanupCommand, cleanupCommand, port_lookup_command, kill_prefix,
      fuser_command, pid_of_lookup.
    destruct (platform host); run_open.
    all: destruct (os _ _ w) as [[stdout | e] w1]; cbn [fst snd]; run_open.
    all: try (run_case; split; reflexivity).
    all: destruct (Js.truthy (Js.trim stdout)); run_open;
           try (split; reflexivity).
    1: destruct (Js.execSpacesDigitsEnd (Js.trim stdout)) as [pid |]; run_open.
    3: destruct (Js.execWordSpacesDigits (Js.trim stdout)) as [pid |]; run_open.
    5: destruct (os _ _ w1) as [[pidOut | e] w2]; cbn [fst snd]; run_open.
    5: destruct (Js.truthy (Js.trim pidOut)) eqn:Hpid; run_open.
    all: try (split; reflexivity).
    all: try (run_case; split; reflexivity).
    all: try rewrite Hpid.
    all: cbn [Js.truthy String.append]; run_open.
    all: match goal with
         | |- context [fst ?answer] => destruct answer as [[out | e] w3]
         end; cbn [fst]; repeat (run_open; try run_case).
    all: split; reflexivity.
  - intros stdout pid. unfold pid_of_lookup.
    destruct (platform host); intros Hpid; try discriminate.
    + destruct (execSpacesDigitsEnd_digits _ Hpid). repeat split; auto.
      apply execSpacesDigitsEnd_spec, Hpid.
    + destruct (execWordSpacesDigits_digits _ Hpid). repeat split; auto.
      apply execWordSpacesDigits_spec, Hpid.
Qed.




(** ** Stopping, once more *)

(** One turn of the stop loop sends exactly its kill, waits at most once
    and runs no command. *)
Lemma stopAttempt_bounds (R : forall X, Os X -> X -> Prop) host n attempt child
    (Q : Post (option bool)) s :
  serverProcess s = Some child -> n <> 0 ->
  (forall tr r s',
     (r = Some true /\ s' = reset s \/ r = None /\ s' = s) ->
     kills tr = [kill_of_attempt host attempt] ->
     (sleeps tr = [] \/ sleeps tr = [500]) ->
     commands tr = [] -> spawned tr = [] -> probes tr = [] ->
     Q (Ok r) s' tr) ->
  wp R (stopAttempt host n attempt) Q s.
Proof.
  intros Hchild Hn HQ.
  unfold stopAttempt, isProcessRunning, resetServerState, kill_of_attempt in *.
  destruct s as [sp p0 ready]. cbn in Hchild. subst sp.
  rewrite (proj2 (Z.eqb_neq n 0) Hn).
  destruct (platform host); repeat (wp_open; intros; try wp_case).
  all: units.
  all: try discriminate.
  all: apply HQ; auto; reflexivity.
Qed.

Lemma stopLoop_bounds (R : forall X, Os X -> X -> Prop) host n child remaining :
  forall attempt (Q : Post bool) s,
  serverProcess s = Some child -> n <> 0 ->
  (forall tr b k,
     (k <= remaining)%nat ->
     kills tr = escalation host k attempt ->
     (length (sleeps tr) <= k)%nat ->
     Forall (eq 500) (sleeps tr) ->
     (commands tr = [] \/ commands tr = [by_name_command host]) ->
     spawned tr = [] -> probes tr = [] ->
     Q (Ok b) (reset s) tr) ->
  wp R (stopLoop host remaining n attempt) Q s.
Proof.
  induction remaining as [| remaining IH]; intros attempt Q s Hchild Hn HQ.
  - cbn [stopLoop]. unfold finalCleanupAttempt, resetServerState.
    wp_open. intros [] _. apply wp_try_catch, wp_bind, cleanupOldProcesses_wp.
    intros res tr Hquiet Hcmd.
    repeat (wp_open; intros; try wp_case).
    all: units.
    all: apply (HQ _ _ O); [lia | | | | | |]; trace_more; auto.
    all: right; unfold commands in Hcmd; rewrite Hcmd; reflexivity.
  - cbn [stopLoop]. apply wp_bind, stopAttempt_bounds with (child := child); auto.
    intros tr r s' Hexit Hkill Hsleep Hcmd Hsp Hpr.
    destruct Hexit as [[-> ->] | [-> ->]]; wp_open.
    + rewrite app_nil_r. apply (HQ _ _ 1%nat); auto; try lia.
      * destruct Hsleep as [-> | ->]; cbn; lia.
      * destruct Hsleep as [-> | ->]; repeat constructor.
    + apply IH; auto. intros tr' b k Hk Hkill' Hlen Hall Hcmd' Hsp' Hpr'.
      apply (HQ _ _ (S k)); try lia.
      * unfold kills in *. rewrite flat_map_app, Hkill, Hkill'. reflexivity.
      * unfold sleeps in *. rewrite flat_map_app, length_app.
        destruct Hsleep as [-> | ->]; cbn [length]; lia.
      * unfold sleeps in *. rewrite flat_map_app. apply Forall_app. split; auto.
        destruct Hsleep as [-> | ->]; repeat constructor.
      * unfold commands in *. rewrite flat_map_app, Hcmd. exact Hcmd'.
      * unfold spawned in *. rewrite flat_map_app, Hsp, Hsp'. reflexivity.
      * unfold probes in *. rewrite flat_map_app, Hpr, Hpr'. reflexivity.
Qed.

(** X5.  [stop], whatever the host answers and whatever the state: it
    never throws; it sends at most three kills, which are the first ones
    of SIGTERM, SIGKILL, SIGKILL (of taskkill three times on Windows); it
    waits at most three times, 500 ms each; the only shell command it can
    run is the by-name cleanup, once; it probes no port and launches
    nothing. *)
Theorem stop_is_bounded host W (os : forall X, Os X -> W -> X * W) s w :
  let o := run os (stop host) s w in
  (exists b, result o = Ok b) /\
  (exists k, (k <= maxKillAttempts)%nat /\ kills (trace o) = escalation host k 1) /\
  (length (sleeps (trace o)) <= maxKillAttempts)%nat /\
  Forall (eq 500) (sleeps (trace o)) /\
  (commands (trace o) = [] \/ commands (trace o) = [by_name_command host]) /\
  spawned (trace o) = [] /\
  probes (trace o) = [].
Proof.
  by_wp (any_world os). unfold stop, attemptToStopProcess, resetServerState.
  wp_open. destruct (serverProcess s) as [child |] eqn:Hchild; wp_open.
  2: { repeat apply conj; eauto. exists O. split; [lia | reflexivity]. cbn. lia. }
  intros [] _. destruct (truthy_number (pid child)) as [n |] eqn:Hpid; wp_open.
  2: { intros [] _. repeat apply conj; eauto.
       exists O. split; [lia | reflexivity]. cbn. lia. }
  apply stopLoop_bounds with (child := child); eauto using truthy_number_nonzero.
  intros tr b k Hk Hkill Hlen Hall Hcmd Hsp Hpr.
  repeat apply conj; eauto.
  - trace_more. lia.
Qed.

Ltac absurd_departed :=
  match goal with
  | H : departed ?n (process_kill0 ?n) (Ok _) |- _ =>
      specialize (H eq_refl); discriminate H
  | H : departed _ (child_kill _ _) (Err _) |- _ => discriminate H
  | H : departed _ (spawn _ _ None) (Err _) |- _ => discriminate H
  end.

(** X6.  A process that takes the first kill: when the kill is delivered
    and the process is gone at the first test, [stop] answers true after
    one kill (SIGTERM, or taskkill on Windows), one wait and one test; it
    runs no cleanup command and resets the fields. *)
Theorem stop_at_first_kill host W (os : forall X, Os X -> W -> X * W) s w child n :
  serverProcess s = Some child ->
  truthy_number (pid child) = Some n ->
  answers_within (departed n) os ->
  let o := run os (stop host) s w in
  result o = Ok true /\
  final o = reset s /\
  kills (trace o) = [kill_of_attempt host 1] /\
  sleeps (trace o) = [500] /\
  tests (trace o) = [n] /\
  commands (trace o) = [].
Proof.
  intros Hchild Hpid Hw. by_wp Hw. clear Hw w.
  pose proof (truthy_number_nonzero _ Hpid) as Hn.
  unfold stop, attemptToStopProcess, maxKillAttempts, resetServerState.
  wp_open. rewrite Hchild. wp_open. intros [] _. rewrite Hpid.
  cbn [stopLoop]. unfold stopAttempt, isProcessRunning, resetServerState,
    kill_of_attempt.
  destruct s as [sp p0 ready]. cbn in Hchild. subst sp.
  rewrite (proj2 (Z.eqb_neq n 0) Hn).
  destruct (platform host);
    repeat (wp_open; intros; try absurd_departed; try wp_case).
  all: units; try absurd_departed; try discriminate.
  all: repeat apply conj; reflexivity.
Qed.

Lemma stop_at_first_kill_witness :
  let o := run (scripted calm) (stop linux_host) serving tt in
  result o = Ok true /\
  final o = reset serving /\
  kills (trace o) = [kill_of_attempt linux_host 1] /\
  sleeps (trace o) = [500] /\
  tests (trace o) = [4242] /\
  commands (trace o) = [].
Proof.
  apply (@stop_at_first_kill linux_host unit (scripted calm) serving tt the_child 4242).
  - reflexivity.
  - reflexivity.
  - intros X c w. destruct c; cbn; auto. destruct options; cbn; auto.
Defined.

(** ** The other methods and the listeners *)

(** X7.  [isRunning], whatever the host answers: without a handle, or
    with a handle without pid, it answers false and asks nothing; on
    Windows it answers true for any handle with a pid, unchecked;
    elsewhere it tests the pid once, answers what the test says and, when
    the test fails, resets the fields.  It never throws and never changes
    the port. *)
Theorem isRunning_contract host W (os : forall X, Os X -> W -> X * W) s w :
  let o := run os (isRunning host) s w in
  let pid_of := match serverProcess s with
                | Some child => truthy_number (pid child)
                | None => None
                end in
  match pid_of with
  | None => result o = Ok false /\ final o = s /\ trace o = []
  | Some n =>
      match platform host with
      | Win32 => result o = Ok true /\ final o = s /\ trace o = []
      | _ =>
          let alive := resolved (fst (os _ (process_kill0 n) w)) in
          result o = Ok alive /\
          final o = (if alive then s else reset s) /\
          tests (trace o) = [n] /\
          writes (trace o)
          = (if alive then [] else [Set_serverProcess None; Set_serverReady false])
      end
  end.
Proof.
  unfold isRunning, resetServerState. cbn [bind this run].
  destruct (serverProcess s) as [child |]; [| repeat split].
  destruct (truthy_number (pid child)) as [n |]; [| repeat split].
  destruct (platform host); [repeat split | |].
  all: run_open; destruct (os _ _ w) as [[[] | e] w1]; repeat split.
Qed.

(** X8.  Only the stderr listener tells the windows.  The stdout listener
    sends nothing, also when it sets the flag; the stderr listener sends
    backend-ready to the first window, once, when it sets the flag and a
    window exists, and nothing otherwise.  Neither listener throws,
    touches the handle or the port, or clears the flag. *)
Theorem listeners_notify host_windows W (os : forall X, Os X -> W -> X * W)
    data s w :
  (forall w', fst (os _ getAllWindows w') = host_windows) ->
  let out := run os (onStdoutData data) s w in
  let err := run os (onStderrData data) s w in
  let flagged := informational data && Js.includes data marker in
  (result out = Ok tt /\ notified (trace out) = [] /\
   final out = (if Js.includes data marker
                then assign (Set_serverReady true) s else s)) /\
  (result err = Ok tt /\
   notified (trace err)
   = (if flagged
      then match host_windows with
           | first :: _ => [(first, "backend-ready")]
           | [] => []
           end
      else []) /\
   final err = (if flagged then assign (Set_serverReady true) s else s)).
Proof.
  intros Hwin. cbv zeta. split.
  - unfold onStdoutData, decodeOutput. run_open.
    destruct (os _ _ w) as [[] w1].
    destruct (Js.includes data marker); repeat split.
  - unfold onStderrData, decodeOutput, informational.
    destruct (Js.includes data " INFO " || Js.includes data "INFO:"
              || Js.includes data "DEBUG:"); cbn [andb].
    + run_open. destruct (os _ _ w) as [[] w1].
      destruct (Js.includes data marker); [| repeat split].
      run_open. specialize (Hwin w1). destruct (os _ _ w1) as [wins w2].
      cbn [fst] in Hwin. subst wins.
      destruct host_windows as [| win rest]; [repeat split |].
      run_open. destruct (os _ _ w2) as [[] w3]. repeat split.
    + run_open. destruct (os _ _ w) as [[] w1]. repeat split.
Qed.

Lemma listeners_notify_witness :
  let data := "2025 INFO Backend server is ready" in
  let out := run (scripted calm) (onStdoutData data) warming tt in
  let err := run (scripted calm) (onStderrData data) warming tt in
  let flagged := informational data && Js.includes data marker in
  (result out = Ok tt /\ notified (trace out) = [] /\
   final out = (if Js.includes data marker
                then assign (Set_serverReady true) warming else warming)) /\
  (result err = Ok tt /\
   notified (trace err)
   = (if flagged
      then match [1%nat] with
           | first :: _ => [(first, "backend-ready")]
           | [] => []
           end
      else []) /\
   final err = (if flagged then assign (Set_serverReady true) warming else warming)).
Proof.
  exact (@listeners_notify [1%nat] unit (scripted calm)
           "2025 INFO Backend server is ready" warming tt (fun _ => eq_refl)).
Defined.

(** X9.  The exit listener always resets the fields and keeps the port;
    it logs one warning when the exit was neither clean (code 0) nor by
    SIGTERM or SIGKILL, and none otherwise.  The error listener resets
    the fields as well. *)
Theorem exit_listeners_reset W (os : forall X, Os X -> W -> X * W)
    code signal msg s w :
  let o := run os (onExit code signal) s w in
  let o' := run os (onProcessError msg) s w in
  result o = Ok tt /\
  final o = reset s /\
  length (warn_log (trace o)) = (if expected_exit code signal then 0%nat else 1%nat) /\
  result o' = Ok tt /\
  final o' = reset s /\
  error_log (trace o') = ["后端服务启动失败: " ++ msg].
Proof.
  cbv zeta.
  assert (Hexit :
    result (run os (onExit code signal) s w) = Ok tt /\
    final (run os (onExit code signal) s w) = reset s /\
    length (warn_log (trace (run os (onExit code signal) s w)))
    = (if expected_exit code signal then 0%nat else 1%nat)).
  { unfold onExit, resetServerState, expected_exit.
    run_open. destruct (os _ _ w) as [[] w1].
    destruct (match code with Some 0 => true | _ => false end);
      destruct (is_signal signal "SIGTERM"); destruct (is_signal signal "SIGKILL");
      cbn [negb andb orb]; run_open;
      try (destruct (os _ _ w1) as [[] w2]); repeat split. }
  destruct Hexit as (? & ? & ?). repeat apply conj; try assumption.
  all: unfold onProcessError, resetServerState; run_open.
  all: destruct (os _ _ w) as [[] w1]; reflexivity.
Qed.

(** ** The environment of the service *)

Lemma env_get_spread_same env key value :
  env_get (spread env key value) key = Some value.
Proof.
  induction env as [| [k v] rest IH]; cbn [spread env_get].
  - rewrite String.eqb_refl. reflexivity.
  - destruct (String.eqb k key) eqn:Hk; cbn [env_get].
    + rewrite String.eqb_refl. reflexivity.
    + rewrite Hk. exact IH.
Qed.

Lemma env_get_spread_other env key value key' :
  key' <> key -> env_get (spread env key value) key' = env_get env key'.
Proof.
  intros Hne. induction env as [| [k v] rest IH]; cbn [spread env_get].
  - destruct (String.eqb_spec key key'); congruence.
  - destruct (String.eqb_spec k key) as [-> | Hk]; cbn [env_get].
    + destruct (String.eqb_spec key key'); congruence.
    + destruct (String.eqb k key'); auto.
Qed.

(** X10.  The environment handed to the service is the one of the
    application with ENV set to client and, on Windows, PYTHONIOENCODING
    set to utf-8; every other variable is passed on as it is.  The
    streams are ignore, pipe, pipe and the window is hidden. *)
Theorem spawnOptions_environment host key :
  key <> "ENV" -> key <> "PYTHONIOENCODING" ->
  let options := spawnOptions host in
  env_get (env options) key = env_get (processEnv host) key /\
  env_get (env options) "ENV" = Some "client" /\
  env_get (env options) "PYTHONIOENCODING"
  = match platform host with
    | Win32 => Some "utf-8"
    | _ => env_get (processEnv host) "PYTHONIOENCODING"
    end /\
  stdio options = [Ignore; Pipe; Pipe] /\
  windowsHide options = true.
Proof.
  intros Hk1 Hk2. cbv zeta. unfold spawnOptions.
  destruct (platform host); cbn [env stdio windowsHide]; repeat apply conj;
    try reflexivity.
  all: rewrite ?env_get_spread_same; try reflexivity.
  all: rewrite ?env_get_spread_other by congruence.
  all: rewrite ?env_get_spread_same; try reflexivity.
  all: rewrite env_get_spread_other by discriminate; reflexivity.
Qed.

Lemma spawnOptions_environment_witness :
  let options := spawnOptions windows_host in
  env_get (env options) "USERNAME" = env_get (processEnv windows_host) "USERNAME" /\
  env_get (env options) "ENV" = Some "client" /\
  env_get (env options) "PYTHONIOENCODING"
  = match platform windows_host with
    | Win32 => Some "utf-8"
    | _ => env_get (processEnv windows_host) "PYTHONIOENCODING"
    end /\
  stdio options = [Ignore; Pipe; Pipe] /\
  windowsHide options = true.
Proof.
  apply (@spawnOptions_environment windows_host "USERNAME"); discriminate.
Defined.

(** ** What the methods leave behind *)

Lemma stop_final host W (os : forall X, Os X -> W -> X * W) s w :
  final (run os (stop host) s w) = (if has_handle s then reset s else s).
Proof.
  unfold has_handle. destruct (serverProcess s) as [child |] eqn:Hchild.
  - destruct (truthy_number (pid child)) as [n |] eqn:Hpid.
    + by_wp (any_world os). apply stop_wp with (child := child) (n := n); auto.
    + by_wp (any_world os). unfold stop, resetServerState.
      wp_open. rewrite Hchild. wp_open. intros [] _. rewrite Hpid.
      wp_open. intros [] _. reflexivity.
  - unfold stop. cbn [bind this run]. rewrite Hchild. reflexivity.
Qed.

(** X11.  Only [start] ever changes the port: every other method and
    every listener ends with the port it began with, whatever the host
    answers, and [getPort] answers that port. *)
Theorem only_start_changes_the_port host W (os : forall X, Os X -> W -> X * W)
    timeout data code signal msg s w :
  port (final (run os (stop host) s w)) = port s /\
  port (final (run os (isReady timeout) s w)) = port s /\
  port (final (run os (isRunning host) s w)) = port s /\
  port (final (run os (cleanupOldProcesses host) s w)) = port s /\
  port (final (run os (cleanupServicePort host) s w)) = port s /\
  port (final (run os (onStdoutData data) s w)) = port s /\
  port (final (run os (onStderrData data) s w)) = port s /\
  port (final (run os (onExit code signal) s w)) = port s /\
  port (final (run os (onProcessError msg) s w)) = port s /\
  run os getPort s w = {| result := Ok (port s); final := s; world := w; trace := [] |}.
Proof.
  repeat apply conj.
  - rewrite stop_final. destruct (has_handle s); reflexivity.
  - destruct (isReady_run os timeout s w) as (_ & _ & ->).
    destruct (negb (serverReady s) && has_handle s && is_200 _); reflexivity.
  - by_wp (any_world os). unfold isRunning, resetServerState.
    repeat (wp_open; intros; try wp_case); reflexivity.
  - by_wp (any_world os). apply executeCleanupCommand_wp. reflexivity.
  - by_wp (any_world os).
    unfold cleanupServicePort, isPortInUse, killProcessOnPort, cleanupOldProcesses.
    wp_go; reflexivity.
  - rewrite onStdoutData_run. destruct (Js.includes data marker); reflexivity.
  - rewrite onStderrData_run.
    destruct (informational data && Js.includes data marker); reflexivity.
  - by_wp (any_world os). unfold onExit, resetServerState.
    repeat (wp_open; intros; try wp_case); reflexivity.
  - by_wp (any_world os). unfold onProcessError, resetServerState.
    repeat (wp_open; intros; try wp_case); reflexivity.
  - reflexivity.
Qed.

(** X12.  A positive answer of [isReady] is kept: once a call has
    answered true, every later call answers true at once, without a
    poll, as long as nothing resets the flag. *)
Theorem isReady_answer_is_kept W (os : forall X, Os X -> W -> X * W)
    timeout timeout' s w w' :
  result (run os (isReady timeout) s w) = Ok true ->
  let s' := final (run os (isReady timeout) s w) in
  run os (isReady timeout') s' w'
  = {| result := Ok true; final := s'; world := w'; trace := [] |}.
Proof.
  intros Htrue. cbv zeta.
  destruct (isReady_run os timeout s w) as (Hres & _ & Hfinal).
  rewrite Hres in Htrue. injection Htrue as Htrue.
  assert (Hready : serverReady (final (run os (isReady timeout) s w)) = true).
  { rewrite Hfinal. destruct (serverReady s) eqn:Hr; cbn [negb andb orb] in *.
    - exact Hr.
    - rewrite Htrue. reflexivity. }
  unfold isReady at 1. cbn [bind this run]. rewrite Hready. reflexivity.
Qed.

Lemma isReady_answer_is_kept_witness :
  let s' := final (run (scripted calm) (isReady None) warming tt) in
  run (scripted calm) (isReady (Some 5)) s' tt
  = {| result := Ok true; final := s'; world := tt; trace := [] |}.
Proof.
  exact (@isReady_answer_is_kept unit (scripted calm) None (Some 5) warming tt tt
           eq_refl).
Defined.

(** X13.  After [stop] on a manager that held a handle, whatever
    happened to the process: the fields are reset, [isRunning] and
    [isReady] answer false without asking the host, and a [start] is not
    held back by the guard but probes the port again. *)
Theorem after_stop host W (os : forall X, Os X -> W -> X * W)
    timeout p s w w' child :
  serverProcess s = Some child ->
  let s' := final (run os (stop host) s w) in
  s' = reset s /\
  run os (isRunning host) s' w'
  = {| result := Ok false; final := s'; world := w'; trace := [] |} /\
  run os (isReady timeout) s' w'
  = {| result := Ok false; final := s'; world := w'; trace := [] |} /\
  hd_error (probes (trace (run os (start host p) s' w'))) = Some (requested p s').
Proof.
  intros Hchild. cbv zeta. rewrite stop_final. unfold has_handle. rewrite Hchild.
  repeat apply conj; try reflexivity.
  destruct (start_probe_shape host os p (reset s) w' eq_refl) as [[-> _] | [-> _]];
    reflexivity.
Qed.

Lemma after_stop_witness :
  let s' := final (run (scripted stubborn) (stop linux_host) serving tt) in
  s' = reset serving /\
  run (scripted stubborn) (isRunning linux_host) s' tt
  = {| result := Ok false; final := s'; world := tt; trace := [] |} /\
  run (scripted stubborn) (isReady None) s' tt
  = {| result := Ok false; final := s'; world := tt; trace := [] |} /\
  hd_error (probes (trace (run (scripted stubborn) (start linux_host None) s' tt)))
  = Some (requested None s').
Proof.
  exact (@after_stop linux_host unit (scripted stubborn) None None serving tt tt
           the_child eq_refl).
Defined.

(** * The main process *)

(** ** Runs of sequences *)

Section MainRuns.

Variable W : Type.
Variable os : forall X, Os X -> W -> X * W.
Variable mos : forall X, MainOs X -> W -> X * W.

Lemma m_after_after {A} tr1 tr2 (o : MainOutcome W A) :
  m_after tr1 (m_after tr2 o) = m_after (tr1 ++ tr2) o.
Proof. unfold m_after. cbn. rewrite app_assoc. reflexivity. Qed.

Lemma m_after_nil {A} (o : MainOutcome W A) : m_after [] o = o.
Proof. destruct o. reflexivity. Qed.



End MainRuns.

(** ** Traces of the main process *)

Lemma on_manager_map tr : on_manager (map Of_manager tr) = tr.
Proof.
  induction tr as [| e tr IH]; [reflexivity |].
  cbn [map]. unfold on_manager in *. cbn [flat_map of_manager app]. rewrite IH.
  reflexivity.
Qed.

Lemma main_part_of_manager {A} (f : MainEvent -> list A) tr :
  (forall e, f (Of_manager e) = []) -> flat_map f (map Of_manager tr) = [].
Proof.
  intros Hf. induction tr as [| e tr IH]; [reflexivity |].
  cbn [map flat_map]. rewrite Hf, IH. reflexivity.
Qed.

Lemma on_manager_app a b : on_manager (a ++ b) = (on_manager a ++ on_manager b)%list.
Proof. apply flat_map_app. Qed.

Lemma on_manager_did {X} (c : MainOs X) x tr : on_manager (Did c x :: tr) = on_manager tr.
Proof. reflexivity. Qed.

Lemma on_manager_assigned u tr : on_manager (Assigned u :: tr) = on_manager tr.
Proof. reflexivity. Qed.

Lemma on_manager_nil : on_manager [] = [].
Proof. reflexivity. Qed.

(** Compute what a trace of the main process shows. *)
Ltac main_trace :=
  unfold waits, quits, vetoes, progress, registered, endings, complaints,
    open_dialogs, revealed in *;
  repeat (progress cbn [flat_map app waited quit_scheduled vetoed progressed
                         registered_on ended complained opened
                         revealed_path m_after
                         m_result m_final m_world m_trace with_manager with_vars
                         serverManager vars]
          || rewrite flat_map_app
          || rewrite on_manager_app
          || rewrite on_manager_did
          || rewrite on_manager_assigned
          || rewrite on_manager_nil
          || rewrite on_manager_map
          || rewrite main_part_of_manager by reflexivity
          || rewrite app_nil_r).

(** One step of a run: a call to the host is answered. *)
Ltac main_case :=
  match goal with
  | |- context [let (_, _) := ?mos ?X ?c ?w in _] =>
      let x := fresh "x" in
      let w' := fresh "w" in
      destruct (mos X c w) as [x w'] eqn:?
  end.

Ltac main_open :=
  cbn [run_main mbind mtry method var mset mcall mmay_throw log_text skip
       m_after m_result m_final m_world m_trace with_manager with_vars
       serverManager vars main_assign isQuitting isQuittingProcessed mainWindow
       loadingWindow negb andb orb].

(** ** What the methods do, seen from the main process *)

Lemma passive_flat_map {A} (f : Event -> list A) tr :
  forallb is_passive tr = true ->
  (forall e, is_passive e = true -> f e = []) -> flat_map f tr = [].
Proof.
  intros Hp Hf. induction tr as [| e rest IH]; [reflexivity |].
  cbn [forallb] in Hp. apply andb_prop in Hp as [He Hrest].
  cbn [flat_map]. rewrite (Hf e He), (IH Hrest). reflexivity.
Qed.

Lemma isReady_facts W (os : forall X, Os X -> W -> X * W) t s w :
  let o := run os (isReady (Some t)) s w in
  exists b,
    result o = Ok b /\
    forallb is_passive (trace o) = true /\
    (length (polls (trace o)) <= 1)%nat /\
    Forall (eq t) (poll_timeouts (trace o)) /\
    port (final o) = port s /\
    serverProcess (final o) = serverProcess s /\
    (b = true -> serverReady (final o) = true).
Proof.
  destruct (isReady_run os (Some t) s w) as (Hres & Htr & Hfin).
  cbv zeta in *. rewrite Hres, Htr, Hfin. eexists. split; [reflexivity |].
  unfold has_handle, timeout_or_default.
  destruct (serverReady s) eqn:Hready, (serverProcess s) as [child |] eqn:Hchild;
    cbn [orb negb andb].
  all: try destruct (is_200 _) eqn:H200.
  all: cbn; repeat split; auto; try lia; try discriminate.
  all: repeat constructor.
Qed.

Lemma isRunning_facts host W (os : forall X, Os X -> W -> X * W) s w :
  let o := run os (isRunning host) s w in
  exists b,
    result o = Ok b /\
    forallb is_passive (trace o) = true /\
    polls (trace o) = [] /\
    port (final o) = port s /\
    (if b
     then final o = s /\
          exists child n,
            serverProcess s = Some child /\ truthy_number (pid child) = Some n
     else final o = s \/ final o = reset s).
Proof.
  unfold isRunning, resetServerState. cbn [bind this run].
  destruct (serverProcess s) as [child |] eqn:Hchild;
    [| exists false; repeat split; auto].
  destruct (truthy_number (pid child)) as [n |] eqn:Hpid;
    [| exists false; repeat split; auto].
  destruct (platform host).
  1: exists true; repeat split; eauto.
  all: run_open; destruct (os _ _ w) as [[[] | e] w1].
  all: eexists; cbn; repeat split; eauto.
Qed.

Lemma wait_of_manager tr : forallb is_wait (map Of_manager tr) = true.
Proof. induction tr as [| e tr IH]; [reflexivity | exact IH]. Qed.

(** ** Waiting for the service *)

Lemma checkLoop_facts W (os : forall X, Os X -> W -> X * W)
    (mos : forall X, MainOs X -> W -> X * W) total interval remaining :
  forall i a w (Q : MainOutcome W bool -> Prop),
  (forall o,
     let tr := m_trace o in
     let k := length (waits tr) in
     waits tr = repeat interval k ->
     (k <= remaining)%nat ->
     (length (polls (on_manager tr)) <= remaining)%nat ->
     (length (polls (on_manager tr)) <= k + 1)%nat ->
     Forall (eq 2000) (poll_timeouts (on_manager tr)) ->
     (length (progress tr) <= k)%nat ->
     Forall (fun m => loadingWindow (vars a) = Some (fst (fst m)) /\ snd m = total)
       (progress tr) ->
     forallb is_passive (on_manager tr) = true ->
     forallb is_wait tr = true ->
     vars (m_final o) = vars a ->
     port (serverManager (m_final o)) = port (serverManager a) ->
     serverProcess (serverManager (m_final o)) = serverProcess (serverManager a) ->
     match m_result o with
     | Ok true => (k < remaining)%nat /\ serverReady (serverManager (m_final o)) = true
     | Ok false => k = remaining
     | Err _ => (k < remaining)%nat
     end ->
     Q o) ->
  Q (run_main os mos (checkLoop remaining i total interval) a w).
Proof.
  induction remaining as [| remaining IH]; intros i a w Q HQ.
  - cbn [checkLoop]. main_open. main_case. apply HQ; cbn; auto.
  - cbn [checkLoop].
    (* the turns after this one *)
    assert (Hrest : forall pre a' w',
      waits pre = [interval] ->
      (length (polls (on_manager pre)) <= 1)%nat ->
      Forall (eq 2000) (poll_timeouts (on_manager pre)) ->
      (length (progress pre) <= 1)%nat ->
      Forall (fun m => loadingWindow (vars a) = Some (fst (fst m)) /\ snd m = total)
        (progress pre) ->
      forallb is_passive (on_manager pre) = true ->
      forallb is_wait pre = true ->
      vars a' = vars a ->
      port (serverManager a') = port (serverManager a) ->
      serverProcess (serverManager a') = serverProcess (serverManager a) ->
      Q (m_after pre (run_main os mos (checkLoop remaining (i + 1) total interval) a' w'))).
    { intros pre a' w' Hw Hp Ht Hg Hg' Hpas Hwait Hv Hport Hproc.
      apply (IH (i + 1) a' w' (fun o' => Q (m_after pre o'))).
      intros o' tr' k' Hw' Hk' Hp' Hp'' Ht' Hg1 Hg2 Hpas' Hwait' Hv' Hport' Hproc' Hres'.
      subst tr' k'. destruct o' as [r' a'' w'' tr'].
      cbn [m_result m_final m_world m_trace] in *.
      apply HQ; cbn [m_after m_result m_final m_world m_trace].
      - unfold waits in *. rewrite flat_map_app, Hw. cbn [app length repeat].
        f_equal. exact Hw'.
      - unfold waits in *. rewrite flat_map_app, Hw. cbn [app length]. lia.
      - rewrite on_manager_app. unfold polls in *. rewrite flat_map_app, length_app. lia.
      - rewrite on_manager_app. unfold polls, waits in *.
        rewrite !flat_map_app, length_app, Hw. cbn [app length]. lia.
      - rewrite on_manager_app. unfold poll_timeouts in *. rewrite flat_map_app.
        apply Forall_app. auto.
      - unfold progress, waits in *. rewrite !flat_map_app, length_app, Hw.
        cbn [app length]. lia.
      - unfold progress in *. rewrite flat_map_app. apply Forall_app. split; auto.
        rewrite <- Hv. exact Hg2.
      - rewrite on_manager_app, forallb_app, Hpas, Hpas'. reflexivity.
      - rewrite forallb_app, Hwait, Hwait'. reflexivity.
      - congruence.
      - congruence.
      - congruence.
      - unfold waits in *. rewrite flat_map_app, Hw. cbn [app length].
        destruct r' as [[|] | e]; [destruct Hres'; split; [lia | auto] | lia | lia]. }
    (* the turn, after its first log line *)
    assert (Hturn : forall w0 pre0,
      waits pre0 = [] -> on_manager pre0 = [] -> progress pre0 = [] ->
      forallb is_wait pre0 = true ->
      Q (m_after pre0
           (run_main os mos
              (returned <--
               mtry
                 (ready <-- method (isReady (Some 2000));;;
                  (if ready : bool
                   then log_text LInfo "后端服务已准备就绪";;; MRet (Some true)
                   else MRet None))
                 (fun error =>
                    mcall (log_write LError "检查服务就绪状态出错:" (Some error));;;
                    MRet None);;;
               match returned with
               | Some answer => MRet answer
               | None =>
                   lw <-- var loadingWindow;;;
                   shown <--
                     match lw with
                     | None => MRet None
                     | Some window =>
                         there <-- mmay_throw (window_webContents window);;;
                         MRet (if there : bool then Some window else None)
                     end;;;
                   match shown with
                   | Some window =>
                       mtry
                         (mmay_throw (send_loading_progress window i total);;;
                          if Z.rem i 10 =? 0
                          then log_text LInfo
                                 ("已发送进度更新: " ++ Js.toString i ++ "/"
                                  ++ Js.toString total)
                          else skip)
                         (fun error =>
                            mcall (log_write LError "发送进度更新失败:" (Some error)))
                   | None =>
                       log_text LInfo "无法发送进度更新，loadingWindow不存在或已关闭"
                   end;;;
                   mcall (sleep interval);;;
                   checkLoop remaining (i + 1) total interval
               end) a w0))).
    { intros w0 pre0 Hw0 Hm0 Hp0 Hwait0. main_open. cbv zeta.
      destruct (isReady_facts os 2000 (serverManager a) w0)
        as (b & Hres & Hpassive & Hpolls & Htimeouts & Hport & Hproc & Hready).
      rewrite Hres.
      set (o1 := run os (isReady (Some 2000)) (serverManager a) w0) in *.
      destruct b; main_open.
      { main_case. apply HQ; main_trace; rewrite ?Hw0, ?Hm0, ?Hp0;
          cbn [app length repeat]; rewrite ?app_nil_r;
          rewrite ?forallb_app, ?Hwait0, ?wait_of_manager; cbn [forallb is_wait andb];
          auto; try lia.
        split; [lia | auto]. }
      destruct (loadingWindow (vars a)) as [window |] eqn:Hlw; main_open.
      - main_case. destruct x as [there | e]; main_open.
        + destruct there; main_open.
          * main_case. destruct x as [[] | e]; main_open.
            -- destruct (Z.rem i 10 =? 0); main_open; repeat main_case;
                 rewrite ?m_after_after; apply Hrest; main_trace;
                 rewrite ?Hw0, ?Hm0, ?Hp0; cbn [app length]; rewrite ?app_nil_r;
          rewrite ?forallb_app, ?Hwait0, ?wait_of_manager; cbn [forallb is_wait andb];
          auto.
               all: repeat constructor; auto.
            -- repeat main_case.
               rewrite ?m_after_after; apply Hrest; main_trace;
                 rewrite ?Hw0, ?Hm0, ?Hp0; cbn [app length]; rewrite ?app_nil_r;
          rewrite ?forallb_app, ?Hwait0, ?wait_of_manager; cbn [forallb is_wait andb];
          auto.
               all: repeat constructor; auto.
          * repeat main_case.
            rewrite ?m_after_after; apply Hrest; main_trace;
              rewrite ?Hw0, ?Hm0, ?Hp0; cbn [app length]; rewrite ?app_nil_r;
          rewrite ?forallb_app, ?Hwait0, ?wait_of_manager; cbn [forallb is_wait andb];
          auto.
        + apply HQ; main_trace; rewrite ?Hw0, ?Hm0, ?Hp0;
            cbn [app length repeat]; rewrite ?app_nil_r;
          rewrite ?forallb_app, ?Hwait0, ?wait_of_manager; cbn [forallb is_wait andb];
          auto; try lia.
      - repeat main_case.
        rewrite ?m_after_after; apply Hrest; main_trace;
          rewrite ?Hw0, ?Hm0, ?Hp0; cbn [app length]; rewrite ?app_nil_r;
          rewrite ?forallb_app, ?Hwait0, ?wait_of_manager; cbn [forallb is_wait andb];
          auto. }
    destruct (Z.rem i 10 =? 0) eqn:Hten.
    + main_open. main_case.
      cbn [mbind mtry] in Hturn. apply (Hturn w0 [Did _ x]); reflexivity.
    + main_open. rewrite <- (m_after_nil (run_main _ _ _ _ _)).
      cbn [mbind mtry] in Hturn. apply (Hturn w []); reflexivity.
Qed.

Lemma no_poll_no_timeout tr : polls tr = [] -> poll_timeouts tr = [].
Proof.
  unfold polls, poll_timeouts. induction tr as [| e tr IH]; [reflexivity |].
  cbn [flat_map]. intros H. apply app_eq_nil in H as [He Htr].
  rewrite (IH Htr), app_nil_r.
  destruct e as [X c x | u]; [| reflexivity].
  destruct c; try reflexivity. discriminate.
Qed.

Lemma checkBackendReady_facts host W (os : forall X, Os X -> W -> X * W)
    (mos : forall X, MainOs X -> W -> X * W) n interval a w
    (Q : MainOutcome W bool -> Prop) :
  (forall o,
     let tr := m_trace o in
     let k := length (waits tr) in
     let s := serverManager a in
     let s' := serverManager (m_final o) in
     waits tr = repeat interval k ->
     (k <= n)%nat ->
     (length (polls (on_manager tr)) <= n)%nat ->
     (length (polls (on_manager tr)) <= k + 1)%nat ->
     Forall (eq 2000) (poll_timeouts (on_manager tr)) ->
     (length (progress tr) <= k)%nat ->
     Forall (fun m => loadingWindow (vars a) = Some (fst (fst m)) /\
                      snd m = Z.of_nat n) (progress tr) ->
     forallb is_passive (on_manager tr) = true ->
     forallb is_wait tr = true ->
     vars (m_final o) = vars a ->
     port s' = port s ->
     (serverProcess s' = serverProcess s \/ serverProcess s' = None) ->
     (serverProcess s' = None -> m_result o = Ok false /\ tr <> [] /\
        waits tr = [] /\ polls (on_manager tr) = [] /\ progress tr = []) ->
     match m_result o with
     | Ok true => (k < n)%nat /\ serverReady s' = true
     | Ok false => waits tr = [] /\ polls (on_manager tr) = [] \/ k = n
     | Err _ => (k < n)%nat
     end ->
     Q o) ->
  Q (run_main os mos (checkBackendReady host n interval) a w).
Proof.
  intros HQ. unfold checkBackendReady. main_open. main_case. cbv zeta.
  destruct (isRunning_facts host os (serverManager a) w0)
    as (b & Hres & Hpassive & Hpolls & Hport & Hfinal).
  rewrite Hres.
  set (o1 := run os (isRunning host) (serverManager a) w0) in *.
  destruct b; main_open.
  - destruct Hfinal as (Hfinal & child & pid & Hchild & Hpid).
    rewrite !m_after_after.
    match goal with
    | |- Q (m_after ?pre _) =>
        apply (@checkLoop_facts _ os mos (Z.of_nat n) interval n 0
                 (with_manager a (final o1)) (world o1)
                 (fun o' => Q (m_after pre o')))
    end.
    intros o' tr' k' Hw' Hk' Hp' Hp'' Ht' Hg1 Hg2 Hpas' Hwait' Hv' Hport' Hproc' Hres'.
    subst tr' k'. destruct o' as [r' a'' w'' tr'].
    cbn [m_result m_final m_world m_trace with_manager serverManager vars] in *.
    rewrite Hfinal in *.
    assert (Hp1 : polls (trace o1 ++ on_manager tr') = polls (on_manager tr')).
    { unfold polls in *. rewrite flat_map_app, Hpolls. reflexivity. }
    apply HQ; main_trace; cbn [app length]; rewrite ?Hp1; auto.
    + unfold poll_timeouts in *. rewrite flat_map_app. apply Forall_app. split; auto.
      fold (poll_timeouts (trace o1)). rewrite (no_poll_no_timeout _ Hpolls).
      constructor.
    + rewrite forallb_app, Hpassive, Hpas'. reflexivity.
    + cbn [forallb is_wait andb]. rewrite forallb_app, wait_of_manager. exact Hwait'.
    + intros Hnone. congruence.
    + destruct r' as [[|] | e]; auto.
  - main_case.
    apply HQ; main_trace; cbn [app length repeat]; rewrite ?app_nil_r; auto; try lia.
    + rewrite Hpolls. cbn. lia.
    + rewrite Hpolls. cbn. lia.
    + rewrite (no_poll_no_timeout _ Hpolls). constructor.
    + cbn [forallb is_wait andb]. rewrite forallb_app, wait_of_manager. reflexivity.
    + destruct Hfinal as [-> | ->]; auto.
    + intros _. repeat split; auto. discriminate.
Qed.

(** [start] as its callers see it. *)
Lemma start_facts host W (os : forall X, Os X -> W -> X * W) p s w :
  let o := run os (start host p) s w in
  result o = Ok tt /\
  polls (trace o) = [] /\
  kills (trace o) = [] /\
  (if has_handle s
   then final o = s /\ processes (trace o) = []
   else (port (final o) = requested p s \/ port (final o) = requested p s + 1) /\
        (serverProcess (final o) = None /\ processes (trace o) = [] \/
         exists child,
           serverProcess (final o) = Some child /\ processes (trace o) = [child])).
Proof.
  by_wp (any_world os).
  unfold start, requested, has_handle, prepareForStart, spawnServerProcess,
    getServerPath, setupProcessListeners, isPortInUse, killProcessOnPort,
    cleanupOldProcesses.
  destruct s as [sp p0 ready]. destruct sp as [child |].
  - wp_open. intros [] _. repeat split.
  - wp_go.
    all: units.
    all: trace_more.
    all: cbn [port serverProcess]; repeat split; eauto.
Qed.

Lemma no_spawn_no_process tr : spawned tr = [] -> processes tr = [].
Proof.
  unfold spawned, processes. induction tr as [| e tr IH]; [reflexivity |].
  cbn [flat_map]. intros H. apply app_eq_nil in H as [He Htr].
  rewrite (IH Htr), app_nil_r.
  destruct e as [X c x | u]; [| reflexivity].
  destruct c; try reflexivity. destruct options; [discriminate | reflexivity].
Qed.

(** [stop] as its callers see it. *)
Lemma stop_facts host W (os : forall X, Os X -> W -> X * W) s w :
  let o := run os (stop host) s w in
  (exists b, result o = Ok b) /\
  final o = (if has_handle s then reset s else s) /\
  (length (kills (trace o)) <= maxKillAttempts)%nat /\
  processes (trace o) = [] /\
  (has_handle s = false -> trace o = []).
Proof.
  by_wp (any_world os). unfold stop, attemptToStopProcess, resetServerState, has_handle.
  wp_open. destruct (serverProcess s) as [child |] eqn:Hchild; wp_open.
  2: { repeat apply conj; eauto. cbn. lia. }
  intros [] _. destruct (truthy_number (pid child)) as [n |] eqn:Hpid; wp_open.
  2: { intros [] _. repeat apply conj; eauto; try discriminate. cbn. lia. }
  apply stopLoop_bounds with (child := child); eauto using truthy_number_nonzero.
  intros tr b k Hk Hkill Hlen Hall Hcmd Hsp Hpr.
  repeat apply conj; eauto.
  - trace_more. unfold kills in Hkill. rewrite Hkill.
    clear - Hk. revert Hk. generalize 1. generalize maxKillAttempts.
    induction k as [| k IH]; intros m z Hk; cbn [escalation length]; [lia |].
    destruct m; [lia |]. specialize (IH m (z + 1)). lia.
  - apply no_spawn_no_process. trace_more. reflexivity.
  - discriminate.
Qed.

(** With a pid to signal, [stop] answers true. *)
Lemma stop_with_pid host W (os : forall X, Os X -> W -> X * W) s w child n :
  serverProcess s = Some child -> truthy_number (pid child) = Some n ->
  result (run os (stop host) s w) = Ok true.
Proof.
  intros Hchild Hpid. by_wp (any_world os).
  apply stop_wp with (child := child) (n := n); auto.
Qed.

(** X14.  [checkBackendReady], whatever the host answers, run with
    nothing else in between.  It waits [interval] each time and at most
    [maxAttempts] times; it polls the health endpoint at most once per
    turn, with a timeout of 2000 ms; it sends at most one progress
    message per wait; it leaves the manager in peace and keeps the port
    and the module variables.  It answers true before the last wait and
    only with the manager's flag set; it answers false either at once,
    without a poll, or after all the waits; it throws only before the
    last wait.  Without a handle it answers false at once. *)
Theorem checkBackendReady_is_bounded host W (os : forall X, Os X -> W -> X * W)
    (mos : forall X, MainOs X -> W -> X * W) maxAttempts interval a w :
  let o := run_main os mos (checkBackendReady host maxAttempts interval) a w in
  let tr := m_trace o in
  let k := length (waits tr) in
  waits tr = repeat interval k /\
  (length (polls (on_manager tr)) <= Nat.min maxAttempts (k + 1))%nat /\
  Forall (eq 2000) (poll_timeouts (on_manager tr)) /\
  (length (progress tr) <= k)%nat /\
  forallb is_passive (on_manager tr) = true /\
  vars (m_final o) = vars a /\
  port (serverManager (m_final o)) = port (serverManager a) /\
  match m_result o with
  | Ok true =>
      (k < maxAttempts)%nat /\ serverReady (serverManager (m_final o)) = true
  | Ok false => waits tr = [] /\ polls (on_manager tr) = [] \/ k = maxAttempts
  | Err _ => (k < maxAttempts)%nat
  end /\
  (if has_handle (serverManager a) then True
   else m_result o = Ok false /\ waits tr = [] /\ polls (on_manager tr) = []).
Proof.
  cbv zeta. apply checkBackendReady_facts.
  intros o tr k s s' Hw Hk Hp Hp' Ht Hg Hg' Hpas Hwait Hv Hport Hproc Hnone Hres.
  repeat apply conj; auto.
  - apply Nat.min_glb; assumption.
  - unfold has_handle. fold s. destruct (serverProcess s) eqn:Hs; [exact I |].
    destruct Hnone as (? & ? & ? & ? & ?); auto.
    destruct Hproc; congruence.
Qed.


(** ** Restarting and quitting *)

Lemma handle_after_stop host W (os : forall X, Os X -> W -> X * W) s w :
  has_handle (final (run os (stop host) s w)) = false.
Proof.
  destruct (stop_facts host os s w) as (_ & -> & _).
  unfold has_handle. destruct (serverProcess s) eqn:Hs; cbn; rewrite ?Hs; reflexivity.
Qed.

(** X16.  The restart-backend-server handler, whatever the host answers:
    it always answers success, with the port the manager ends on, which
    is the old port or the next one, and with running true only when the
    manager ends with a handle; it waits once, 1000 ms; it sends at most
    three kills and creates at most one process; the handle at the end, if
    there is one, is the process created by this restart, never the old
    one. *)
Theorem restartBackendServer_reply host W (os : forall X, Os X -> W -> X * W)
    (mos : forall X, MainOs X -> W -> X * W) a w :
  let o := run_main os mos (restartBackendServer host) a w in
  let tr := m_trace o in
  let s := serverManager a in
  let s' := serverManager (m_final o) in
  (exists running,
     m_result o = Ok (Restarted (port s') running) /\
     (if running then has_handle s' = true else True)) /\
  (port s' = port s \/ port s' = port s + 1) /\
  waits tr = [1000] /\
  (length (kills (on_manager tr)) <= 3)%nat /\
  (length (processes (on_manager tr)) <= 1)%nat /\
  match serverProcess s' with
  | None => True
  | Some child => processes (on_manager tr) = [child]
  end /\
  vars (m_final o) = vars a.
Proof.
  cbv zeta. unfold restartBackendServer. main_open. cbv zeta.
  destruct (stop_facts host os (serverManager a) w)
    as ((b & Hres) & Hfin & Hkills & Hproc & _).
  pose proof (handle_after_stop host os (serverManager a) w) as Hnone.
  assert (Hport1 : port (final (run os (stop host) (serverManager a) w))
                   = port (serverManager a)).
  { rewrite Hfin. destruct (has_handle _); reflexivity. }
  rewrite Hres. clear Hfin.
  set (o1 := run os (stop host) (serverManager a) w) in *.
  main_open. main_case. cbv zeta.
  destruct (start_facts host os None (final o1) w0) as (Hres2 & Hpolls2 & Hkills2 & Hshape).
  rewrite Hnone in Hshape. rewrite Hres2. cbn [requested] in Hshape.
  set (o2 := run os (start host None) (final o1) w0) in *.
  main_open.
  change (run os getPort (final o2) (world o2))
    with {| result := Ok (port (final o2)); final := final o2; world := world o2;
            trace := [] |}.
  cbn [result final world trace map]. main_open.
  destruct (isRunning_facts host os (final o2) (world o2))
    as (b3 & Hres3 & Hpassive3 & Hpolls3 & Hport3 & Hfinal3).
  rewrite Hres3.
  set (o3 := run os (isRunning host) (final o2) (world o2)) in *.
  main_open. main_trace.
  assert (Hquiet : processes (trace o3) = [] /\ kills (trace o3) = []).
  { split; apply passive_flat_map; auto.
    all: intros [X c y | u]; [destruct c |]; cbn; congruence. }
  destruct Hquiet as [Hproc3 Hkills3].
  unfold kills, processes in *. rewrite !flat_map_app.
  rewrite Hproc, Hproc3, Hkills2, Hkills3, !app_nil_r. cbn [app].
  destruct Hshape as [Hport2 Hhandle].
  repeat apply conj.
  - exists b3. rewrite Hport3. split; [reflexivity |].
    destruct b3; [| exact I]. destruct Hfinal3 as (-> & child & n & Hchild & _).
    unfold has_handle. rewrite Hchild. reflexivity.
  - rewrite Hport3, <- Hport1. exact Hport2.
  - reflexivity.
  - exact Hkills.
  - destruct Hhandle as [[_ ->] | (child & _ & ->)]; cbn; lia.
  - assert (Hsame : serverProcess (final o3) = None \/
                    serverProcess (final o3) = serverProcess (final o2)).
    { destruct b3.
      - destruct Hfinal3 as [-> _]. auto.
      - destruct Hfinal3 as [-> | ->]; auto. }
    destruct Hsame as [-> | ->]; [exact I |].
    destruct Hhandle as [[-> _] | (child & -> & ->)]; auto.
  - reflexivity.
Qed.

(** X17.  The restart-app handler, whatever the host answers.  It logs,
    sets isQuitting and asks [isRunning] once.  Exactly when the answer
    is true it calls [stop] and, after [stop] has ended and so after all
    its kills, waits once, 1000 ms; the manager then ends without a
    handle.  When the answer is false it does not call [stop] and does
    not wait.  In both cases it then logs, relaunches once and exits once
    with code 0, in this order and as the last thing it does.  It never
    throws, never writes its error line, leaves isQuittingProcessed as it
    was, and at most three kills are sent. *)
Theorem restartApp_contract host W (os : forall X, Os X -> W -> X * W)
    (mos : forall X, MainOs X -> W -> X * W) a w :
  let o := run_main os mos (restartApp host) a w in
  let tr := m_trace o in
  let asked := log_write LInfo "收到重启应用请求，正在关闭后端服务..." None in
  let o1 := run os (isRunning host) (serverManager a) (snd (mos _ asked w)) in
  let o2 := run os (stop host) (final o1) (world o1) in
  let running := match result o1 with Ok true => true | _ => false end in
  m_result o = Ok tt /\
  tr = ([Did asked tt; Assigned (Set_isQuitting true)]
        ++ map Of_manager (trace o1)
        ++ (if running
            then map Of_manager (trace o2) ++ [Did (sleep 1000) tt]
            else [])
        ++ [Did (log_write LInfo "后端服务已关闭，准备重启应用..." None) tt;
            Did app_relaunch tt; Did (app_exit 0) tt])%list /\
  kills (trace o1) = [] /\
  (length (kills (trace o2)) <= 3)%nat /\
  serverManager (m_final o) = (if running then final o2 else final o1) /\
  (if running then serverProcess (final o2) = None else True) /\
  complaints tr = [] /\
  endings tr = [Relaunch; ExitWith 0] /\
  waits tr = (if running then [1000] else []) /\
  isQuitting (vars (m_final o)) = true /\
  isQuittingProcessed (vars (m_final o)) = isQuittingProcessed (vars a).
Proof.
  cbv zeta. unfold restartApp. main_open. main_case. cbn [snd]. cbv zeta.
  destruct (isRunning_facts host os (serverManager a) w0)
    as (b & Hres & Hpassive & Hpolls & Hport & Hfinal).
  rewrite Hres.
  set (o1 := run os (isRunning host) (serverManager a) w0) in *.
  assert (Hkills1 : kills (trace o1) = []).
  { apply passive_flat_map; auto.
    intros [X c y | u]; [destruct c |]; cbn; congruence. }
  destruct (stop_facts host os (final o1) (world o1))
    as ((b2 & Hres2) & Hfin2 & Hkills2 & Hproc2 & _).
  pose proof (handle_after_stop host os (final o1) (world o1)) as Hnone.
  destruct b; main_open; cbv zeta.
  - rewrite Hres2.
    set (o2 := run os (stop host) (final o1) (world o1)) in *.
    main_open. repeat main_case. units. main_trace.
    repeat apply conj; try reflexivity; auto.
    + cbn [app]. do 2 f_equal. rewrite <- !app_assoc. reflexivity.
    + unfold has_handle in Hnone. destruct (serverProcess (final o2)); congruence.
  - repeat main_case. units. main_trace.
    repeat apply conj; try reflexivity; auto.
Qed.

Lemma passive_no_kill tr : forallb is_passive tr = true -> kills tr = [].
Proof.
  intros Hp. apply passive_flat_map; auto.
  intros [X c y | u]; [destruct c |]; cbn; congruence.
Qed.

(** X18.  The before-quit listener, whatever the host answers.  Once the
    quit has been processed it does nothing.  Otherwise it sets both
    flags and never throws; it either vetoes nothing, schedules nothing
    and sends no kill, or vetoes the quit once and schedules one new
    quit, 500 ms later: then the veto comes before any kill, at most
    three kills are sent and the manager ends without a handle.  It never
    writes its warning that the service could not be stopped, nor its
    error line. *)
Theorem beforeQuit_contract host W (os : forall X, Os X -> W -> X * W)
    (mos : forall X, MainOs X -> W -> X * W) a w :
  let o := run_main os mos (beforeQuit host) a w in
  let tr := m_trace o in
  if isQuittingProcessed (vars a)
  then o = {| m_result := Ok tt; m_final := a; m_world := w; m_trace := [] |}
  else
    m_result o = Ok tt /\
    isQuitting (vars (m_final o)) = true /\
    isQuittingProcessed (vars (m_final o)) = true /\
    complaints tr = [] /\
    (length (kills (on_manager tr)) <= 3)%nat /\
    (vetoes tr = [] /\ quits tr = [] /\ kills (on_manager tr) = [] \/
     vetoes tr = [tt] /\ quits tr = [500] /\
     serverProcess (serverManager (m_final o)) = None /\
     exists before rest,
       tr = (before ++ Did event_preventDefault tt :: rest)%list /\
       kills (on_manager before) = []).
Proof.
  cbv zeta. unfold beforeQuit. main_open.
  destruct (isQuittingProcessed (vars a)) eqn:Hdone; [reflexivity |].
  main_open. main_case. cbv zeta.
  destruct (isRunning_facts host os (serverManager a) w0)
    as (b & Hres & Hpassive & Hpolls & Hport & Hfinal).
  rewrite Hres.
  set (o1 := run os (isRunning host) (serverManager a) w0) in *.
  pose proof (passive_no_kill _ Hpassive) as Hkills1.
  destruct b; main_open; cbv zeta.
  - main_case. cbv zeta.
    destruct Hfinal as (Hfinal & child & n & Hchild & Hpid).
    destruct (stop_facts host os (final o1) w1)
      as (_ & Hfin2 & Hkills2 & Hproc2 & _).
    pose proof (handle_after_stop host os (final o1) w1) as Hnone.
    rewrite (@stop_with_pid host W os (final o1) w1 child n) by congruence.
    set (o2 := run os (stop host) (final o1) w1) in *.
    main_open. main_case. units. main_trace.
    unfold kills in *. rewrite !flat_map_app, Hkills1. cbn [app flat_map].
    rewrite ?app_nil_r.
    repeat apply conj; try reflexivity; [exact Hkills2 |].
    right. repeat apply conj; try reflexivity.
    + unfold has_handle in Hnone. destruct (serverProcess (final o2)); congruence.
    + exists (Did (log_write LInfo "应用退出，正在关闭后端服务..." None) tt
              :: Assigned (Set_isQuitting true)
              :: Assigned (Set_isQuittingProcessed true)
              :: map Of_manager (trace o1))%list.
      exists (map Of_manager (trace o2) ++ [Did (quit_after 500) tt])%list.
      split; [reflexivity |].
      main_trace. exact Hkills1.
  - units. main_trace. unfold kills in *. rewrite ?app_nil_r, Hkills1.
    repeat apply conj; try reflexivity; [cbn; lia |].
    left. repeat split.
Qed.

(** X19.  The quit entry of the tray menu, whatever the host answers.
    Once the quit has been processed it does nothing.  Otherwise it sets
    both flags, never throws and never writes its error line; it vetoes
    nothing; it schedules the quit once, 300 ms later, as the last thing
    it does, after at most three kills. *)
Theorem trayQuit_contract host W (os : forall X, Os X -> W -> X * W)
    (mos : forall X, MainOs X -> W -> X * W) a w :
  let o := run_main os mos (trayQuit host) a w in
  let tr := m_trace o in
  if isQuittingProcessed (vars a)
  then o = {| m_result := Ok tt; m_final := a; m_world := w; m_trace := [] |}
  else
    m_result o = Ok tt /\
    isQuitting (vars (m_final o)) = true /\
    isQuittingProcessed (vars (m_final o)) = true /\
    complaints tr = [] /\
    vetoes tr = [] /\
    (length (kills (on_manager tr)) <= 3)%nat /\
    exists before,
      tr = (before ++ [Did (quit_after 300) tt])%list /\ quits before = [].
Proof.
  cbv zeta. unfold trayQuit. main_open.
  destruct (isQuittingProcessed (vars a)) eqn:Hdone; [reflexivity |].
  main_open. main_case. cbv zeta.
  destruct (isRunning_facts host os (serverManager a) w0)
    as (b & Hres & Hpassive & Hpolls & Hport & Hfinal).
  rewrite Hres.
  set (o1 := run os (isRunning host) (serverManager a) w0) in *.
  pose proof (passive_no_kill _ Hpassive) as Hkills1.
  destruct b; main_open; cbv zeta.
  - main_case. cbv zeta.
    destruct (stop_facts host os (final o1) w1)
      as ((b2 & Hres2) & Hfin2 & Hkills2 & Hproc2 & _).
    rewrite Hres2.
    set (o2 := run os (stop host) (final o1) w1) in *.
    main_open. main_case. units. main_trace.
    unfold kills in *. rewrite !flat_map_app, Hkills1. cbn [app flat_map].
    rewrite ?app_nil_r.
    repeat apply conj; try reflexivity; [exact Hkills2 |].
    exists (Assigned (Set_isQuitting true)
            :: Assigned (Set_isQuittingProcessed true)
            :: Did (log_write LInfo "托盘菜单触发退出: 正在关闭应用..." None) tt
            :: map Of_manager (trace o1)
               ++ Did (log_write LInfo "托盘菜单退出: 正在关闭后端服务..." None) tt
                  :: map Of_manager (trace o2))%list.
    split.
    + cbn [app]. do 3 f_equal. rewrite <- !app_assoc. reflexivity.
    + main_trace. reflexivity.
  - main_case. units. main_trace. unfold kills in *. rewrite ?app_nil_r, Hkills1.
    repeat apply conj; try reflexivity; [cbn; lia |].
    exists (Assigned (Set_isQuitting true)
            :: Assigned (Set_isQuittingProcessed true)
            :: Did (log_write LInfo "托盘菜单触发退出: 正在关闭应用..." None) tt
            :: map Of_manager (trace o1))%list.
    split; [reflexivity |]. main_trace. reflexivity.
Qed.

(** A first quit sets both flags. *)
Lemma quit_sets_flags host W (os : forall X, Os X -> W -> X * W)
    (mos : forall X, MainOs X -> W -> X * W) path a w :
  isQuittingProcessed (vars a) = false ->
  let a' := m_final (run_main os mos (quit_handler host path) a w) in
  isQuitting (vars a') = true /\ isQuittingProcessed (vars a') = true.
Proof.
  intros Hfresh. cbv zeta.
  destruct path; cbn [quit_handler]; unfold trayQuit, beforeQuit; main_open;
    rewrite Hfresh; main_open; main_case; cbv zeta.
  all: destruct (isRunning_facts host os (serverManager a) w0) as (b & Hres & _).
  all: rewrite Hres; destruct b; main_open; cbv zeta; try (split; reflexivity).
  all: main_case; cbv zeta; try (split; reflexivity).
  all: destruct (stop_facts host os (final (run os (isRunning host) (serverManager a) w0))
                   w1) as ((b2 & Hres2) & _).
  all: rewrite Hres2; main_open; try destruct b2; main_open; repeat main_case.
  all: split; reflexivity.
Qed.

(** X20.  The quit is processed once.  After the first of the two
    handlers that quit, the tray entry or the before-quit listener, has
    run, in whatever world, each of them does nothing at all when it runs
    again, and the close listener of the main window answers true without
    a veto and without hiding the window. *)
Theorem quit_is_processed_once host W (os : forall X, Os X -> W -> X * W)
    (mos : forall X, MainOs X -> W -> X * W) first again a w w' :
  isQuittingProcessed (vars a) = false ->
  let a' := m_final (run_main os mos (quit_handler host first) a w) in
  run_main os mos (quit_handler host again) a' w'
  = {| m_result := Ok tt; m_final := a'; m_world := w'; m_trace := [] |} /\
  run_main os mos onMainWindowClose a' w'
  = {| m_result := Ok true; m_final := a'; m_world := w'; m_trace := [] |}.
Proof.
  intros Hfresh. cbv zeta.
  assert (Hflags :
    isQuitting (vars (m_final (run_main os mos (quit_handler host first) a w))) = true /\
    isQuittingProcessed
      (vars (m_final (run_main os mos (quit_handler host first) a w))) = true).
  { apply quit_sets_flags, Hfresh. }
  destruct Hflags as [Hq Hp].
  split.
  - destruct again; cbn [quit_handler]; unfold trayQuit, beforeQuit; main_open;
      rewrite Hp; reflexivity.
  - unfold onMainWindowClose. main_open. rewrite Hq. reflexivity.
Qed.

Lemma quit_is_processed_once_witness :
  let a' := m_final (run_main (scripted calm) (main_scripted obliging)
                       (quit_handler linux_host FromTray) (app_of serving) tt) in
  run_main (scripted calm) (main_scripted obliging) (quit_handler linux_host FromEvent)
    a' tt
  = {| m_result := Ok tt; m_final := a'; m_world := tt; m_trace := [] |} /\
  run_main (scripted calm) (main_scripted obliging) onMainWindowClose a' tt
  = {| m_result := Ok true; m_final := a'; m_world := tt; m_trace := [] |}.
Proof.
  exact (@quit_is_processed_once linux_host unit (scripted calm)
           (main_scripted obliging) FromTray FromEvent (app_of serving) tt tt eq_refl).
Defined.

(** ** The file dialogs *)

Lemma array_includes_In l x : array_includes l x = true <-> In x l.
Proof.
  unfold array_includes. rewrite existsb_exists. split.
  - intros (y & Hy & Heq). apply String.eqb_eq in Heq. subst y. exact Hy.
  - intros Hx. exists x. split; [exact Hx | apply String.eqb_refl].
Qed.

(** [if (!l.includes(x)) l.push(x)] *)
Lemma push_when_missing l x :
  (if negb (array_includes l x) then (l ++ [x])%list else l)
  = (if in_dec string_dec x l then l else (l ++ [x])%list).
Proof.
  destruct (in_dec string_dec x l) as [Hin | Hout].
  - apply array_includes_In in Hin. rewrite Hin. reflexivity.
  - destruct (array_includes l x) eqn:Hinc; [| reflexivity].
    apply array_includes_In in Hinc. contradiction.
Qed.

(** X21.  The handlers of select-files and select-folders, whatever is
    passed and whatever the host answers.  Without a main window they
    answer null and show nothing.  With one they show exactly one dialog,
    on the main window.  Its properties are the array passed, if one was
    passed, and the default pair otherwise, as it is when it contains
    multiSelections and with multiSelections added at the end when it
    does not; so they always contain multiSelections, and a passed array
    replaces the defaults: openFile or openDirectory is not added to
    it. *)
Theorem multiSelections_is_ensured basename W (os : forall X, Os X -> W -> X * W)
    (mos : forall X, MainOs X -> W -> X * W) options a w :
  let passed := read (properties (or_default options no_options)) in
  let shows A (o : MainOutcome W (option A)) (default : list string) :=
    match mainWindow (vars a) with
    | None => m_result o = Ok None /\ m_trace o = []
    | Some window =>
        let given := or_default passed default in
        exists shown l,
          open_dialogs (m_trace o) = [(window, shown)] /\
          properties shown = Present (Some l) /\
          l = (if in_dec string_dec "multiSelections" given
               then given
               else (given ++ ["multiSelections"])%list) /\
          In "multiSelections" l
    end in
  shows _ (run_main os mos (handleDialog (selectFiles basename) options) a w)
    ["openFile"; "multiSelections"] /\
  shows _ (run_main os mos (handleDialog selectFolders options) a w)
    ["openDirectory"; "multiSelections"].
Proof.
  cbv zeta. unfold handleDialog, selectFiles, selectFolders. main_open.
  destruct (mainWindow (vars a)) as [window |]; [| repeat split; reflexivity].
  main_open. split.
  all: main_case; destruct x as [[canceled filePaths] | e]; main_open.
  all: try (destruct (canceled || (length filePaths =? 0)%nat); main_open).
  all: try main_case.
  all: main_trace.
  all: eexists; eexists; split; [reflexivity |]; split; [reflexivity |].
  all: rewrite push_when_missing; split; [reflexivity |].
  all: match goal with
       | |- In ?x (if in_dec string_dec ?x ?l then _ else _) =>
           destruct (in_dec string_dec x l) as [Hin | Hout];
           [exact Hin | apply in_or_app; right; left; reflexivity]
       end.
Qed.

(** X22.  What the dialog functions answer, whatever is passed and
    whatever the host answers.  None of them throws or touches the
    module variables.  Each answers null when the dialog rejects, when it
    was canceled and when nothing was chosen.  Otherwise [selectFile] and
    [selectFolder] answer the first path only, also when several were
    chosen; [selectFiles] and [selectFolders] answer all the paths in
    order; [selectFile] and [selectFiles] pair each path with its
    basename; [saveFile] answers the path. *)
Theorem dialog_answers basename W (os : forall X, Os X -> W -> X * W)
    (mos : forall X, MainOs X -> W -> X * W) window options a w :
  let named path := {| filePath := path; fileName := basename path |} in
  let chosen (shown : Options) : list string :=
    match fst (mos _ (dialog_showOpenDialog window shown) w) with
    | Ok (false, paths) => paths
    | _ => []
    end in
  let saved (shown : Options) : option string :=
    match fst (mos _ (dialog_showSaveDialog window shown) w) with
    | Ok (false, Some path) => if Js.truthy path then Some path else None
    | _ => None
    end in
  (exists shown,
     let o := run_main os mos (selectFile basename window options) a w in
     m_final o = a /\
     m_result o = Ok (option_map named (hd_error (chosen shown)))) /\
  (exists shown,
     let o := run_main os mos (selectFiles basename window options) a w in
     m_final o = a /\
     m_result o = Ok (match chosen shown with
                      | [] => None
                      | paths => Some (map named paths)
                      end)) /\
  (exists shown,
     let o := run_main os mos (selectFolder window options) a w in
     m_final o = a /\ m_result o = Ok (hd_error (chosen shown))) /\
  (exists shown,
     let o := run_main os mos (selectFolders window options) a w in
     m_final o = a /\
     m_result o = Ok (match chosen shown with
                      | [] => None
                      | paths => Some paths
                      end)) /\
  (exists shown,
     let o := run_main os mos (saveFile window options) a w in
     m_final o = a /\ m_result o = Ok (saved shown)).
Proof.
  cbv zeta. unfold selectFile, selectFiles, selectFolder, selectFolders, saveFile.
  repeat apply conj.
  all: match goal with
       | |- context [dialog_showOpenDialog _ ?sh] => exists sh
       | |- context [dialog_showSaveDialog _ ?sh] => exists sh
       end.
  all: main_open.
  all: match goal with
       | |- context [let (_, _) := ?mos ?X ?c ?w in _] =>
           destruct (mos X c w) as [[[canceled paths] | e] w1] eqn:Hanswer
       end.
  all: rewrite ?Hanswer; cbn [fst]; main_open.
  all: try destruct canceled.
  all: try match goal with
           | paths : list string |- _ => destruct paths as [| first rest]
           | paths : option string |- _ => destruct paths as [first |]
           end.
  all: cbn [orb length Nat.eqb hd_error option_map map truthy_string]; main_open.
  all: try main_case.
  all: try (destruct (Js.truthy first)); cbn [negb orb]; main_open.
  all: split; reflexivity.
Qed.

(** ** Showing a file in the file manager *)

(** A replacement text without a dollar stands for itself. *)
Lemma getSubstitution_plain matched before following replacement :
  Js.includes replacement "$" = false ->
  getSubstitution matched before following replacement = replacement.
Proof.
  induction replacement as [| c rest IH]; [reflexivity |].
  cbn [Js.includes String.prefix]. intros Hno.
  destruct (ascii_dec "$" c) as [Heq | Hne].
  - subst c. destruct rest; discriminate Hno.
  - cbn [getSubstitution].
    destruct (Ascii.eqb_spec c "$") as [Heq | _]; [congruence |].
    rewrite (IH Hno). reflexivity.
Qed.

Lemma substring_all s : String.substring 0 (String.length s) s = s.
Proof. induction s as [| c s IH]; cbn; [| rewrite IH]; reflexivity. Qed.

(** The tilde at the beginning of a path is replaced. *)
Lemma replace_leading_tilde rest home :
  String_replace (String "~" rest) "~" home
  = getSubstitution "~" EmptyString rest home ++ rest.
Proof.
  unfold String_replace. cbn [String.index String.prefix].
  destruct (ascii_dec "~" "~") as [_ | Hne]; [| congruence].
  destruct rest; cbn [String.prefix String.substring String.length Nat.add Nat.sub
                      String.append];
    rewrite ?Nat.sub_0_r, ?substring_all; reflexivity.
Qed.

(** X23.  [showItemInFolder], whatever the host answers: it never throws
    and keeps the module variables; it hands at most one path to the file
    manager, and none when the path is empty; it answers true exactly
    when it has written no error line, and then it has handed over one
    path; off macOS, and on macOS for a path that does not begin with a
    tilde, the path handed over is the path passed, unchanged. *)
Theorem showItemInFolder_contract host W (os : forall X, Os X -> W -> X * W)
    (mos : forall X, MainOs X -> W -> X * W) filePath a w :
  let o := run_main os mos (showItemInFolder host filePath) a w in
  let tr := m_trace o in
  let expands :=
    match platform host with
    | Darwin => startsWith filePath "~"
    | _ => false
    end in
  m_final o = a /\
  (exists ok,
     m_result o = Ok ok /\
     length (complaints tr) = (if ok then 0%nat else 1%nat) /\
     (if ok then length (revealed tr) = 1%nat else True)) /\
  (if Js.truthy filePath then (length (revealed tr) <= 1)%nat else revealed tr = []) /\
  (if expands then True else revealed tr = [] \/ revealed tr = [filePath]).
Proof.
  cbv zeta. unfold showItemInFolder.
  destruct (Js.truthy filePath) eqn:Hpath; cbn [negb]; main_open.
  2: { main_case. main_trace.
       repeat apply conj; eauto. destruct (match platform host with Darwin => _ | _ => _ end); auto. }
  main_case.
  destruct (platform host); cbn [mbind mtry].
  2: destruct (startsWith filePath "~"); main_open.
  2: main_case; destruct x0 as [homePath | e]; main_open.
  all: main_open; main_case.
  all: match goal with
       | H : _ = (?r, _) |- _ =>
           match type of r with Res unit => idtac end;
           destruct r as [[] | e']
       | _ => idtac
       end.
  all: main_open; try main_case; main_trace.
  all: repeat apply conj; try reflexivity; eauto; try (cbn; lia).
  all: eexists; repeat apply conj; reflexivity.
Qed.

(** X24.  On macOS the tilde at the beginning of the path stands for the
    home directory: when the home directory is known and has no dollar in
    its name, the path handed to the file manager is the home directory
    followed by the rest of the path, whatever else the host answers. *)
Theorem leading_tilde_is_home host W (os : forall X, Os X -> W -> X * W)
    (mos : forall X, MainOs X -> W -> X * W) home rest a w :
  platform host = Darwin ->
  (forall w', fst (mos _ app_getPath_home w') = Ok home) ->
  Js.includes home "$" = false ->
  revealed (m_trace (run_main os mos (showItemInFolder host (String "~" rest)) a w))
  = [home ++ rest].
Proof.
  intros Hmac Hhome Hplain. unfold showItemInFolder. cbn [Js.truthy negb].
  rewrite Hmac. unfold startsWith. cbn [String.prefix].
  destruct (ascii_dec "~" "~") as [_ | Hne]; [| congruence].
  assert (Hpre : String.prefix EmptyString rest = true) by (destruct rest; reflexivity).
  rewrite Hpre. main_open. main_case.
  pose proof (Hhome w0) as Hanswer.
  destruct (mos _ app_getPath_home w0) as [r w1]. cbn [fst] in Hanswer. subst r.
  main_open. rewrite replace_leading_tilde, getSubstitution_plain by exact Hplain.
  main_case. destruct x0 as [[] | e]; main_open; repeat main_case; main_trace.
  all: reflexivity.
Qed.

Lemma leading_tilde_is_home_witness :
  revealed (m_trace (run_main (scripted calm) (main_scripted obliging)
                       (showItemInFolder mac_host "~/Documents/a.txt")
                       (app_of initial) tt))
  = ["/Users/me/Documents/a.txt"].
Proof.
  apply (@leading_tilde_is_home mac_host unit (scripted calm) (main_scripted obliging)
           "/Users/me" "/Documents/a.txt" (app_of initial) tt).
  - reflexivity.
  - intros w'. reflexivity.
  - reflexivity.
Defined.

(** X25.  The handler of show-item-in-folder, whatever the host answers:
    it never throws and keeps the module variables.  For an empty path it
    answers failure with the text for an empty path and hands nothing to
    the file manager.  For any other path a reply of success carries no
    error text, and then one path was handed over and no error line was
    written; a reply of failure carries the text for a failed operation,
    never the text of what was thrown, and comes with an error line. *)
Theorem handleShowItemInFolder_reply host W (os : forall X, Os X -> W -> X * W)
    (mos : forall X, MainOs X -> W -> X * W) filePath a w :
  let o := run_main os mos (handleShowItemInFolder host filePath) a w in
  let tr := m_trace o in
  exists reply,
    m_result o = Ok reply /\
    m_final o = a /\
    show_error reply
    = (if negb (Js.truthy filePath) then Some "文件路径为空"
       else if show_success reply then None else Some "操作失败") /\
    (if show_success reply
     then Js.truthy filePath = true /\ length (revealed tr) = 1%nat /\
          complaints tr = []
     else complaints tr <> []) /\
    (if Js.truthy filePath then True else revealed tr = []).
Proof.
  cbv zeta. unfold handleShowItemInFolder. main_open. main_case.
  destruct (Js.truthy filePath) eqn:Hpath; cbn [negb]; main_open.
  2: { main_case. main_trace. eexists. repeat apply conj; try reflexivity.
       cbn. discriminate. }
  unfold showItemInFolder. rewrite Hpath. cbn [negb]. main_open. main_case.
  destruct (platform host); cbn [mbind mtry].
  2: destruct (startsWith filePath "~"); main_open.
  2: main_case; destruct x1 as [homePath | e]; main_open.
  all: main_open; main_case.
  all: match goal with
       | H : _ = (?r, _) |- _ =>
           match type of r with Res unit => idtac end;
           destruct r as [[] | e']
       | _ => idtac
       end.
  all: main_open; try main_case; main_trace.
  all: eexists; repeat apply conj; try reflexivity.
  all: cbn [show_success]; first [repeat split; reflexivity | discriminate].
Qed.

